(** * File store service of iAgent: a shallow embedding of
      [apps/backend/src/app/services/file.service.ts]

    The service is a sequence of queries against a GridFS bucket
    ([fs.files] metadata documents plus [fs.chunks]).  The embedding keeps
    the shape of the TypeScript: every method of [FileService] is a
    computation in a state-and-exception monad over the bucket, JavaScript
    objects used as dictionaries are [gmap string Value], and the query
    filters built by [listFilesAdvanced] are first-class values that an
    interpreter of the storage engine evaluates. *)

From Stdlib Require Import ZArith NArith String Ascii List Lia Bool.
From stdpp Require Import base option list gmap strings.

Open Scope string_scope.
Open Scope list_scope.
Open Scope Z_scope.

(** ** JavaScript values stored in a metadata document *)

Inductive Value :=
| VUndefined
| VNull
| VBool (b : bool)
| VNum (n : Z)
| VStr (s : string)
| VDate (ms : Z)
| VObjectId (o : N).

Abbreviation Metadata := (gmap string Value).

(** JavaScript truthiness ([x || y], [if (x)]). A [Date] or an [ObjectId]
    is an object and therefore always truthy. *)
Definition truthy (v : Value) : bool :=
  match v with
  | VUndefined | VNull => false
  | VBool b => b
  | VNum n => negb (n =? 0)
  | VStr s => negb (String.eqb s "")
  | VDate _ | VObjectId _ => true
  end.

(** [a || b] *)
Definition js_or (a b : Value) : Value := if truthy a then a else b.

(** [obj?.key] on an optional object: [undefined] when the object or the
    key is absent. *)
Definition opt_get (m : option Metadata) (k : string) : Value :=
  match m with
  | Some o => default VUndefined (o !! k)
  | None => VUndefined
  end.

(** [{...a, ...b}]: keys of [b] win. Spreading [undefined] adds nothing. *)
Definition spread (a : option Metadata) : Metadata := default ∅ a.
Definition merge_obj (a b : Metadata) : Metadata := b ∪ a.

(** ** Strings *)

Definition is_upper (c : ascii) : bool :=
  let n := nat_of_ascii c in (65 <=? n)%nat && (n <=? 90)%nat.

Definition lower_ascii (c : ascii) : ascii :=
  if is_upper c then ascii_of_nat (nat_of_ascii c + 32) else c.

Fixpoint lower (s : string) : string :=
  match s with
  | EmptyString => EmptyString
  | String c r => String (lower_ascii c) (lower r)
  end.

Fixpoint prefixb (p s : string) : bool :=
  match p, s with
  | EmptyString, _ => true
  | String a p', String b s' => Ascii.eqb a b && prefixb p' s'
  | String _ _, EmptyString => false
  end.

(** [s.includes(p)] *)
Fixpoint infixb (p s : string) : bool :=
  prefixb p s ||
  match s with
  | EmptyString => false
  | String _ s' => infixb p s'
  end.

(** White space removed by [String.prototype.trim], restricted to the
    one-byte characters. *)
Definition is_space (c : ascii) : bool :=
  let n := nat_of_ascii c in
  ((9 <=? n)%nat && (n <=? 13)%nat) || (n =? 32)%nat.

Fixpoint trim_start (s : string) : string :=
  match s with
  | String c r => if is_space c then trim_start r else s
  | EmptyString => EmptyString
  end.

Fixpoint trim_end (s : string) : string :=
  match s with
  | EmptyString => EmptyString
  | String c r =>
      match trim_end r with
      | EmptyString => if is_space c then EmptyString else String c EmptyString
      | r' => String c r'
      end
  end.

Definition trim (s : string) : string := trim_end (trim_start s).

(** ** Object ids

    An [ObjectId] is a 12-byte value, kept here as the number it spells
    in big-endian; [toString] prints 24 lower-case hexadecimal digits and
    the constructor [new ObjectId(s)] accepts exactly the 24-digit
    hexadecimal strings (either case) and throws on anything else. *)

Definition ObjectId := N.

Definition hex_digit (d : N) : ascii :=
  if (d <? 10)%N then ascii_of_N (48 + d) else ascii_of_N (87 + d).

Definition hex_value (c : ascii) : option N :=
  let n := N_of_ascii c in
  if ((48 <=? n) && (n <=? 57))%N then Some (n - 48)%N
  else if ((97 <=? n) && (n <=? 102))%N then Some (n - 87)%N
  else if ((65 <=? n) && (n <=? 70))%N then Some (n - 55)%N
  else None.

Fixpoint to_hex (k : nat) (n : N) (acc : string) : string :=
  match k with
  | O => acc
  | S k' => to_hex k' (n / 16)%N (String (hex_digit (n mod 16)%N) acc)
  end.

Fixpoint of_hex (s : string) (acc : N) : option N :=
  match s with
  | EmptyString => Some acc
  | String c r =>
      match hex_value c with
      | Some d => of_hex r (16 * acc + d)%N
      | None => None
      end
  end.

Definition oid_toString (o : ObjectId) : string := to_hex 24 o "".

Definition oid_parse (s : string) : option ObjectId :=
  if (String.length s =? 24)%nat then of_hex s 0%N else None.

Definition oid_bound : N := (2 ^ 96)%N.

(** ** The GridFS bucket *)

(** A document of [fs.files]. [doc_length] is the byte length GridFS
    records for the stored stream; [doc_metadata] is the free-form
    [metadata] sub-document, which may be absent. *)
Record FileDoc := {
  doc_id : ObjectId;
  doc_filename : string;
  doc_length : Z;
  doc_uploadDate : Z;
  doc_metadata : option Metadata
}.

(** The documents of [fs.chunks] that belong to one file, kept together as
    the byte stream they concatenate to (how the engine cuts a stream into
    chunks is its own business). *)
Record Chunk := {
  files_id : ObjectId;
  chunk_data : list Byte.byte
}.

(** The bucket: both collections in insertion order, and the next
    identifier the engine hands out.  Identifiers are issued from a counter;
    this is the one property of [ObjectId] generation the service relies
    on (an identifier is never issued twice). *)
Record Bucket := {
  fs_files : list FileDoc;
  fs_chunks : list Chunk;
  next_id : N
}.

Inductive Exception :=
| BadRequestException (msg : string)
| NotFoundException (msg : string)
| BSONError (msg : string)
| MongoError (msg : string)
| TypeError (msg : string).

(** The buckets the engine can be in: no identifier is used twice, every
    identifier in use was issued before [next_id], and the twelve bytes
    are not exhausted. *)
Definition well_formed (b : Bucket) : Prop :=
  NoDup (map doc_id (fs_files b)) ∧
  (∀ d, d ∈ fs_files b → (doc_id d < next_id b)%N) ∧
  (next_id b < oid_bound)%N.

(** ** Computations over the bucket that may throw *)

Definition M (A : Type) : Type := Bucket -> (Exception + A) * Bucket.

Global Instance M_ret : MRet M := fun A a b => (inr a, b).

Global Instance M_bind : MBind M := fun A B f m b =>
  match m b with
  | (inr a, b') => f a b'
  | (inl e, b') => (inl e, b')
  end.

Definition throw {A} (e : Exception) : M A := fun b => (inl e, b).

(** [try { m } catch (e) { h e }] *)
Definition try_catch {A} (m : M A) (h : Exception -> M A) : M A := fun b =>
  match m b with
  | (inr a, b') => (inr a, b')
  | (inl e, b') => h e b'
  end.

Definition gets {A} (f : Bucket -> A) : M A := fun b => (inr (f b), b).
Definition modify (f : Bucket -> Bucket) : M unit := fun b => (inr tt, f b).

(** ** Query filters and their evaluation by the engine *)

Inductive Field :=
| F_id
| F_filename
| F_length
| F_uploadDate
| F_metadata (key : string).

Inductive CmpOp := OpGt | OpLt.

(** One key of a query object. *)
Inductive Cond :=
| CEq (f : Field) (v : Value)
| CCmp (f : Field) (op : CmpOp) (v : Value)
| CRegexI (f : Field) (pattern : string).

(** A query object without [$or]: all its keys must hold. *)
Definition Clause := list Cond.

(** The [filter] object of [listFilesAdvanced]. The only keys the service
    ever sets on it are [$or] and plain field keys; assigning [$or] again
    replaces the previous value, as assignment to an object key does. *)
Record Filter := {
  f_or : option (list Clause);
  f_fields : Clause
}.

Definition empty_filter : Filter := {| f_or := None; f_fields := [] |}.
Definition set_or (cs : list Clause) (f : Filter) : Filter :=
  {| f_or := Some cs; f_fields := f_fields f |}.
Definition set_field (c : Cond) (f : Filter) : Filter :=
  {| f_or := f_or f; f_fields := f_fields f ++ [c] |}.

(** The value of a (dotted) field path in a document; [None] when the
    path is missing. *)
Definition field_value (d : FileDoc) (f : Field) : option Value :=
  match f with
  | F_id => Some (VObjectId (doc_id d))
  | F_filename => Some (VStr (doc_filename d))
  | F_length => Some (VNum (doc_length d))
  | F_uploadDate => Some (VDate (doc_uploadDate d))
  | F_metadata k => doc_metadata d ≫= (fun m => m !! k)
  end.

(** BSON comparison order: values of different types compare by type
    (null and missing fields lowest, then numbers, strings, object ids,
    booleans, dates); values of one type compare by value. *)
Definition bson_rank (v : option Value) : Z :=
  match v with
  | None | Some VUndefined | Some VNull => 1
  | Some (VNum _) => 2
  | Some (VStr _) => 3
  | Some (VObjectId _) => 7
  | Some (VBool _) => 8
  | Some (VDate _) => 9
  end.

Definition bson_compare (a b : option Value) : comparison :=
  match Z.compare (bson_rank a) (bson_rank b) with
  | Eq =>
      match a, b with
      | Some (VNum x), Some (VNum y) => Z.compare x y
      | Some (VStr x), Some (VStr y) => String.compare x y
      | Some (VObjectId x), Some (VObjectId y) => N.compare x y
      | Some (VBool x), Some (VBool y) => Bool.compare x y
      | Some (VDate x), Some (VDate y) => Z.compare x y
      | _, _ => Eq
      end
  | c => c
  end.

(** ** Regular expressions

    The service only ever builds [new RegExp(escapeRegex(s), 'i')].  The
    fragment of the pattern language interpreted here is the one such
    patterns live in: a sequence of ordinary characters and of
    backslash-escaped special characters, denoting a literal string.  A
    pattern outside the fragment has no denotation. *)

Definition regex_specials : list ascii :=
  ["."; "*"; "+"; "?"; "^"; "$"; "{"; "}"; "("; ")"; "|"; "["; "]"; "\"]%char.

Definition is_special (c : ascii) : bool :=
  existsb (Ascii.eqb c) regex_specials.

(** [input.replace(/[.*+?^${}()|[\]\\]/g, '\\$&')] *)
Fixpoint escapeRegex (input : string) : string :=
  match input with
  | EmptyString => EmptyString
  | String c r =>
      if is_special c then String "\"%char (String c (escapeRegex r))
      else String c (escapeRegex r)
  end.

Fixpoint regex_literal (pattern : string) : option string :=
  match pattern with
  | EmptyString => Some EmptyString
  | String c r =>
      if Ascii.eqb c "\"%char then
        match r with
        | String e r' =>
            if is_special e then String e <$> regex_literal r' else None
        | EmptyString => None
        end
      else if is_special c then None
      else String c <$> regex_literal r
  end.

(** [/pattern/i.test(s)]: an unanchored, case-insensitive search. *)
Definition regex_test_i (pattern s : string) : bool :=
  match regex_literal pattern with
  | Some lit => infixb (lower lit) (lower s)
  | None => false
  end.

Definition eval_cond (d : FileDoc) (c : Cond) : bool :=
  match c with
  | CEq f v =>
      match bson_compare (field_value d f) (Some v) with Eq => true | _ => false end
  | CCmp f op v =>
      (bson_rank (field_value d f) =? bson_rank (Some v)) &&
      match bson_compare (field_value d f) (Some v), op with
      | Gt, OpGt | Lt, OpLt => true
      | _, _ => false
      end
  | CRegexI f pattern =>
      match field_value d f with
      | Some (VStr s) => regex_test_i pattern s
      | _ => false
      end
  end.

Definition eval_clause (d : FileDoc) (c : Clause) : bool :=
  forallb (eval_cond d) c.

Definition eval_filter (f : Filter) (d : FileDoc) : bool :=
  eval_clause d (f_fields f) &&
  match f_or f with
  | Some cs => existsb (eval_clause d) cs
  | None => true
  end.

(** ** Sorting, skipping and limiting *)

Inductive SortOrder := Asc | Desc.

(** A sort document such as [{ uploadDate: -1, _id: -1 }]: keys in order. *)
Definition SortSpec := list (Field * SortOrder).

Fixpoint sort_compare (spec : SortSpec) (a b : FileDoc) : comparison :=
  match spec with
  | [] => Eq
  | (f, dir) :: rest =>
      match bson_compare (field_value a f) (field_value b f) with
      | Eq => sort_compare rest a b
      | c => match dir with Asc => c | Desc => CompOpp c end
      end
  end.

Definition sort_leb (spec : SortSpec) (a b : FileDoc) : bool :=
  match sort_compare spec a b with Gt => false | _ => true end.

Fixpoint insert_sorted (spec : SortSpec) (d : FileDoc) (l : list FileDoc) : list FileDoc :=
  match l with
  | [] => [d]
  | x :: r => if sort_leb spec d x then d :: l else x :: insert_sorted spec d r
  end.

(** Documents that the sort document does not tell apart stay in
    collection order. *)
Definition sort_docs (spec : SortSpec) (l : list FileDoc) : list FileDoc :=
  foldr (insert_sorted spec) [] l.

(** [cursor.skip(n)]: the server rejects a negative skip. *)
Definition apply_skip (n : Z) (l : list FileDoc) : Exception + list FileDoc :=
  if n <? 0 then inl (MongoError "skip value must be non-negative")
  else inr (drop (Z.to_nat n) l).

(** [cursor.limit(n)]: zero means no limit, and a negative limit is read
    as its absolute value. *)
Definition apply_limit (n : Z) (l : list FileDoc) : list FileDoc :=
  if n =? 0 then l else take (Z.to_nat (Z.abs n)) l.

(** [col.find(filter).sort(sort).skip(skip).limit(limit).toArray()] *)
Definition find (f : Filter) (sort : SortSpec) (skip limit : Z) : M (list FileDoc) :=
  fun b =>
    match apply_skip skip (sort_docs sort (List.filter (eval_filter f) (fs_files b))) with
    | inl e => (inl e, b)
    | inr l => (inr (apply_limit limit l), b)
    end.

(** [col.countDocuments(filter)] *)
Definition countDocuments (f : Filter) : M Z :=
  gets (fun b => Z.of_nat (length (List.filter (eval_filter f) (fs_files b)))).

Definition by_id (oid : ObjectId) : Filter :=
  {| f_or := None; f_fields := [CEq F_id (VObjectId oid)] |}.

(** [col.findOne({ _id: oid })] *)
Definition findOne (oid : ObjectId) : M (option FileDoc) :=
  docs ← find (by_id oid) [] 0 1; mret (head docs).

(** [col.updateOne({ _id: oid }, { $set: ... })]: the first document with
    that id is updated. *)
Fixpoint update_first (oid : ObjectId) (upd : FileDoc -> FileDoc) (l : list FileDoc) : list FileDoc :=
  match l with
  | [] => []
  | d :: r => if (doc_id d =? oid)%N then upd d :: r else d :: update_first oid upd r
  end.

Definition updateOne (oid : ObjectId) (upd : FileDoc -> FileDoc) : M unit :=
  modify (fun b => {| fs_files := update_first oid upd (fs_files b);
                      fs_chunks := fs_chunks b;
                      next_id := next_id b |}).

Fixpoint remove_first (oid : ObjectId) (l : list FileDoc) : list FileDoc :=
  match l with
  | [] => []
  | d :: r => if (doc_id d =? oid)%N then r else d :: remove_first oid r
  end.

(** [bucket.delete(oid)]: removes the files document and every chunk of
    it, then rejects when there was no files document. *)
Definition bucket_delete (oid : ObjectId) : M unit := fun b =>
  let found := existsb (fun d => (doc_id d =? oid)%N) (fs_files b) in
  let b' := {| fs_files := remove_first oid (fs_files b);
               fs_chunks := List.filter (fun c => negb (files_id c =? oid)%N) (fs_chunks b);
               next_id := next_id b |} in
  if found then (inr tt, b')
  else (inl (MongoError ("File not found for id " +:+ oid_toString oid)), b').

(** [bucket.openUploadStream(filename, { metadata })] with the whole
    buffer piped through it: on ['finish'] the files document and the
    chunks exist and the stream's id is known. *)
Definition upload_stream (filename : string) (metadata : Metadata)
    (data : list Byte.byte) (now : Z) : M ObjectId := fun b =>
  let oid := next_id b in
  (inr oid,
   {| fs_files := fs_files b ++
        [{| doc_id := oid; doc_filename := filename;
            doc_length := Z.of_nat (length data);
            doc_uploadDate := now; doc_metadata := Some metadata |}];
      fs_chunks := fs_chunks b ++ [{| files_id := oid; chunk_data := data |}];
      next_id := N.succ oid |}).

(** ** The service's types *)

Module FileUploadResult.
Record t := {
  id : string;
  filename : string;
  size : Z;
  mimetype : Value;
  uploadDate : Z
}.
End FileUploadResult.

Module FileInfo.
Record t := {
  id : string;
  filename : string;
  size : Z;
  mimetype : Value;
  uploadDate : Z;
  metadata : option Metadata
}.
End FileInfo.

(** The uploaded file object handed over by the HTTP layer. *)
Module File.
Record t := {
  buffer : list Byte.byte;
  originalname : string;
  mimetype : string;
  size : Z
}.
End File.

Inductive SortBy := BySize | ByCreatedAt | ByUpdatedAt.

Module Params.
Record t := {
  q : option string;
  mimetype : option string;
  page : option Z;
  limit : option Z;
  sortBy : option SortBy;
  sortOrder : option SortOrder;
  cursor : option string
}.
End Params.

Module Payload.
Record t := {
  filename : option string;
  metadata : option Metadata
}.
End Payload.

(** The two shapes [listFilesAdvanced] resolves to. *)
Inductive ListResult :=
| CursorList (items : list FileInfo.t) (nextCursor : option string)
| PageList (items : list FileInfo.t) (page : Z) (total : Z).


(** [environment.fileUpload] *)
Record FileUploadConfig := {
  maxFileSize : Z;
  acceptedTypes : list string
}.

(** The projection every reading method builds from a files document. *)
Definition file_info (file : FileDoc) : FileInfo.t :=
  {| FileInfo.id := oid_toString (doc_id file);
     FileInfo.filename := doc_filename file;
     FileInfo.size := doc_length file;
     FileInfo.mimetype :=
       js_or (opt_get (doc_metadata file) "mimetype") (VStr "application/octet-stream");
     FileInfo.uploadDate := doc_uploadDate file;
     FileInfo.metadata := doc_metadata file |}.

(** A string option in a boolean position: [undefined] and [''] are falsy. *)
Definition truthy_str (s : option string) : bool :=
  match s with
  | Some s => negb (String.eqb s "")
  | None => false
  end.

Definition not_found (fileId : string) : Exception :=
  NotFoundException ("File with ID " +:+ fileId +:+ " not found").

(** What the [ObjectId] constructor throws on a string it cannot read. *)
Definition bson_error : Exception :=
  BSONError "input must be a 24 character hex string, 12 byte Uint8Array, or an integer".

(** [new ObjectId(fileId)] *)
Definition new_ObjectId (s : string) : M ObjectId :=
  match oid_parse s with
  | Some o => mret o
  | None => throw bson_error
  end.

Fixpoint join (sep : string) (l : list string) : string :=
  match l with
  | [] => ""
  | [x] => x
  | x :: r => x +:+ sep +:+ join sep r
  end.

(** ** The file list component

    [FileList.tsx] keeps the listing and the rename dialog in component
    state and talks to the backend through its service client.  The
    handlers are modelled as functions on that state and on the state of
    whatever serves the client's calls; a failed call arrives as the
    message of the error it throws.  The flags [loading] and [renaming]
    are written by the handlers but never read by them and are left out. *)

Module FileList.


Record State := {
  files : list FileInfo.t;
  error : option string;
  totalCount : Z;
  nextCursor : option string;
  isLoadingMore : bool;
  renameDialogOpen : bool;
  fileToRename : option FileInfo.t;
  newFilename : string
}.






Definition setRenameDialogOpen (v : bool) (st : State) : State :=
  {| files := files st; error := error st; totalCount := totalCount st;
     nextCursor := nextCursor st; isLoadingMore := isLoadingMore st;
     renameDialogOpen := v; fileToRename := fileToRename st;
     newFilename := newFilename st |}.

Definition setFileToRename (v : option FileInfo.t) (st : State) : State :=
  {| files := files st; error := error st; totalCount := totalCount st;
     nextCursor := nextCursor st; isLoadingMore := isLoadingMore st;
     renameDialogOpen := renameDialogOpen st; fileToRename := v;
     newFilename := newFilename st |}.

Definition setNewFilename (v : string) (st : State) : State :=
  {| files := files st; error := error st; totalCount := totalCount st;
     nextCursor := nextCursor st; isLoadingMore := isLoadingMore st;
     renameDialogOpen := renameDialogOpen st; fileToRename := fileToRename st;
     newFilename := v |}.




Section Component.

Variable Server : Type.
Variable listFiles : Params.t -> Server -> (string + ListResult) * Server.
Variable renameFile : string -> Payload.t -> Server -> (string + FileInfo.t) * Server.



Definition handleRenameClick (file : FileInfo.t) (st : State) : State :=
  setRenameDialogOpen true (setNewFilename (FileInfo.filename file)
    (setFileToRename (Some file) st)).


End Component.

End FileList.


(** ** The service

    Every method reads the clock at most a few times within one call
    ([new Date()]); the readings of one call are taken to be the same
    instant, passed in as [now]. *)

Section FileService.

(** [createHash('sha256').update(buf).digest('hex')] *)
Variable sha256 : list Byte.byte -> string.

(** [formatBytes] rounds through floating-point logarithms; the service
    only ever pastes its result into messages. *)
Variable formatBytes : Z -> string.

Variable environment : FileUploadConfig.

Definition validateFile (file : File.t) : M unit :=
  if File.size file >? maxFileSize environment then
    throw (BadRequestException
      ("File size (" +:+ formatBytes (File.size file) +:+
       ") exceeds maximum allowed size (" +:+
       formatBytes (maxFileSize environment) +:+ ")"))
  else if (0 <? length (acceptedTypes environment))%nat &&
          negb (existsb (String.eqb (File.mimetype file)) (acceptedTypes environment)) then
    throw (BadRequestException
      ("File type " +:+ File.mimetype file +:+
       " is not allowed. Accepted types: " +:+
       join ", " (acceptedTypes environment)))
  else mret tt.

(** The files [validateFile] lets through. *)
Definition accepts (file : File.t) : Prop :=
  File.size file ≤ maxFileSize environment ∧
  (acceptedTypes environment = [] ∨ File.mimetype file ∈ acceptedTypes environment).

(** The query of the deduplication check. *)
Definition dup_filter (hash filename : string) : Filter :=
  {| f_or := None;
     f_fields := [CEq (F_metadata "hash") (VStr hash); CEq F_filename (VStr filename)] |}.

(** The metadata document a new upload is stored with; the caller's
    [metadata] is spread last. *)
Definition upload_metadata (file : File.t) (hash : string) (now : Z)
    (metadata : option Metadata) : Metadata :=
  merge_obj
    (<["originalName" := VStr (File.originalname file)]>
     (<["mimetype" := VStr (File.mimetype file)]>
     (<["size" := VNum (File.size file)]>
     (<["hash" := VStr hash]>
     (<["uploadedAt" := VDate now]>
     (<["chatId" := opt_get metadata "chatId"]>
     (<["userId" := opt_get metadata "userId"]> ∅)))))))
    (spread metadata).

Definition uploadFile (file : option File.t) (metadata : option Metadata) (now : Z)
    : M FileUploadResult.t :=
  match file with
  | None => throw (BadRequestException "No file provided")
  | Some file =>
      _ ← validateFile file;
      let hash := sha256 (File.buffer file) in
      existing ← find (dup_filter hash (File.originalname file)) [] 0 1;
      match existing with
      | dup :: _ =>
          mret {| FileUploadResult.id := oid_toString (doc_id dup);
                  FileUploadResult.filename := doc_filename dup;
                  FileUploadResult.size := doc_length dup;
                  FileUploadResult.mimetype :=
                    js_or (opt_get (doc_metadata dup) "mimetype")
                          (VStr "application/octet-stream");
                  FileUploadResult.uploadDate := doc_uploadDate dup |}
      | [] =>
          oid ← upload_stream (File.originalname file)
                  (upload_metadata file hash now metadata) (File.buffer file) now;
          mret {| FileUploadResult.id := oid_toString oid;
                  FileUploadResult.filename := File.originalname file;
                  FileUploadResult.size := File.size file;
                  FileUploadResult.mimetype := VStr (File.mimetype file);
                  FileUploadResult.uploadDate := now |}
      end
  end.

Definition getFileInfo (fileId : string) : M FileInfo.t :=
  try_catch
    (objectId ← new_ObjectId fileId;
     files ← find (by_id objectId) [] 0 0;
     match files with
     | [] => throw (not_found fileId)
     | file :: _ => mret (file_info file)
     end)
    (fun error =>
       match error with
       | NotFoundException _ => throw error
       | _ => throw (not_found fileId)
       end).

(** [bucket.openDownloadStream(oid)], read to the end. *)
Definition download_stream (oid : ObjectId) : M (list Byte.byte) :=
  gets (fun b =>
    concat (map chunk_data (List.filter (fun c => (files_id c =? oid)%N) (fs_chunks b)))).

Definition getFileStream (fileId : string) : M (list Byte.byte * FileInfo.t) :=
  try_catch
    (objectId ← new_ObjectId fileId;
     fileInfo ← getFileInfo fileId;
     downloadStream ← download_stream objectId;
     mret (downloadStream, fileInfo))
    (fun _ => throw (not_found fileId)).

Definition listFiles (limit skip : option Z) : M (list FileInfo.t) :=
  files ← find empty_filter [(F_uploadDate, Desc)] (default 0 skip) (default 50 limit);
  mret (map file_info files).

(** The [filter] object after the text query and the mimetype filter
    have been put on it. *)
Definition base_filter (q mimetype : option string) : Filter :=
  let filter := empty_filter in
  let filter :=
    match q with
    | Some q =>
        if truthy_str (Some q) && (0 <? String.length (trim q))%nat then
          let regex := escapeRegex (trim q) in
          set_or [[CRegexI F_filename regex];
                  [CRegexI (F_metadata "originalName") regex];
                  [CRegexI (F_metadata "description") regex]] filter
        else filter
    | None => filter
    end in
  match mimetype with
  | Some mimetype =>
      if truthy_str (Some mimetype) && (0 <? String.length (trim mimetype))%nat then
        set_field (CEq (F_metadata "mimetype") (VStr (trim mimetype))) filter
      else filter
  | None => filter
  end.

(** The one-key [sort] object. *)
Definition sort_key (sortBy : SortBy) (sortOrder : SortOrder) : Field * SortOrder :=
  match sortBy with
  | BySize => (F_length, sortOrder)
  | ByUpdatedAt => (F_metadata "updatedAt", sortOrder)
  | ByCreatedAt => (F_uploadDate, sortOrder)
  end.

Definition cursor_op (dir : SortOrder) : CmpOp :=
  match dir with Asc => OpGt | Desc => OpLt end.

(** The two alternatives assigned to [filter.$or] once the cursor's
    document [lastDoc] has been found. *)
Definition continuation (sort : Field * SortOrder) (lastDoc : FileDoc)
    : option (list Clause) :=
  let op := cursor_op (snd sort) in
  let last_id := VObjectId (doc_id lastDoc) in
  match fst sort with
  | F_uploadDate =>
      let v := VDate (doc_uploadDate lastDoc) in
      Some [[CCmp F_uploadDate op v]; [CEq F_uploadDate v; CCmp F_id op last_id]]
  | F_length =>
      let v := VNum (doc_length lastDoc) in
      Some [[CCmp F_length op v]; [CEq F_length v; CCmp F_id op last_id]]
  | F_metadata "updatedAt" =>
      let v := js_or (opt_get (doc_metadata lastDoc) "updatedAt")
                     (VDate (doc_uploadDate lastDoc)) in
      Some [[CCmp (F_metadata "updatedAt") op v];
            [CEq (F_metadata "updatedAt") v; CCmp F_id op last_id]]
  | _ => None
  end.

(** The [try { ... } catch { }] block of cursor mode. *)
Definition cursor_filter (cursor : string) (sort : Field * SortOrder)
    (filter : Filter) : M Filter :=
  try_catch
    (cursorId ← new_ObjectId cursor;
     lastDoc ← findOne cursorId;
     mret (match lastDoc with
           | Some lastDoc =>
               match continuation sort lastDoc with
               | Some alternatives => set_or alternatives filter
               | None => filter
               end
           | None => filter
           end))
    (fun _ => mret filter).

Definition next_cursor (docs : list FileDoc) (limit : Z) : option string :=
  if Z.of_nat (length docs) =? limit
  then (fun d => oid_toString (doc_id d)) <$> last docs
  else None.

Definition listFilesAdvanced (params : Params.t) : M ListResult :=
  let limit := default 50 (Params.limit params) in
  let sortBy := default ByCreatedAt (Params.sortBy params) in
  let sortOrder := default Desc (Params.sortOrder params) in
  let filter := base_filter (Params.q params) (Params.mimetype params) in
  let sort := sort_key sortBy sortOrder in
  if truthy_str (Params.cursor params) then
    filter ← cursor_filter (default "" (Params.cursor params)) sort filter;
    docs ← find filter [sort; (F_id, sortOrder)] 0 limit;
    mret (CursorList (map file_info docs) (next_cursor docs limit))
  else
    let pageNum :=
      match Params.page params with
      | Some page => if page >? 0 then page else 1
      | None => 1
      end in
    let skip := (pageNum - 1) * limit in
    docs ← find filter [sort; (F_id, sortOrder)] skip limit;
    total ← countDocuments filter;
    mret (PageList (map file_info docs) pageNum total).

(** The [$set] document of [renameFile], applied to the stored document. *)
Definition rename_update (payload : Payload.t) (existing : FileDoc) (now : Z)
    (d : FileDoc) : FileDoc :=
  {| doc_id := doc_id d;
     doc_filename :=
       if truthy_str (Payload.filename payload)
       then default "" (Payload.filename payload) else doc_filename d;
     doc_length := doc_length d;
     doc_uploadDate := doc_uploadDate d;
     doc_metadata :=
       Some (match Payload.metadata payload with
             | Some patch =>
                 <["updatedAt" := VDate now]>
                   (merge_obj (spread (doc_metadata existing)) patch)
             | None =>
                 <["updatedAt" := VDate now]> (spread (doc_metadata existing))
             end) |}.

Definition renameFile (fileId : string) (payload : Payload.t) (now : Z) : M FileInfo.t :=
  objectId ← new_ObjectId fileId;
  existing ← findOne objectId;
  match existing with
  | None => throw (not_found fileId)
  | Some existing =>
      _ ← updateOne objectId (rename_update payload existing now);
      updated ← findOne objectId;
      match updated with
      | Some file => mret (file_info file)
      | None => throw (TypeError "Cannot read properties of null (reading '_id')")
      end
  end.

(** The metadata [replaceFile] hands to [uploadFile]. *)
Definition replace_metadata (existing : FileDoc) (additionalMetadata : option Metadata)
    (fileId : string) (now : Z) : Metadata :=
  <["updatedAt" := VDate now]>
    (<["originalReplacedId" := VStr fileId]>
      (merge_obj (spread (doc_metadata existing)) (spread additionalMetadata))).

Definition replaceFile (fileId : string) (newFile : option File.t)
    (additionalMetadata : option Metadata) (now : Z) : M FileUploadResult.t :=
  match newFile with
  | None => throw (BadRequestException "No file provided")
  | Some file =>
      _ ← validateFile file;
      objectId ← new_ObjectId fileId;
      existing ← findOne objectId;
      match existing with
      | None => throw (not_found fileId)
      | Some existing =>
          _ ← try_catch (bucket_delete objectId) (fun _ => mret tt);
          uploadFile newFile
            (Some (replace_metadata existing additionalMetadata fileId now)) now
      end
  end.

Definition deleteFile (fileId : string) : M unit :=
  try_catch
    (objectId ← new_ObjectId fileId; bucket_delete objectId)
    (fun _ => throw (not_found fileId)).

Definition getFileCount : M Z :=
  files ← find empty_filter [] 0 0; mret (Z.of_nat (length files)).

Definition getFilesByChatId (chatId : string) : M (list FileInfo.t) :=
  files ← find {| f_or := None; f_fields := [CEq (F_metadata "chatId") (VStr chatId)] |}
            [(F_uploadDate, Desc)] 0 0;
  mret (map file_info files).

Fixpoint uploadFiles (files : list File.t) (metadata : option Metadata) (now : Z)
    : M (list FileUploadResult.t) :=
  match files with
  | [] => mret []
  | file :: rest =>
      result ← uploadFile (Some file) metadata now;
      results ← uploadFiles rest metadata now;
      mret (result :: results)
  end.

(** ** Walking a listing to completion

    The two ways a client enumerates a listing: asking for page after page
    until one comes back empty, and following [nextCursor] until none is
    returned (the loop of [loadMore] in the file list component).  Cursor
    mode is only entered with a non-empty [cursor], so the first request
    of a cursor walk carries a cursor that resolves to no document. *)

Definition with_page (params : Params.t) (page : Z) : Params.t :=
  {| Params.q := Params.q params; Params.mimetype := Params.mimetype params;
     Params.page := Some page; Params.limit := Params.limit params;
     Params.sortBy := Params.sortBy params; Params.sortOrder := Params.sortOrder params;
     Params.cursor := None |}.

Definition with_cursor (params : Params.t) (cursor : string) : Params.t :=
  {| Params.q := Params.q params; Params.mimetype := Params.mimetype params;
     Params.page := None; Params.limit := Params.limit params;
     Params.sortBy := Params.sortBy params; Params.sortOrder := Params.sortOrder params;
     Params.cursor := Some cursor |}.

(** The same request without its text query. *)
Definition without_q (params : Params.t) : Params.t :=
  {| Params.q := None; Params.mimetype := Params.mimetype params;
     Params.page := Params.page params; Params.limit := Params.limit params;
     Params.sortBy := Params.sortBy params; Params.sortOrder := Params.sortOrder params;
     Params.cursor := Params.cursor params |}.

Fixpoint walk_pages (fuel : nat) (params : Params.t) (page : Z) (b : Bucket)
    : list string :=
  match fuel with
  | O => []
  | S fuel =>
      match listFilesAdvanced (with_page params page) b with
      | (inr (PageList (item :: items) _ _), _) =>
          map FileInfo.id (item :: items) ++ walk_pages fuel params (page + 1) b
      | _ => []
      end
  end.

Fixpoint walk_cursor (fuel : nat) (params : Params.t) (cursor : string) (b : Bucket)
    : list string :=
  match fuel with
  | O => []
  | S fuel =>
      match listFilesAdvanced (with_cursor params cursor) b with
      | (inr (CursorList items next), _) =>
          map FileInfo.id items ++
          match next with
          | Some cursor => walk_cursor fuel params cursor b
          | None => []
          end
      | _ => []
      end
  end.

(** One call of a writing method, whatever its outcome. *)
Inductive service_step : Bucket -> Bucket -> Prop :=
| step_uploadFile file metadata now b r b' :
    uploadFile file metadata now b = (r, b') -> service_step b b'
| step_uploadFiles files metadata now b r b' :
    uploadFiles files metadata now b = (r, b') -> service_step b b'
| step_renameFile fileId payload now b r b' :
    renameFile fileId payload now b = (r, b') -> service_step b b'
| step_replaceFile fileId newFile additionalMetadata now b r b' :
    replaceFile fileId newFile additionalMetadata now b = (r, b') -> service_step b b'
| step_deleteFile fileId b r b' :
    deleteFile fileId b = (r, b') -> service_step b b'.


(** ** Projections handed back to callers *)



(** ** The component against this service

    The calls of the component's service client, with the layers in
    between taken to hand a request to the service method as it was sent
    and the answer back as it was given; [describe] is the message an
    error reaches the component with. *)





(** ** Bucket invariants beyond identifiers *)

(** Every run of chunk data belongs to a files document and every files
    document has its chunk data, in the same order. *)
Definition files_chunks_agree (b : Bucket) : Prop :=
  map files_id (fs_chunks b) = map doc_id (fs_files b).

(** The stored value of a metadata key of a document, [None] when the
    document has no metadata or the key is missing. *)
Definition stored (d : FileDoc) (key : string) : option Value :=
  doc_metadata d ≫= (fun m => m !! key).


(** Every run of chunk data carries an identifier issued before
    [next_id]. *)
Definition chunks_issued (b : Bucket) : Prop :=
  ∀ c, c ∈ fs_chunks b → (files_id c < next_id b)%N.

(** The first files document with the given id. *)
Definition lookup_doc (oid : ObjectId) (b : Bucket) : option FileDoc :=
  List.find (fun d => (doc_id d =? oid)%N) (fs_files b).


(** What the service relies on between calls: identifiers are unique and
    were all issued, and files documents and chunk data go together. *)
Definition consistent (b : Bucket) : Prop :=
  NoDup (map doc_id (fs_files b)) ∧
  (∀ d, d ∈ fs_files b → (doc_id d < next_id b)%N) ∧
  files_chunks_agree b.


(** ** Order of a listing *)

(** The sort document both modes of [listFilesAdvanced] pass to the
    engine. *)
Definition listing_sort (sortBy : SortBy) (sortOrder : SortOrder) : SortSpec :=
  [sort_key sortBy sortOrder; (F_id, sortOrder)].

(** [d] comes strictly after [last] in the order of a sort document. *)
Definition comes_after (spec : SortSpec) (last d : FileDoc) : bool :=
  match sort_compare spec last d with Lt => true | _ => false end.

(** A list in the order of a sort document: every element is at most
    every later one. *)
Fixpoint ordered (spec : SortSpec) (l : list FileDoc) : Prop :=
  match l with
  | [] => True
  | x :: r => (∀ y, y ∈ r → sort_leb spec x y = true) ∧ ordered spec r
  end.

(** The number a sort by size or by creation time orders by. *)
Definition num_key (sortBy : SortBy) (d : FileDoc) : Z :=
  match sortBy with
  | BySize => doc_length d
  | _ => doc_uploadDate d
  end.


(** ** Sample data for the worked examples *)

(** Stands in for SHA-256 where an example has to run: it spells the
    bytes out, so that the digest of the content "alpha-data" reads
    "alpha-data". *)
Definition sample_digest (buf : list Byte.byte) : string :=
  string_of_list_ascii (map Ascii.ascii_of_byte buf).

(** Stands in for [formatBytes]: the byte count in hexadecimal. *)
Definition sample_formatBytes (n : Z) : string :=
  "0x" +:+ to_hex 8 (Z.to_N n) "" +:+ " Bytes".

Definition sample_environment : FileUploadConfig :=
  {| maxFileSize := 1000; acceptedTypes := ["text/plain"; "image/png"] |}.

Definition sample_doc (oid : ObjectId) (name : string) (len date : Z)
    (hash mime : string) : FileDoc :=
  {| doc_id := oid; doc_filename := name; doc_length := len; doc_uploadDate := date;
     doc_metadata := Some (<["originalName" := VStr name]>
                          (<["mimetype" := VStr mime]>
                          (<["size" := VNum len]>
                          (<["hash" := VStr hash]>
                          (<["uploadedAt" := VDate date]> ∅))))) |}.

Definition alpha_doc : FileDoc :=
  sample_doc 1%N "alpha.txt" 10 100 "alpha-data" "text/plain".
Definition beta_doc : FileDoc :=
  sample_doc 2%N "beta.png" 30 200 "h-beta" "image/png".
Definition alphabet_doc : FileDoc :=
  sample_doc 3%N "alphabet.txt" 20 300 "h-alphabet" "text/plain".

(** Three files that were uploaded and never renamed: sizes 10, 30, 20. *)
Definition shelf : Bucket :=
  {| fs_files := [alpha_doc; beta_doc; alphabet_doc];
     fs_chunks := [];
     next_id := 4%N |}.

Definition id_1 : string := "000000000000000000000001".
Definition id_2 : string := "000000000000000000000002".
Definition id_3 : string := "000000000000000000000003".

(** The first file of the shelf, as the HTTP layer would hand it over. *)
Definition alpha_file : File.t :=
  {| File.buffer := list_byte_of_string "alpha-data";
     File.originalname := "alpha.txt";
     File.mimetype := "text/plain";
     File.size := 10 |}.

(** New content for [alpha.txt]. *)
Definition alpha_v2 : File.t :=
  {| File.buffer := list_byte_of_string "alpha-data-v2";
     File.originalname := "alpha.txt";
     File.mimetype := "text/plain";
     File.size := 13 |}.

(** A file above the sample size limit, and one of a type the sample
    configuration does not list. *)
Definition big_file : File.t :=
  {| File.buffer := []; File.originalname := "big.txt";
     File.mimetype := "text/plain"; File.size := 2000 |}.

Definition zip_file : File.t :=
  {| File.buffer := []; File.originalname := "bundle.zip";
     File.mimetype := "application/zip"; File.size := 10 |}.

Definition empty_bucket : Bucket :=
  {| fs_files := []; fs_chunks := []; next_id := 1%N |}.

(** The [metadata.hash] stored for the first document with the given id. *)
Definition stored_hash (oid : ObjectId) (b : Bucket) : Value :=
  match List.find (fun d => (doc_id d =? oid)%N) (fs_files b) with
  | Some d => opt_get (doc_metadata d) "hash"
  | None => VUndefined
  end.


(** The text search as the interface describes it: [q] occurs, letter
    case aside, in the file name, in [metadata.originalName] or in
    [metadata.description]. *)
Definition contains_ci (q s : string) : bool := infixb (lower q) (lower s).

Definition text_match (q : string) (d : FileDoc) : bool :=
  contains_ci q (doc_filename d) ||
  match field_value d (F_metadata "originalName") with
  | Some (VStr s) => contains_ci q s
  | _ => false
  end ||
  match field_value d (F_metadata "description") with
  | Some (VStr s) => contains_ci q s
  | _ => false
  end.

Definition mimetype_is (m : string) (d : FileDoc) : bool :=
  match field_value d (F_metadata "mimetype") with
  | Some (VStr s) => String.eqb s m
  | _ => false
  end.

(** The records a listing is asked for: the trimmed text query, when it
    is not blank, must occur in one of the three fields, and the trimmed
    mimetype, when it is not blank, must be the stored one. *)
Definition wanted (q mimetype : option string) (d : FileDoc) : bool :=
  match q with
  | Some q => if (trim q =? "")%string then true else text_match (trim q) d
  | None => true
  end &&
  match mimetype with
  | Some m => if (trim m =? "")%string then true else mimetype_is (trim m) d
  | None => true
  end.


(** A search for "alpha", one item per request, default order. *)
Definition search_alpha : Params.t :=
  {| Params.q := Some "alpha"; Params.mimetype := None; Params.page := None;
     Params.limit := Some 1; Params.sortBy := None; Params.sortOrder := None;
     Params.cursor := None |}.

(** Everything, two items per request, largest first. *)
Definition by_size : Params.t :=
  {| Params.q := None; Params.mimetype := None; Params.page := None;
     Params.limit := Some 2; Params.sortBy := Some BySize;
     Params.sortOrder := Some Desc; Params.cursor := None |}.

(** Everything, two items per request, most recently updated first. *)
Definition by_update_time : Params.t :=
  {| Params.q := None; Params.mimetype := None; Params.page := None;
     Params.limit := Some 2; Params.sortBy := Some ByUpdatedAt;
     Params.sortOrder := Some Desc; Params.cursor := None |}.


(** The bytes of [alpha_file] under another name. *)
Definition copy_file : File.t :=
  {| File.buffer := File.buffer alpha_file; File.originalname := "copy.txt";
     File.mimetype := "text/plain"; File.size := 10 |}.

(** An identifier the shelf does not hold. *)
Definition id_9 : string := "000000000000000000000009".





(** ** Properties *)

(** *** Plumbing *)

Lemma existsb_eqb_elem_of (x : string) (l : list string) :
  existsb (String.eqb x) l = true ↔ x ∈ l.
Proof.
  induction l as [|y l IH]; simpl.
  - split; [discriminate | intros H; inversion H].
  - rewrite orb_true_iff, IH, elem_of_cons, String.eqb_eq. reflexivity.
Qed.

Lemma last_map {A B} (f : A -> B) (l : list A) : last (map f l) = f <$> last l.
Proof.
  induction l as [|x [|y l] IH]; try reflexivity.
  change (last (map f (y :: l)) = f <$> last (y :: l)). exact IH.
Qed.

(** *** Object ids print and parse back *)

Lemma hex_value_digit (d : N) : (d < 16)%N → hex_value (hex_digit d) = Some d.
Proof.
  intros Hd. destruct d as [|p]; [reflexivity|].
  do 4 (destruct p as [p|p|]; try reflexivity); lia.
Qed.

Lemma length_to_hex (k : nat) (n : N) (acc : string) :
  String.length (to_hex k n acc) = (k + String.length acc)%nat.
Proof.
  revert n acc. induction k as [|k IH]; intros n acc; [reflexivity|].
  cbn [to_hex]. rewrite IH. cbn [String.length]. lia.
Qed.

Lemma of_hex_to_hex (k : nat) (n : N) (acc : string) (a : N) :
  of_hex (to_hex k n acc) a = of_hex acc (a * 16 ^ N.of_nat k + n mod 16 ^ N.of_nat k)%N.
Proof.
  revert n acc a. induction k as [|k IH]; intros n acc a.
  - cbn [to_hex]. f_equal. change (16 ^ N.of_nat 0)%N with 1%N.
    rewrite N.mod_1_r. lia.
  - cbn [to_hex]. rewrite IH. cbn [of_hex].
    rewrite hex_value_digit by (apply N.mod_lt; discriminate).
    f_equal. rewrite Nat2N.inj_succ, N.pow_succ_r'.
    rewrite (N.Div0.mod_mul_r n 16 (16 ^ N.of_nat k)). lia.
Qed.

Lemma oid_parse_toString (o : ObjectId) :
  (o < oid_bound)%N → oid_parse (oid_toString o) = Some o.
Proof.
  intros Ho. unfold oid_parse, oid_toString.
  rewrite length_to_hex. cbn [String.length Nat.add Nat.eqb].
  rewrite of_hex_to_hex. cbn [of_hex]. f_equal.
  change (16 ^ N.of_nat 24)%N with oid_bound.
  rewrite N.mod_small by exact Ho. lia.
Qed.

Lemma oid_toString_inj (o1 o2 : ObjectId) :
  (o1 < oid_bound)%N → (o2 < oid_bound)%N →
  oid_toString o1 = oid_toString o2 → o1 = o2.
Proof.
  intros H1 H2 Heq. apply oid_parse_toString in H1, H2.
  rewrite Heq in H1. congruence.
Qed.

Lemma insert_sorted_perm (spec : SortSpec) (d : FileDoc) (l : list FileDoc) :
  insert_sorted spec d l ≡ₚ d :: l.
Proof.
  induction l as [|x l IH]; simpl; [reflexivity|].
  destruct (sort_leb spec d x); [reflexivity|].
  rewrite IH. apply Permutation_swap.
Qed.

Lemma sort_docs_perm (spec : SortSpec) (l : list FileDoc) : sort_docs spec l ≡ₚ l.
Proof.
  induction l as [|x l IH]; simpl; [reflexivity|].
  rewrite insert_sorted_perm, IH. reflexivity.
Qed.

Lemma elem_of_List_filter {A} (p : A -> bool) (l : list A) (x : A) :
  x ∈ List.filter p l ↔ x ∈ l ∧ p x = true.
Proof. rewrite !list_elem_of_In. apply filter_In. Qed.

Lemma elem_of_apply_limit (n : Z) (l : list FileDoc) (d : FileDoc) :
  d ∈ apply_limit n l → d ∈ l.
Proof.
  unfold apply_limit. destruct (n =? 0); [auto|].
  apply subseteq_take.
Qed.

(** Whatever [find] returns was in the collection and satisfies the
    filter, and the bucket is as before. *)
Lemma find_sound (f : Filter) (sort : SortSpec) (skip limit : Z)
    (b b' : Bucket) (docs : list FileDoc) :
  find f sort skip limit b = (inr docs, b') →
  b' = b ∧ ∀ d, d ∈ docs → d ∈ fs_files b ∧ eval_filter f d = true.
Proof.
  unfold find, apply_skip. destruct (skip <? 0); [discriminate|].
  intros [= <- <-]. split; [reflexivity|]. intros d Hd.
  apply elem_of_apply_limit in Hd.
  apply subseteq_drop in Hd.
  rewrite sort_docs_perm in Hd. apply elem_of_List_filter in Hd. exact Hd.
Qed.

(** *** Validation precedes every write *)

(** C7: [uploadFile] validates before it writes, size first. A declared
    size above [maxFileSize] is rejected with a message that spells out the
    limit, whatever the mimetype; otherwise a mimetype outside a non-empty
    [acceptedTypes] is rejected; in both cases the bucket (files and
    chunks) is the one the call started from. *)
Theorem uploadFile_validates_before_write
    (file : File.t) (metadata : option Metadata) (now : Z) (b : Bucket) :
  (File.size file > maxFileSize environment →
   uploadFile (Some file) metadata now b =
     (inl (BadRequestException
        ("File size (" +:+ formatBytes (File.size file) +:+
         ") exceeds maximum allowed size (" +:+
         formatBytes (maxFileSize environment) +:+ ")")), b))
  ∧
  (File.size file ≤ maxFileSize environment →
   acceptedTypes environment ≠ [] →
   File.mimetype file ∉ acceptedTypes environment →
   uploadFile (Some file) metadata now b =
     (inl (BadRequestException
        ("File type " +:+ File.mimetype file +:+
         " is not allowed. Accepted types: " +:+
         join ", " (acceptedTypes environment))), b)).
Proof.
  split.
  - intros Hbig. unfold uploadFile, validateFile, mbind, M_bind.
    destruct (Z.gtb_spec (File.size file) (maxFileSize environment)); [reflexivity | lia].
  - intros Hsmall Hne Hnotin. unfold uploadFile, validateFile, mbind, M_bind.
    destruct (Z.gtb_spec (File.size file) (maxFileSize environment)); [lia|].
    destruct (acceptedTypes environment) as [|t ts] eqn:Hacc; [congruence|].
    assert (existsb (String.eqb (File.mimetype file)) (t :: ts) = false) as ->.
    { apply not_true_is_false. rewrite existsb_eqb_elem_of. exact Hnotin. }
    reflexivity.
Qed.

(** *** Reading never writes *)

Lemma find_no_skip (f : Filter) (sort : SortSpec) (limit : Z) (b : Bucket) :
  find f sort 0 limit b =
    (inr (apply_limit limit (sort_docs sort (List.filter (eval_filter f) (fs_files b)))), b).
Proof. reflexivity. Qed.

Lemma findOne_pure (oid : ObjectId) (b : Bucket) :
  ∃ r, findOne oid b = (inr r, b).
Proof.
  unfold findOne, mbind, M_bind. rewrite find_no_skip. simpl. eauto.
Qed.

Lemma cursor_filter_returns (cursor : string) (sort : Field * SortOrder)
    (filter : Filter) (b : Bucket) :
  ∃ filter', cursor_filter cursor sort filter b = (inr filter', b).
Proof.
  unfold cursor_filter, new_ObjectId.
  destruct (oid_parse cursor) as [oid|];
    cbv beta iota delta [try_catch mbind M_bind mret M_ret throw]; [|eauto].
  destruct (findOne_pure oid b) as [r ->]. eauto.
Qed.

(** *** The next cursor *)



(** *** The continuation filter under the last-update sort *)

(** C10: in cursor mode with sort key [updatedAt], when the cursor
    resolves to a document without [metadata.updatedAt], the continuation
    filter compares [metadata.updatedAt] against that document's
    [uploadDate]: strictly greater for ascending order, strictly less for
    descending, with the id as tie-break. *)
Theorem cursor_updatedAt_falls_back_to_uploadDate
    (params : Params.t) (cursor : string) (oid : ObjectId) (lastDoc : FileDoc)
    (b : Bucket) :
  Params.cursor params = Some cursor →
  cursor ≠ "" →
  Params.sortBy params = Some ByUpdatedAt →
  oid_parse cursor = Some oid →
  findOne oid b = (inr (Some lastDoc), b) →
  doc_metadata lastDoc ≫= (fun m => m !! "updatedAt") = None →
  let sortOrder := default Desc (Params.sortOrder params) in
  let op := cursor_op sortOrder in
  let v := VDate (doc_uploadDate lastDoc) in
  let filter :=
    set_or [[CCmp (F_metadata "updatedAt") op v];
            [CEq (F_metadata "updatedAt") v; CCmp F_id op (VObjectId (doc_id lastDoc))]]
      (base_filter (Params.q params) (Params.mimetype params)) in
  listFilesAdvanced params b =
    (docs ← find filter [(F_metadata "updatedAt", sortOrder); (F_id, sortOrder)] 0
              (default 50 (Params.limit params));
     mret (CursorList (map file_info docs)
             (next_cursor docs (default 50 (Params.limit params))))) b.
Proof.
  intros Hcur Hne Hsort Hparse Hfind Hmiss sortOrder op v filter.
  assert (cursor_filter cursor (sort_key ByUpdatedAt sortOrder)
            (base_filter (Params.q params) (Params.mimetype params)) b
          = (inr filter, b)) as Hcf.
  { unfold cursor_filter, new_ObjectId. rewrite Hparse.
    cbv beta iota delta [try_catch mbind M_bind mret M_ret]. rewrite Hfind.
    cbv beta iota. unfold continuation, sort_key. cbn [fst snd].
    assert (opt_get (doc_metadata lastDoc) "updatedAt" = VUndefined) as ->.
    { unfold opt_get. destruct (doc_metadata lastDoc) as [m|]; [|reflexivity].
      simpl in Hmiss. rewrite Hmiss. reflexivity. }
    reflexivity. }
  unfold listFilesAdvanced. rewrite Hcur, Hsort.
  change (default "" (Some cursor)) with cursor.
  change (default ByCreatedAt (Some ByUpdatedAt)) with ByUpdatedAt.
  fold sortOrder.
  assert (truthy_str (Some cursor) = true) as ->.
  { apply negb_true_iff, String.eqb_neq, Hne. }
  unfold mbind at 1. unfold M_bind at 1. rewrite Hcf. reflexivity.
Qed.

(** *** The reported mimetype *)

Ltac run_M :=
  cbv beta iota delta [try_catch mbind M_bind mret M_ret throw gets modify] in *.



Lemma elem_of_map_file_info (info : FileInfo.t) (docs : list FileDoc) :
  info ∈ map file_info docs → ∃ d, d ∈ docs ∧ info = file_info d.
Proof.
  rewrite list_elem_of_In, in_map_iff. intros [d [<- Hin]].
  exists d. split; [apply list_elem_of_In, Hin | reflexivity].
Qed.

Lemma findOne_sound (oid : ObjectId) (b b' : Bucket) (r : option FileDoc) :
  findOne oid b = (inr r, b') →
  b' = b ∧ ∀ d, r = Some d → d ∈ fs_files b ∧ doc_id d = oid.
Proof.
  unfold findOne. run_M.
  destruct (find (by_id oid) [] 0 1 b) as [[e|docs] b1] eqn:Hfind; [discriminate|].
  intros [= <- <-]. apply find_sound in Hfind as [-> Hdocs].
  split; [reflexivity|]. intros d Hd.
  destruct docs as [|d' ds]; [discriminate|]. simpl in Hd. injection Hd as ->.
  destruct (Hdocs d) as [Hin Hev]; [left|]. split; [exact Hin|].
  unfold eval_filter, by_id in Hev. simpl in Hev.
  rewrite !andb_true_r in Hev.
  change (bson_compare (Some (VObjectId (doc_id d))) (Some (VObjectId oid)))
    with (N.compare (doc_id d) oid) in Hev.
  destruct (N.compare_spec (doc_id d) oid); [assumption | discriminate..].
Qed.






(** *** Point lookups *)

Lemma sort_docs_nil (l : list FileDoc) : sort_docs [] l = l.
Proof. induction l as [|x l IH]; simpl; [reflexivity|]. rewrite IH. destruct l; reflexivity. Qed.

Lemma eval_by_id (oid : ObjectId) (d : FileDoc) :
  eval_filter (by_id oid) d = (doc_id d =? oid)%N.
Proof.
  unfold eval_filter, by_id. simpl. rewrite !andb_true_r.
  change (bson_compare (Some (VObjectId (doc_id d))) (Some (VObjectId oid)))
    with (N.compare (doc_id d) oid).
  destruct (N.eqb_spec (doc_id d) oid) as [->|Hne].
  - rewrite N.compare_refl. reflexivity.
  - destruct (N.compare_spec (doc_id d) oid); [contradiction | reflexivity..].
Qed.

Lemma filter_by_id (oid : ObjectId) (l : list FileDoc) :
  List.filter (eval_filter (by_id oid)) l = List.filter (fun d => (doc_id d =? oid)%N) l.
Proof. apply filter_ext. intros d. apply eval_by_id. Qed.

Lemma head_take_filter {A} (p : A -> bool) (l : list A) :
  head (take 1 (List.filter p l)) = List.find p l.
Proof.
  induction l as [|x l IH]; simpl; [reflexivity|].
  destruct (p x); [reflexivity | exact IH].
Qed.

Lemma findOne_eq (oid : ObjectId) (b : Bucket) :
  findOne oid b = (inr (List.find (fun d => (doc_id d =? oid)%N) (fs_files b)), b).
Proof.
  unfold findOne. unfold mbind, M_bind. rewrite find_no_skip.
  rewrite sort_docs_nil, filter_by_id. unfold mret, M_ret.
  change (apply_limit 1 ?l) with (take 1 l). rewrite head_take_filter. reflexivity.
Qed.

Lemma find_update_first (oid : ObjectId) (upd : FileDoc -> FileDoc) (l : list FileDoc) :
  (∀ d, doc_id (upd d) = doc_id d) →
  List.find (fun d => (doc_id d =? oid)%N) (update_first oid upd l) =
    upd <$> List.find (fun d => (doc_id d =? oid)%N) l.
Proof.
  intros Hid. induction l as [|x l IH]; simpl; [reflexivity|].
  destruct (N.eqb_spec (doc_id x) oid) as [Heq|Hne]; simpl.
  - rewrite Hid. rewrite <- Heq, N.eqb_refl. reflexivity.
  - destruct (N.eqb_spec (doc_id x) oid); [contradiction | exact IH].
Qed.

Lemma update_first_ids (oid : ObjectId) (upd : FileDoc -> FileDoc) (l : list FileDoc) :
  (∀ d, doc_id (upd d) = doc_id d) →
  map doc_id (update_first oid upd l) = map doc_id l.
Proof.
  intros Hid. induction l as [|x l IH]; simpl; [reflexivity|].
  destruct (doc_id x =? oid)%N; simpl; [rewrite Hid | rewrite IH]; reflexivity.
Qed.

Lemma update_first_lengths (oid : ObjectId) (upd : FileDoc -> FileDoc) (l : list FileDoc) :
  (∀ d, doc_length (upd d) = doc_length d) →
  map doc_length (update_first oid upd l) = map doc_length l.
Proof.
  intros Hid. induction l as [|x l IH]; simpl; [reflexivity|].
  destruct (doc_id x =? oid)%N; simpl; [rewrite Hid | rewrite IH]; reflexivity.
Qed.

Lemma update_first_other (oid : ObjectId) (upd : FileDoc -> FileDoc)
    (l : list FileDoc) (d : FileDoc) :
  d ∈ l → doc_id d ≠ oid → d ∈ update_first oid upd l.
Proof.
  intros Hin Hne. induction l as [|x l IH]; simpl; [inversion Hin|].
  apply elem_of_cons in Hin as [<-|Hin].
  - destruct (N.eqb_spec (doc_id d) oid); [contradiction | left].
  - destruct (doc_id x =? oid)%N; right; auto.
Qed.

(** *** Rename *)

(** What [renameFile] does once the id resolves. *)
Lemma renameFile_eq (fileId : string) (oid : ObjectId) (payload : Payload.t)
    (now : Z) (b : Bucket) (existing : FileDoc) :
  oid_parse fileId = Some oid →
  findOne oid b = (inr (Some existing), b) →
  renameFile fileId payload now b =
    (inr (file_info (rename_update payload existing now existing)),
     {| fs_files := update_first oid (rename_update payload existing now) (fs_files b);
        fs_chunks := fs_chunks b; next_id := next_id b |}) ∧
  findOne oid
     {| fs_files := update_first oid (rename_update payload existing now) (fs_files b);
        fs_chunks := fs_chunks b; next_id := next_id b |} =
    (inr (Some (rename_update payload existing now existing)),
     {| fs_files := update_first oid (rename_update payload existing now) (fs_files b);
        fs_chunks := fs_chunks b; next_id := next_id b |}).
Proof.
  intros Hparse Hfind.
  assert (List.find (fun d => (doc_id d =? oid)%N) (fs_files b) = Some existing) as Hex.
  { rewrite findOne_eq in Hfind. congruence. }
  assert (findOne oid
     {| fs_files := update_first oid (rename_update payload existing now) (fs_files b);
        fs_chunks := fs_chunks b; next_id := next_id b |} =
    (inr (Some (rename_update payload existing now existing)),
     {| fs_files := update_first oid (rename_update payload existing now) (fs_files b);
        fs_chunks := fs_chunks b; next_id := next_id b |})) as Hafter.
  { rewrite findOne_eq. cbn [fs_files].
    rewrite find_update_first by reflexivity. rewrite Hex. reflexivity. }
  split; [|exact Hafter].
  unfold renameFile, new_ObjectId. rewrite Hparse.
  unfold mbind at 1. unfold M_bind at 1. unfold mret at 1. unfold M_ret at 1.
  unfold mbind at 1. unfold M_bind at 1. rewrite Hfind.
  unfold mbind at 1. unfold M_bind at 1. unfold updateOne, modify.
  unfold mbind at 1. unfold M_bind at 1. rewrite Hafter. reflexivity.
Qed.




(** C6 (amended): once the id resolves, [renameFile] succeeds and leaves
    every record's id and size, and all chunk data, as they were; the
    renamed record carries [metadata.updatedAt] equal to the time of the
    call; its stored [metadata.hash] is unchanged provided the metadata
    patch does not itself carry a [hash] key; and its filename becomes the
    new name when a non-empty one was supplied and stays as it was
    otherwise. *)
Theorem renameFile_frame (fileId : string) (oid : ObjectId) (payload : Payload.t)
    (now : Z) (b : Bucket) (existing : FileDoc) :
  oid_parse fileId = Some oid →
  findOne oid b = (inr (Some existing), b) →
  ∃ info b' updated,
    renameFile fileId payload now b = (inr info, b') ∧
    findOne oid b' = (inr (Some updated), b') ∧
    info = file_info updated ∧
    doc_id updated = doc_id existing ∧
    doc_length updated = doc_length existing ∧
    map doc_id (fs_files b') = map doc_id (fs_files b) ∧
    map doc_length (fs_files b') = map doc_length (fs_files b) ∧
    fs_chunks b' = fs_chunks b ∧
    (∀ d, d ∈ fs_files b → doc_id d ≠ oid → d ∈ fs_files b') ∧
    opt_get (doc_metadata updated) "updatedAt" = VDate now ∧
    (Payload.metadata payload ≫= (fun patch => patch !! "hash") = None →
     opt_get (doc_metadata updated) "hash" = opt_get (doc_metadata existing) "hash") ∧
    doc_filename updated =
      match Payload.filename payload with
      | Some name => if (name =? "")%string then doc_filename existing else name
      | None => doc_filename existing
      end.
Proof.
  intros Hparse Hfind.
  destruct (renameFile_eq fileId oid payload now b existing Hparse Hfind) as [Heq Hafter].
  eexists _, _, _. split; [exact Heq|]. split; [exact Hafter|].
  split; [reflexivity|]. split; [reflexivity|]. split; [reflexivity|].
  cbn [fs_files fs_chunks].
  split; [apply update_first_ids; reflexivity|].
  split; [apply update_first_lengths; reflexivity|].
  split; [reflexivity|].
  split; [intros d Hd Hne; apply update_first_other; assumption|].
  split; [|split].
  - unfold rename_update, opt_get. cbn [doc_metadata].
    destruct (Payload.metadata payload); rewrite lookup_insert_eq; reflexivity.
  - intros Hnohash. unfold rename_update, opt_get. cbn [doc_metadata].
    destruct (Payload.metadata payload) as [patch|]; simpl in Hnohash.
    + rewrite lookup_insert_ne by discriminate.
      unfold merge_obj. rewrite lookup_union_r by exact Hnohash.
      unfold spread. destruct (doc_metadata existing); [reflexivity|].
      simpl. rewrite lookup_empty. reflexivity.
    + rewrite lookup_insert_ne by discriminate.
      unfold spread. destruct (doc_metadata existing); [reflexivity|].
      simpl. rewrite lookup_empty. reflexivity.
  - unfold rename_update. cbn [doc_filename]. unfold truthy_str.
    destruct (Payload.filename payload) as [name|]; [|reflexivity].
    destruct (name =? "")%string; reflexivity.
Qed.

(** *** Identifiers that do not parse *)

Lemma getFileInfo_unparsable (fileId : string) (b : Bucket) :
  oid_parse fileId = None → getFileInfo fileId b = (inl (not_found fileId), b).
Proof. intros H. unfold getFileInfo, new_ObjectId. rewrite H. reflexivity. Qed.

Lemma getFileStream_unparsable (fileId : string) (b : Bucket) :
  oid_parse fileId = None → getFileStream fileId b = (inl (not_found fileId), b).
Proof. intros H. unfold getFileStream, new_ObjectId. rewrite H. reflexivity. Qed.

Lemma deleteFile_unparsable (fileId : string) (b : Bucket) :
  oid_parse fileId = None → deleteFile fileId b = (inl (not_found fileId), b).
Proof. intros H. unfold deleteFile, new_ObjectId. rewrite H. reflexivity. Qed.

Lemma validateFile_accepts (file : File.t) (b : Bucket) :
  accepts file → validateFile file b = (inr tt, b).
Proof.
  intros [Hsize Htype]. unfold validateFile.
  destruct (Z.gtb_spec (File.size file) (maxFileSize environment)); [lia|].
  destruct Htype as [->|Hin]; [reflexivity|].
  apply existsb_eqb_elem_of in Hin. rewrite Hin, andb_false_r. reflexivity.
Qed.

Lemma validateFile_cases (file : File.t) (b : Bucket) :
  (accepts file ∧ validateFile file b = (inr tt, b)) ∨
  (∃ e, validateFile file b = (inl e, b)).
Proof.
  unfold validateFile, accepts.
  destruct (Z.gtb_spec (File.size file) (maxFileSize environment)); [right; eauto|].
  destruct (acceptedTypes environment) as [|t ts];
    [left; split; [split; [lia | left; reflexivity] | reflexivity]|].
  destruct (existsb (String.eqb (File.mimetype file)) (t :: ts)) eqn:Hex.
  - left. split; [|reflexivity]. split; [lia|]. right.
    apply existsb_eqb_elem_of, Hex.
  - right. eauto.
Qed.

(** C4: what each id-taking method does with an id string that does not
    parse.  Point lookup, download and delete turn the parse failure into
    [NotFound]; [renameFile], and [replaceFile] once the new file has
    passed validation, construct the [ObjectId] outside any [try] and let
    the parse error out as it is. *)
Theorem unparsable_id_outcomes (fileId : string) (b : Bucket) :
  oid_parse fileId = None →
  getFileInfo fileId b = (inl (not_found fileId), b) ∧
  getFileStream fileId b = (inl (not_found fileId), b) ∧
  deleteFile fileId b = (inl (not_found fileId), b) ∧
  (∀ payload now, renameFile fileId payload now b = (inl bson_error, b)) ∧
  (∀ file additionalMetadata now,
     accepts file →
     replaceFile fileId (Some file) additionalMetadata now b = (inl bson_error, b)).
Proof.
  intros H.
  split; [apply getFileInfo_unparsable, H|].
  split; [apply getFileStream_unparsable, H|].
  split; [apply deleteFile_unparsable, H|].
  split.
  - intros payload now. unfold renameFile, new_ObjectId. rewrite H. reflexivity.
  - intros file additionalMetadata now Hacc. unfold replaceFile.
    unfold mbind at 1. unfold M_bind at 1. rewrite (validateFile_accepts _ _ Hacc).
    unfold new_ObjectId. rewrite H. reflexivity.
Qed.

(** *** Upload *)

Lemma string_compare_refl (s : string) : String.compare s s = Eq.
Proof.
  pose proof (String.compare_antisym s s) as H.
  destruct (String.compare s s); [reflexivity | discriminate..].
Qed.

Lemma bson_compare_str_eq (x : option Value) (h : string) :
  bson_compare x (Some (VStr h)) = Eq ↔ x = Some (VStr h).
Proof.
  split.
  - destruct x as [[| | | |s| |]|]; try discriminate.
    unfold bson_compare. simpl. intros H. apply String.compare_eq_iff in H. congruence.
  - intros ->. unfold bson_compare. simpl. apply string_compare_refl.
Qed.

Lemma eval_dup_filter (h name : string) (d : FileDoc) :
  eval_filter (dup_filter h name) d = true ↔
  doc_metadata d ≫= (fun m => m !! "hash") = Some (VStr h) ∧ doc_filename d = name.
Proof.
  unfold eval_filter, dup_filter, eval_clause. cbn [f_fields f_or forallb eval_cond field_value].
  rewrite !andb_true_r, andb_true_iff.
  assert (∀ x v, (match bson_compare x (Some (VStr v)) with Eq => true | _ => false end) = true
                 ↔ x = Some (VStr v)) as Hc.
  { intros x v. rewrite <- bson_compare_str_eq.
    destruct (bson_compare x (Some (VStr v))); split; congruence. }
  rewrite !Hc. split; intros [H1 H2]; split; congruence.
Qed.

Lemma find_first (f : Filter) (b : Bucket) :
  find f [] 0 1 b = (inr (take 1 (List.filter (eval_filter f) (fs_files b))), b).
Proof. rewrite find_no_skip, sort_docs_nil. reflexivity. Qed.

(** The deduplication check found a record: nothing is written and the
    found record is reported. *)
Lemma uploadFile_dedup (file : File.t) (metadata : option Metadata) (now : Z)
    (b : Bucket) (dup : FileDoc) (rest : list FileDoc) :
  accepts file →
  find (dup_filter (sha256 (File.buffer file)) (File.originalname file)) [] 0 1 b
    = (inr (dup :: rest), b) →
  uploadFile (Some file) metadata now b =
    (inr {| FileUploadResult.id := oid_toString (doc_id dup);
            FileUploadResult.filename := doc_filename dup;
            FileUploadResult.size := doc_length dup;
            FileUploadResult.mimetype :=
              js_or (opt_get (doc_metadata dup) "mimetype")
                    (VStr "application/octet-stream");
            FileUploadResult.uploadDate := doc_uploadDate dup |}, b).
Proof.
  intros Hacc Hfind. unfold uploadFile.
  unfold mbind at 1. unfold M_bind at 1. rewrite (validateFile_accepts _ _ Hacc).
  unfold mbind at 1. unfold M_bind at 1. rewrite Hfind. reflexivity.
Qed.

(** The deduplication check found nothing: one files document and its
    chunk data are appended under the next identifier. *)
Lemma uploadFile_fresh (file : File.t) (metadata : option Metadata) (now : Z)
    (b : Bucket) :
  accepts file →
  find (dup_filter (sha256 (File.buffer file)) (File.originalname file)) [] 0 1 b
    = (inr [], b) →
  uploadFile (Some file) metadata now b =
    (inr {| FileUploadResult.id := oid_toString (next_id b);
            FileUploadResult.filename := File.originalname file;
            FileUploadResult.size := File.size file;
            FileUploadResult.mimetype := VStr (File.mimetype file);
            FileUploadResult.uploadDate := now |},
     {| fs_files := fs_files b ++
          [{| doc_id := next_id b; doc_filename := File.originalname file;
              doc_length := Z.of_nat (length (File.buffer file));
              doc_uploadDate := now;
              doc_metadata :=
                Some (upload_metadata file (sha256 (File.buffer file)) now metadata) |}];
        fs_chunks := fs_chunks b ++
          [{| files_id := next_id b; chunk_data := File.buffer file |}];
        next_id := N.succ (next_id b) |}).
Proof.
  intros Hacc Hfind. unfold uploadFile.
  unfold mbind at 1. unfold M_bind at 1. rewrite (validateFile_accepts _ _ Hacc).
  unfold mbind at 1. unfold M_bind at 1. rewrite Hfind. reflexivity.
Qed.

Lemma upload_metadata_hash (file : File.t) (h : string) (now : Z)
    (metadata : option Metadata) :
  upload_metadata file h now metadata !! "hash" =
    match metadata ≫= (fun m => m !! "hash") with
    | Some v => Some v
    | None => Some (VStr h)
    end.
Proof.
  unfold upload_metadata, merge_obj, spread.
  assert (∀ a b c d e f g : Value,
            (<["originalName" := a]> (<["mimetype" := b]> (<["size" := c]>
              (<["hash" := d]> (<["uploadedAt" := e]> (<["chatId" := f]>
                (<["userId" := g]> (∅ : Metadata))))))))
              !! "hash" = Some d) as Hbase.
  { intros. rewrite !lookup_insert_ne by discriminate. apply lookup_insert_eq. }
  destruct metadata as [m|].
  - change (Some m ≫= (fun m => m !! "hash")) with (m !! "hash").
    change (default ∅ (Some m)) with m.
    destruct (m !! "hash") as [v|] eqn:Hm.
    + apply lookup_union_Some_l, Hm.
    + rewrite lookup_union_r by exact Hm. apply Hbase.
  - change (default ∅ None) with (∅ : Metadata).
    rewrite lookup_union_r by apply lookup_empty. apply Hbase.
Qed.

(** X3: when the caller's metadata does not carry a [hash] key, uploading
    the same file again finds the record of the first upload: same id, and
    the bucket is left as it was. *)
Lemma uploadFile_twice (file : File.t) (metadata metadata' : option Metadata)
    (now now' : Z) (b b1 : Bucket) (r : FileUploadResult.t) :
  metadata ≫= (fun m => m !! "hash") = None →
  uploadFile (Some file) metadata now b = (inr r, b1) →
  ∃ r', uploadFile (Some file) metadata' now' b1 = (inr r', b1) ∧
        FileUploadResult.id r' = FileUploadResult.id r.
Proof.
  intros Hnohash Hup.
  assert (accepts file) as Hacc.
  { destruct (validateFile_cases file b) as [[Hacc _]|[e He]]; [exact Hacc|].
    exfalso. revert Hup. unfold uploadFile.
    unfold mbind at 1. unfold M_bind at 1. rewrite He. discriminate. }
  pose proof (find_first (dup_filter (sha256 (File.buffer file)) (File.originalname file)) b)
    as Hfind.
  destruct (List.filter _ (fs_files b)) as [|dup rest] eqn:Hflt.
  - rewrite (uploadFile_fresh file metadata now b Hacc Hfind) in Hup.
    injection Hup as <- <-.
    eexists. split; [|shelve].
    eapply uploadFile_dedup with (rest := []); [exact Hacc|].
    rewrite find_first. cbn [fs_files]. rewrite List.filter_app, Hflt.
    cbn [List.filter app].
    match goal with |- context [eval_filter ?f ?d] =>
      assert (eval_filter f d = true) as -> end; [|reflexivity].
    apply eval_dup_filter. cbn [doc_metadata doc_filename]. split; [|reflexivity].
    change (Some ?m ≫= (fun m => m !! "hash")) with (m !! "hash").
    rewrite upload_metadata_hash, Hnohash. reflexivity.
    Unshelve. reflexivity.
  - cbn [take] in Hfind.
    rewrite (uploadFile_dedup file metadata now b dup (take 0 rest) Hacc Hfind) in Hup.
    injection Hup as <- <-.
    eexists. split; [|shelve].
    apply (uploadFile_dedup file metadata' now' b dup (take 0 rest) Hacc Hfind).
    Unshelve. reflexivity.
Qed.

(** C1: the deduplication check compares the digest of the content with
    the stored [metadata.hash], and the stored value is whatever the
    caller's metadata says when that carries a [hash] key.  Uploading a
    file twice with such metadata (any [hash] other than the digest)
    misses the check the second time: a second files document and a
    second run of chunk data are written, under a second id. *)
Theorem caller_hash_defeats_dedup (file : File.t) (h : string) (now1 now2 : Z) :
  accepts file →
  sha256 (File.buffer file) ≠ h →
  ∃ b1 b2,
    uploadFile (Some file) (Some {[ "hash" := VStr h ]}) now1 empty_bucket =
      (inr {| FileUploadResult.id := id_1;
              FileUploadResult.filename := File.originalname file;
              FileUploadResult.size := File.size file;
              FileUploadResult.mimetype := VStr (File.mimetype file);
              FileUploadResult.uploadDate := now1 |}, b1) ∧
    uploadFile (Some file) (Some {[ "hash" := VStr h ]}) now2 b1 =
      (inr {| FileUploadResult.id := id_2;
              FileUploadResult.filename := File.originalname file;
              FileUploadResult.size := File.size file;
              FileUploadResult.mimetype := VStr (File.mimetype file);
              FileUploadResult.uploadDate := now2 |}, b2) ∧
    map doc_id (fs_files b1) = [1%N] ∧
    map doc_id (fs_files b2) = [1%N; 2%N] ∧
    map chunk_data (fs_chunks b2) = [File.buffer file; File.buffer file].
Proof.
  intros Hacc Hne.
  eexists _, _. split; [|split].
  - apply uploadFile_fresh; [exact Hacc|]. rewrite find_first. reflexivity.
  - rewrite (uploadFile_fresh file _ now2); [reflexivity | exact Hacc |].
    rewrite find_first. cbn [fs_files empty_bucket app List.filter].
    match goal with |- context [eval_filter ?f ?d] =>
      assert (eval_filter f d = false) as -> end; [|reflexivity].
    apply not_true_is_false. rewrite eval_dup_filter. intros [Hh _].
    cbn [doc_metadata] in Hh.
    change (Some ?m ≫= (fun m => m !! "hash")) with (m !! "hash") in Hh.
    rewrite upload_metadata_hash in Hh.
    change (Some {[ "hash" := VStr h ]} ≫= (fun m => m !! "hash"))
      with (({[ "hash" := VStr h ]} : Metadata) !! "hash") in Hh.
    rewrite lookup_singleton_eq in Hh. congruence.
  - repeat split; reflexivity.
Qed.

(** *** Well-formed buckets *)

(** An upload keeps the bucket well formed as long as identifiers are
    left. *)
Lemma uploadFile_well_formed (file : option File.t) (metadata : option Metadata)
    (now : Z) (b b' : Bucket) (r : Exception + FileUploadResult.t) :
  well_formed b →
  (N.succ (next_id b) < oid_bound)%N →
  uploadFile file metadata now b = (r, b') →
  well_formed b'.
Proof.
  intros Hwf Hroom Hup.
  destruct file as [file|]; [|injection Hup as _ <-; exact Hwf].
  destruct (validateFile_cases file b) as [[Hacc _]|[e He]].
  - pose proof (find_first (dup_filter (sha256 (File.buffer file)) (File.originalname file)) b)
      as Hfind.
    destruct (List.filter _ (fs_files b)) as [|dup rest].
    + rewrite (uploadFile_fresh file metadata now b Hacc Hfind) in Hup.
      injection Hup as _ <-. destruct Hwf as (Hnd & Hlt & _).
      unfold well_formed. cbn [fs_files next_id]. split; [|split; [|exact Hroom]].
      * rewrite map_app. cbn [map doc_id]. apply NoDup_app.
        split; [exact Hnd|]. split; [|apply NoDup_singleton].
        intros x Hx Hx'. apply list_elem_of_singleton in Hx'. subst x.
        apply list_elem_of_In, in_map_iff in Hx as [d [Hd Hin]].
        apply list_elem_of_In in Hin. specialize (Hlt d Hin). lia.
      * intros d Hd. apply elem_of_app in Hd as [Hd|Hd].
        -- specialize (Hlt d Hd). lia.
        -- apply list_elem_of_singleton in Hd. subst d. cbn [doc_id]. lia.
    + cbn [take] in Hfind.
      rewrite (uploadFile_dedup file metadata now b dup (take 0 rest) Hacc Hfind) in Hup.
      injection Hup as _ <-. exact Hwf.
  - revert Hup. unfold uploadFile.
    unfold mbind at 1. unfold M_bind at 1. rewrite He.
    intros [= _ <-]. exact Hwf.
Qed.

(** *** Replace *)

Lemma bucket_delete_found (oid : ObjectId) (b : Bucket) (existing : FileDoc) :
  findOne oid b = (inr (Some existing), b) →
  bucket_delete oid b =
    (inr tt,
     {| fs_files := remove_first oid (fs_files b);
        fs_chunks := List.filter (fun c => negb (files_id c =? oid)%N) (fs_chunks b);
        next_id := next_id b |}).
Proof.
  rewrite findOne_eq. intros [= Hfind]. unfold bucket_delete.
  assert (existsb (fun d => (doc_id d =? oid)%N) (fs_files b) = true) as ->; [|reflexivity].
  apply existsb_exists. apply find_some in Hfind. eauto.
Qed.

(** C2: [replaceFile] deletes the old record and then goes through
    [uploadFile], deduplication check included.  When another record
    already carries the new content under the new file's name, the check
    short-circuits: the id of that other, older record is returned, no
    record is written, and the [originalReplacedId] prepared for the
    upload is dropped; the bucket is the old one minus the replaced
    record. *)
Theorem replaceFile_dedup_hit (fileId : string) (oid : ObjectId)
    (existing dup : FileDoc) (rest : list FileDoc) (file : File.t)
    (additionalMetadata : option Metadata) (now : Z) (b : Bucket) :
  accepts file →
  oid_parse fileId = Some oid →
  findOne oid b = (inr (Some existing), b) →
  find (dup_filter (sha256 (File.buffer file)) (File.originalname file)) [] 0 1
       {| fs_files := remove_first oid (fs_files b);
          fs_chunks := List.filter (fun c => negb (files_id c =? oid)%N) (fs_chunks b);
          next_id := next_id b |}
    = (inr (dup :: rest),
       {| fs_files := remove_first oid (fs_files b);
          fs_chunks := List.filter (fun c => negb (files_id c =? oid)%N) (fs_chunks b);
          next_id := next_id b |}) →
  replaceFile fileId (Some file) additionalMetadata now b =
    (inr {| FileUploadResult.id := oid_toString (doc_id dup);
            FileUploadResult.filename := doc_filename dup;
            FileUploadResult.size := doc_length dup;
            FileUploadResult.mimetype :=
              js_or (opt_get (doc_metadata dup) "mimetype")
                    (VStr "application/octet-stream");
            FileUploadResult.uploadDate := doc_uploadDate dup |},
     {| fs_files := remove_first oid (fs_files b);
        fs_chunks := List.filter (fun c => negb (files_id c =? oid)%N) (fs_chunks b);
        next_id := next_id b |}) ∧
  dup ∈ fs_files b.
Proof.
  intros Hacc Hparse Hfind Hdup. split.
  - unfold replaceFile.
    unfold mbind at 1. unfold M_bind at 1. rewrite (validateFile_accepts _ _ Hacc).
    unfold new_ObjectId. rewrite Hparse.
    unfold mbind at 1. unfold M_bind at 1. unfold mret at 1. unfold M_ret at 1.
    unfold mbind at 1. unfold M_bind at 1. rewrite Hfind.
    unfold mbind at 1. unfold M_bind at 1. unfold try_catch.
    rewrite (bucket_delete_found _ _ _ Hfind).
    apply (uploadFile_dedup file _ now _ dup rest Hacc Hdup).
  - apply find_sound in Hdup as [_ Hd]. destruct (Hd dup) as [Hin _]; [left|].
    cbn [fs_files] in Hin. clear -Hin.
    induction (fs_files b) as [|x l IH]; [inversion Hin|].
    simpl in Hin. destruct (doc_id x =? oid)%N.
    + right. exact Hin.
    + apply elem_of_cons in Hin as [->|Hin]; [left | right; auto].
Qed.

Lemma remove_first_elem (oid : ObjectId) (l : list FileDoc) (d : FileDoc) :
  NoDup (map doc_id l) → d ∈ remove_first oid l → d ∈ l ∧ doc_id d ≠ oid.
Proof.
  induction l as [|x l IH]; cbn [remove_first map]; [intros _ H; inversion H|].
  intros Hnd Hin. apply NoDup_cons in Hnd as [Hx Hnd].
  destruct (N.eqb_spec (doc_id x) oid) as [Heq|Hne].
  - split; [right; exact Hin|]. intros Hd. apply Hx.
    rewrite Heq, <- Hd. apply list_elem_of_In, in_map, list_elem_of_In, Hin.
  - apply elem_of_cons in Hin as [->|Hin]; [split; [left | exact Hne]|].
    destruct (IH Hnd Hin) as [H1 H2]. split; [right; exact H1 | exact H2].
Qed.

(** An upload reports either a record that was already there or the
    identifier the engine issued for the new one. *)
Lemma uploadFile_id (file : File.t) (metadata : option Metadata) (now : Z)
    (b b' : Bucket) (r : FileUploadResult.t) :
  uploadFile (Some file) metadata now b = (inr r, b') →
  (∃ dup, dup ∈ fs_files b ∧ FileUploadResult.id r = oid_toString (doc_id dup) ∧ b' = b) ∨
  (FileUploadResult.id r = oid_toString (next_id b) ∧
   ∃ d, fs_files b' = fs_files b ++ [d] ∧ doc_id d = next_id b ∧
        doc_metadata d =
          Some (upload_metadata file (sha256 (File.buffer file)) now metadata)).
Proof.
  intros Hup.
  destruct (validateFile_cases file b) as [[Hacc _]|[e He]].
  - pose proof (find_first (dup_filter (sha256 (File.buffer file)) (File.originalname file)) b)
      as Hfind.
    destruct (List.filter _ (fs_files b)) as [|dup rest] eqn:Hflt.
    + rewrite (uploadFile_fresh file metadata now b Hacc Hfind) in Hup.
      injection Hup as <- <-. right. split; [reflexivity|].
      eexists. split; [reflexivity|]. split; reflexivity.
    + cbn [take] in Hfind.
      rewrite (uploadFile_dedup file metadata now b dup (take 0 rest) Hacc Hfind) in Hup.
      injection Hup as <- <-. left. exists dup. split; [|split; reflexivity].
      assert (dup ∈ List.filter
                (eval_filter (dup_filter (sha256 (File.buffer file)) (File.originalname file)))
                (fs_files b)) as Hin by (rewrite Hflt; left).
      apply elem_of_List_filter in Hin as [Hin _]. exact Hin.
  - exfalso. revert Hup. unfold uploadFile.
    unfold mbind at 1. unfold M_bind at 1. rewrite He. discriminate.
Qed.

(** What [replaceFile] does once the file is accepted and the id
    resolves: the old record and its chunks go, then [uploadFile] runs. *)
Lemma replaceFile_eq (fileId : string) (oid : ObjectId) (existing : FileDoc)
    (file : File.t) (additionalMetadata : option Metadata) (now : Z) (b : Bucket) :
  accepts file →
  oid_parse fileId = Some oid →
  findOne oid b = (inr (Some existing), b) →
  replaceFile fileId (Some file) additionalMetadata now b =
    uploadFile (Some file)
      (Some (replace_metadata existing additionalMetadata fileId now)) now
      {| fs_files := remove_first oid (fs_files b);
         fs_chunks := List.filter (fun c => negb (files_id c =? oid)%N) (fs_chunks b);
         next_id := next_id b |}.
Proof.
  intros Hacc Hparse Hfind. unfold replaceFile.
  unfold mbind at 1. unfold M_bind at 1. rewrite (validateFile_accepts _ _ Hacc).
  unfold new_ObjectId. rewrite Hparse.
  unfold mbind at 1. unfold M_bind at 1. unfold mret at 1. unfold M_ret at 1.
  unfold mbind at 1. unfold M_bind at 1. rewrite Hfind.
  unfold mbind at 1. unfold M_bind at 1. unfold try_catch.
  rewrite (bucket_delete_found _ _ _ Hfind). reflexivity.
Qed.

Lemma replaceFile_cases (fileId : string) (file : File.t)
    (additionalMetadata : option Metadata) (now : Z) (b b' : Bucket)
    (r : FileUploadResult.t) :
  replaceFile fileId (Some file) additionalMetadata now b = (inr r, b') →
  ∃ oid existing,
    accepts file ∧ oid_parse fileId = Some oid ∧
    findOne oid b = (inr (Some existing), b).
Proof.
  intros Hrep.
  destruct (validateFile_cases file b) as [[Hacc Hval]|[e He]].
  - destruct (oid_parse fileId) as [oid|] eqn:Hparse.
    + destruct (List.find (fun d => (doc_id d =? oid)%N) (fs_files b)) as [existing|] eqn:Hex.
      * exists oid, existing. rewrite findOne_eq, Hex. auto.
      * exfalso. revert Hrep. unfold replaceFile.
        unfold mbind at 1. unfold M_bind at 1. rewrite Hval.
        unfold new_ObjectId. rewrite Hparse.
        unfold mbind at 1. unfold M_bind at 1. unfold mret at 1. unfold M_ret at 1.
        unfold mbind at 1. unfold M_bind at 1. rewrite findOne_eq, Hex.
        discriminate.
    + exfalso. revert Hrep. unfold replaceFile.
      unfold mbind at 1. unfold M_bind at 1. rewrite Hval.
      unfold new_ObjectId. rewrite Hparse. discriminate.
  - exfalso. revert Hrep. unfold replaceFile.
    unfold mbind at 1. unfold M_bind at 1. rewrite He. discriminate.
Qed.

(** X13: in a well-formed bucket the id a replace returns is never the id
    it was given. *)
Lemma replaceFile_other_id (fileId : string) (file : File.t)
    (additionalMetadata : option Metadata) (now : Z) (b b' : Bucket)
    (r : FileUploadResult.t) :
  well_formed b →
  replaceFile fileId (Some file) additionalMetadata now b = (inr r, b') →
  FileUploadResult.id r ≠ fileId.
Proof.
  intros (Hnd & Hlt & Hbound) Hrep.
  destruct (replaceFile_cases _ _ _ _ _ _ _ Hrep) as (oid & existing & Hacc & Hparse & Hfind).
  rewrite (replaceFile_eq _ _ _ _ _ _ _ Hacc Hparse Hfind) in Hrep.
  apply findOne_sound in Hfind as [_ Hex]. destruct (Hex _ eq_refl) as [Hin Hid].
  pose proof (Hlt _ Hin) as Hold. rewrite Hid in Hold.
  intros Heq.
  apply uploadFile_id in Hrep as [(dup & Hdup & Hr & _)|(Hr & _)];
    cbn [fs_files next_id] in *.
  - apply (remove_first_elem _ _ _ Hnd) in Hdup as [Hdin Hdne].
    rewrite Hr in Heq. rewrite <- Heq in Hparse.
    rewrite oid_parse_toString in Hparse by (specialize (Hlt _ Hdin); lia).
    congruence.
  - rewrite Hr in Heq. rewrite <- Heq in Hparse.
    rewrite oid_parse_toString in Hparse by exact Hbound.
    injection Hparse as Hp. lia.
Qed.

(** When the deduplication check misses, the record a replace writes
    carries the back-reference. *)
Lemma replaceFile_fresh_backreference (fileId : string) (oid : ObjectId)
    (existing : FileDoc) (file : File.t) (additionalMetadata : option Metadata)
    (now : Z) (b : Bucket) :
  accepts file →
  oid_parse fileId = Some oid →
  findOne oid b = (inr (Some existing), b) →
  List.filter (eval_filter (dup_filter (sha256 (File.buffer file)) (File.originalname file)))
    (remove_first oid (fs_files b)) = [] →
  ∃ r b' d,
    replaceFile fileId (Some file) additionalMetadata now b = (inr r, b') ∧
    FileUploadResult.id r = oid_toString (next_id b) ∧
    fs_files b' = remove_first oid (fs_files b) ++ [d] ∧
    doc_id d = next_id b ∧
    opt_get (doc_metadata d) "originalReplacedId" = VStr fileId.
Proof.
  intros Hacc Hparse Hfind Hmiss.
  rewrite (replaceFile_eq _ _ _ _ _ _ _ Hacc Hparse Hfind).
  rewrite uploadFile_fresh; [|exact Hacc|rewrite find_first; cbn [fs_files]; rewrite Hmiss; reflexivity].
  eexists _, _, _. split; [reflexivity|]. split; [reflexivity|].
  split; [reflexivity|]. split; [reflexivity|].
  cbn [doc_metadata opt_get]. unfold upload_metadata, merge_obj, spread, replace_metadata.
  change (default ∅ (Some ?m)) with m.
  erewrite lookup_union_Some_l; [reflexivity|].
  rewrite lookup_insert_ne by discriminate. apply lookup_insert_eq.
Qed.

(** The record a replace writes is stored with the hash of the record it
    replaces, not with the digest of its own content: the old metadata,
    [hash] included, is handed to [uploadFile] as caller metadata. *)
Lemma replaceFile_stores_old_hash (fileId : string) (oid : ObjectId)
    (existing : FileDoc) (file : File.t) (additionalMetadata : option Metadata)
    (now : Z) (b : Bucket) (v : Value) :
  accepts file →
  oid_parse fileId = Some oid →
  findOne oid b = (inr (Some existing), b) →
  List.filter (eval_filter (dup_filter (sha256 (File.buffer file)) (File.originalname file)))
    (remove_first oid (fs_files b)) = [] →
  doc_metadata existing ≫= (fun m => m !! "hash") = Some v →
  additionalMetadata ≫= (fun m => m !! "hash") = None →
  ∃ r b' d,
    replaceFile fileId (Some file) additionalMetadata now b = (inr r, b') ∧
    fs_files b' = remove_first oid (fs_files b) ++ [d] ∧
    doc_id d = next_id b ∧
    doc_metadata d ≫= (fun m => m !! "hash") = Some v.
Proof.
  intros Hacc Hparse Hfind Hmiss Hold Hadd.
  rewrite (replaceFile_eq _ _ _ _ _ _ _ Hacc Hparse Hfind).
  rewrite uploadFile_fresh; [|exact Hacc|rewrite find_first; cbn [fs_files]; rewrite Hmiss; reflexivity].
  eexists _, _, _. split; [reflexivity|]. split; [reflexivity|]. split; [reflexivity|].
  cbn [doc_metadata].
  change (Some ?m ≫= (fun m => m !! "hash")) with (m !! "hash").
  rewrite upload_metadata_hash.
  change (Some ?m ≫= (fun m => m !! "hash")) with (m !! "hash").
  assert (replace_metadata existing additionalMetadata fileId now !! "hash" = Some v) as ->;
    [|reflexivity].
  unfold replace_metadata, merge_obj, spread.
  rewrite !lookup_insert_ne by discriminate.
  destruct (doc_metadata existing) as [m|]; [|discriminate].
  change (Some m ≫= (fun m => m !! "hash")) with (m !! "hash") in Hold.
  change (default ∅ (Some m)) with m.
  destruct additionalMetadata as [a|].
  - change (Some a ≫= (fun m => m !! "hash")) with (a !! "hash") in Hadd.
    change (default ∅ (Some a)) with a.
    rewrite lookup_union_r by exact Hadd. exact Hold.
  - change (default ∅ None) with (∅ : Metadata).
    rewrite lookup_union_r by apply lookup_empty. exact Hold.
Qed.

(** *** The text and mimetype filters *)

Lemma not_special_not_backslash (c : ascii) :
  is_special c = false → Ascii.eqb c "\"%char = false.
Proof.
  unfold is_special, regex_specials. cbn [existsb].
  rewrite !orb_false_iff. intros H. decompose [and] H. assumption.
Qed.

(** Escaping makes the pattern denote the input itself. *)
Lemma regex_literal_escape (s : string) : regex_literal (escapeRegex s) = Some s.
Proof.
  induction s as [|c s IH]; [reflexivity|].
  cbn [escapeRegex]. destruct (is_special c) eqn:Hc.
  - cbn [regex_literal]. rewrite Ascii.eqb_refl, Hc, IH. reflexivity.
  - cbn [regex_literal]. rewrite (not_special_not_backslash c Hc), Hc, IH. reflexivity.
Qed.

Lemma regex_test_escape (q s : string) :
  regex_test_i (escapeRegex q) s = contains_ci q s.
Proof. unfold regex_test_i. rewrite regex_literal_escape. reflexivity. Qed.

Lemma string_length_zero (s : string) :
  (0 <? String.length s)%nat = negb (s =? "")%string.
Proof. destruct s; reflexivity. Qed.

Lemma trim_blank_of_empty (s : string) :
  (s =? "")%string = true → (trim s =? "")%string = true.
Proof. intros H. apply String.eqb_eq in H. subst s. reflexivity. Qed.

Lemma eval_mimetype_cond (m : string) (d : FileDoc) :
  eval_cond d (CEq (F_metadata "mimetype") (VStr m)) = mimetype_is m d.
Proof.
  unfold eval_cond, mimetype_is.
  destruct (field_value d (F_metadata "mimetype")) as [[| | | |s| |]|]; try reflexivity.
  unfold bson_compare. cbn [bson_rank Z.compare Pos.compare Pos.compare_cont].
  destruct (String.eqb_spec s m) as [->|Hne].
  - rewrite string_compare_refl. reflexivity.
  - destruct (String.compare s m) eqn:Hc; try reflexivity.
    apply String.compare_eq_iff in Hc. contradiction.
Qed.

Lemma eval_set_field (c : Cond) (f : Filter) (d : FileDoc) :
  eval_filter (set_field c f) d = eval_filter f d && eval_cond d c.
Proof.
  unfold eval_filter, set_field, eval_clause. cbn [f_fields f_or].
  rewrite forallb_app. cbn [forallb].
  destruct (forallb (eval_cond d) (f_fields f)); destruct (eval_cond d c);
    destruct (f_or f) as [cs|]; cbn [andb]; try reflexivity;
    destruct (existsb _ cs); reflexivity.
Qed.

Lemma eval_text_filter (q : string) (d : FileDoc) :
  eval_filter
    (set_or [[CRegexI F_filename (escapeRegex q)];
             [CRegexI (F_metadata "originalName") (escapeRegex q)];
             [CRegexI (F_metadata "description") (escapeRegex q)]]
       empty_filter) d = text_match q d.
Proof.
  unfold eval_filter, set_or, empty_filter, eval_clause, text_match.
  cbn [f_fields f_or forallb existsb eval_cond].
  change (field_value d F_filename) with (Some (VStr (doc_filename d))).
  cbn iota beta. rewrite regex_test_escape.
  destruct (field_value d (F_metadata "originalName")) as [[| | | |s1| |]|];
  destruct (field_value d (F_metadata "description")) as [[| | | |s2| |]|];
  rewrite ?regex_test_escape;
  destruct (contains_ci q (doc_filename d)); cbn [andb orb];
  rewrite ?andb_true_r, ?orb_false_r; reflexivity.
Qed.

(** Before any cursor is looked at, the filter selects exactly the
    wanted records. *)
Lemma base_filter_text (q mimetype : option string) (d : FileDoc) :
  eval_filter (base_filter q mimetype) d = wanted q mimetype d.
Proof.
  unfold base_filter, wanted.
  set (f1 := match q with
             | Some q0 =>
                 if truthy_str (Some q0) && (0 <? String.length (trim q0))%nat
                 then set_or _ empty_filter else empty_filter
             | None => empty_filter
             end).
  assert (eval_filter f1 d =
          match q with
          | Some q0 => if (trim q0 =? "")%string then true else text_match (trim q0) d
          | None => true
          end) as Hf1.
  { subst f1. destruct q as [q0|]; [|reflexivity].
    unfold truthy_str. rewrite string_length_zero.
    destruct (q0 =? "")%string eqn:Hq.
    - rewrite (trim_blank_of_empty q0 Hq). reflexivity.
    - destruct (trim q0 =? "")%string; [reflexivity|]. apply eval_text_filter. }
  destruct mimetype as [m|].
  - unfold truthy_str. rewrite string_length_zero.
    destruct (m =? "")%string eqn:Hm.
    + rewrite (trim_blank_of_empty m Hm). cbn [negb andb].
      rewrite Hf1, andb_true_r. reflexivity.
    + destruct (trim m =? "")%string; cbn [negb andb].
      * rewrite Hf1, andb_true_r. reflexivity.
      * rewrite eval_set_field, Hf1, eval_mimetype_cond. reflexivity.
  - rewrite Hf1, andb_true_r. reflexivity.
Qed.

(** Page mode returns the wanted records, in sorted order, cut to the
    requested page. *)
Lemma page_mode_items (params : Params.t) (b : Bucket) :
  truthy_str (Params.cursor params) = false →
  0 ≤ default 50 (Params.limit params) →
  let limit := default 50 (Params.limit params) in
  let sortOrder := default Desc (Params.sortOrder params) in
  let pageNum :=
    match Params.page params with
    | Some page => if page >? 0 then page else 1
    | None => 1
    end in
  let matching :=
    List.filter (wanted (Params.q params) (Params.mimetype params)) (fs_files b) in
  listFilesAdvanced params b =
    (inr (PageList
            (map file_info
               (apply_limit limit
                  (drop (Z.to_nat ((pageNum - 1) * limit))
                     (sort_docs
                        [sort_key (default ByCreatedAt (Params.sortBy params)) sortOrder;
                         (F_id, sortOrder)] matching))))
            pageNum (Z.of_nat (length matching))), b).
Proof.
  intros Hcur Hlimit limit sortOrder pageNum matching.
  unfold listFilesAdvanced. rewrite Hcur.
  fold limit sortOrder pageNum.
  assert (0 < pageNum) as Hpage.
  { subst pageNum. destruct (Params.page params) as [p|]; [|lia].
    destruct (Z.gtb_spec p 0); lia. }
  unfold mbind at 1. unfold M_bind at 1. unfold find at 1. unfold apply_skip.
  destruct (Z.ltb_spec ((pageNum - 1) * limit) 0) as [Hneg|_]; [nia|].
  unfold mbind at 1. unfold M_bind at 1. unfold countDocuments, gets, mret, M_ret.
  rewrite (filter_ext _ _ (base_filter_text (Params.q params) (Params.mimetype params))).
  reflexivity.
Qed.

(** *** Cursor mode after the first request *)

Lemma base_filter_fields (q mimetype : option string) :
  f_fields (base_filter q mimetype) = f_fields (base_filter None mimetype).
Proof.
  unfold base_filter.
  destruct q as [q|]; [|reflexivity].
  destruct (truthy_str (Some q) && (0 <? String.length (trim q))%nat); [|reflexivity].
  destruct mimetype as [m|]; [|reflexivity].
  destruct (truthy_str (Some m) && (0 <? String.length (trim m))%nat); reflexivity.
Qed.

Lemma continuation_sort_key (sortBy : SortBy) (sortOrder : SortOrder) (lastDoc : FileDoc) :
  ∃ alternatives, continuation (sort_key sortBy sortOrder) lastDoc = Some alternatives.
Proof. destruct sortBy; unfold continuation, sort_key; cbn [fst snd]; eauto. Qed.

(** The filter of a request whose cursor resolves: the continuation is
    the whole [$or], whatever the text query was. *)
Lemma cursor_filter_resolved (cursor : string) (oid : ObjectId) (lastDoc : FileDoc)
    (sortBy : SortBy) (sortOrder : SortOrder) (filter : Filter) (b : Bucket)
    (alternatives : list Clause) :
  oid_parse cursor = Some oid →
  findOne oid b = (inr (Some lastDoc), b) →
  continuation (sort_key sortBy sortOrder) lastDoc = Some alternatives →
  cursor_filter cursor (sort_key sortBy sortOrder) filter b =
    (inr {| f_or := Some alternatives; f_fields := f_fields filter |}, b).
Proof.
  intros Hparse Hfind Hcont. unfold cursor_filter, new_ObjectId. rewrite Hparse.
  cbv beta iota delta [try_catch mbind M_bind mret M_ret]. rewrite Hfind.
  cbv beta iota. rewrite Hcont. reflexivity.
Qed.

(** Once the cursor resolves to a record, the answer does not depend on
    the text query. *)
Lemma cursor_mode_ignores_text_query (params : Params.t) (cursor : string)
    (oid : ObjectId) (lastDoc : FileDoc) (b : Bucket) :
  Params.cursor params = Some cursor →
  cursor ≠ "" →
  oid_parse cursor = Some oid →
  findOne oid b = (inr (Some lastDoc), b) →
  listFilesAdvanced params b = listFilesAdvanced (without_q params) b.
Proof.
  intros Hcur Hne Hparse Hfind.
  destruct (continuation_sort_key (default ByCreatedAt (Params.sortBy params))
              (default Desc (Params.sortOrder params)) lastDoc) as [alts Halts].
  unfold listFilesAdvanced, without_q.
  cbn [Params.q Params.mimetype Params.page Params.limit Params.sortBy
       Params.sortOrder Params.cursor].
  rewrite Hcur. change (default "" (Some cursor)) with cursor.
  assert (truthy_str (Some cursor) = true) as ->
    by (apply negb_true_iff, String.eqb_neq, Hne).
  unfold mbind at 1 3. unfold M_bind at 1 3.
  rewrite !(cursor_filter_resolved cursor oid lastDoc _ _ _ b alts Hparse Hfind Halts).
  rewrite base_filter_fields. reflexivity.
Qed.

Lemma eval_continuation_missing (op : CmpOp) (date : Z) (last_id : Value)
    (fields : Clause) (d : FileDoc) :
  field_value d (F_metadata "updatedAt") = None →
  eval_filter
    {| f_or := Some [[CCmp (F_metadata "updatedAt") op (VDate date)];
                     [CEq (F_metadata "updatedAt") (VDate date);
                      CCmp F_id op last_id]];
       f_fields := fields |} d = false.
Proof.
  intros Hmiss. unfold eval_filter, eval_clause.
  cbn [f_or f_fields existsb forallb eval_cond]. rewrite Hmiss.
  cbn [bson_rank bson_compare Z.eqb Z.compare Pos.compare Pos.compare_cont andb orb].
  apply andb_false_r.
Qed.

(** Sorted by last-update time over records that were never renamed, the
    request that follows a cursor is empty and ends the walk. *)
Lemma updatedAt_continuation_empty (params : Params.t) (cursor : string)
    (oid : ObjectId) (lastDoc : FileDoc) (b : Bucket) :
  (∀ d, d ∈ fs_files b → field_value d (F_metadata "updatedAt") = None) →
  Params.sortBy params = Some ByUpdatedAt →
  Params.cursor params = Some cursor →
  cursor ≠ "" →
  oid_parse cursor = Some oid →
  findOne oid b = (inr (Some lastDoc), b) →
  listFilesAdvanced params b = (inr (CursorList [] None), b).
Proof.
  intros Hall Hsort Hcur Hne Hparse Hfind.
  assert (lastDoc ∈ fs_files b) as Hlast.
  { apply findOne_sound in Hfind as [_ H]. apply (H _ eq_refl). }
  unfold listFilesAdvanced. rewrite Hcur, Hsort.
  change (default "" (Some cursor)) with cursor.
  change (default ByCreatedAt (Some ByUpdatedAt)) with ByUpdatedAt.
  assert (truthy_str (Some cursor) = true) as ->
    by (apply negb_true_iff, String.eqb_neq, Hne).
  unfold mbind at 1. unfold M_bind at 1.
  erewrite cursor_filter_resolved; [|exact Hparse|exact Hfind|reflexivity].
  assert (opt_get (doc_metadata lastDoc) "updatedAt" = VUndefined) as ->.
  { specialize (Hall _ Hlast). unfold field_value in Hall. unfold opt_get.
    destruct (doc_metadata lastDoc) as [m|]; [|reflexivity].
    change (Some m ≫= (fun m => m !! "updatedAt")) with (m !! "updatedAt") in Hall.
    rewrite Hall. reflexivity. }
  change (js_or VUndefined ?v) with v.
  unfold mbind at 1. unfold M_bind at 1. rewrite find_no_skip.
  match goal with |- context [List.filter ?p (fs_files b)] =>
    assert (List.filter p (fs_files b) = []) as -> end.
  { clear Hlast Hfind. induction (fs_files b) as [|x l IH]; [reflexivity|].
    cbn [List.filter]. rewrite eval_continuation_missing by (apply Hall; left).
    apply IH. intros d Hd. apply Hall. right. exact Hd. }
  cbn [sort_docs foldr].
  assert (apply_limit (default 50 (Params.limit params)) [] = []) as ->.
  { unfold apply_limit. destruct (_ =? 0); [reflexivity | apply take_nil]. }
  unfold next_cursor. cbn [map length last].
  destruct (Z.of_nat 0 =? default 50 (Params.limit params)); reflexivity.
Qed.

(** *** Reading methods *)

Lemma find_pure (f : Filter) (sort : SortSpec) (skip limit : Z)
    (b b' : Bucket) (r : Exception + list FileDoc) :
  find f sort skip limit b = (r, b') → b' = b.
Proof.
  unfold find. destruct (apply_skip _ _); intros [= _ <-]; reflexivity.
Qed.

Lemma getFileInfo_pure (fileId : string) (b b' : Bucket) (r : Exception + FileInfo.t) :
  getFileInfo fileId b = (r, b') → b' = b.
Proof.
  unfold getFileInfo, new_ObjectId.
  destruct (oid_parse fileId) as [oid|];
    cbv beta iota delta [try_catch mbind M_bind mret M_ret throw];
    [|intros [= _ <-]; reflexivity].
  destruct (find (by_id oid) [] 0 0 b) as [[e|docs] b1] eqn:Hfind;
    apply find_pure in Hfind; subst b1.
  - destruct e; intros [= _ <-]; reflexivity.
  - destruct docs; intros [= _ <-]; reflexivity.
Qed.

(** X1: the reading methods (point lookup, download, plain and advanced
    listing, count, by-chat lookup) hand the bucket back exactly as they
    found it, also when they fail. *)
Theorem readers_leave_bucket_unchanged (b : Bucket) :
  (∀ fileId r b', getFileInfo fileId b = (r, b') → b' = b) ∧
  (∀ fileId r b', getFileStream fileId b = (r, b') → b' = b) ∧
  (∀ limit skip r b', listFiles limit skip b = (r, b') → b' = b) ∧
  (∀ params r b', listFilesAdvanced params b = (r, b') → b' = b) ∧
  (∀ r b', getFileCount b = (r, b') → b' = b) ∧
  (∀ chatId r b', getFilesByChatId chatId b = (r, b') → b' = b).
Proof.
  split; [intros fileId r b'; apply getFileInfo_pure|].
  split.
  { intros fileId r b'. unfold getFileStream, new_ObjectId.
    destruct (oid_parse fileId) as [oid|];
      cbv beta iota delta [try_catch mbind M_bind mret M_ret throw download_stream gets];
      [|intros [= _ <-]; reflexivity].
    destruct (getFileInfo fileId b) as [[e|info] b1] eqn:Hinfo;
      apply getFileInfo_pure in Hinfo; subst b1; intros [= _ <-]; reflexivity. }
  split.
  { intros limit skip r b'. unfold listFiles.
    cbv beta iota delta [mbind M_bind mret M_ret].
    destruct (find _ _ _ _ b) as [[e|docs] b1] eqn:Hfind;
      apply find_pure in Hfind; subst b1; intros [= _ <-]; reflexivity. }
  split.
  { intros params r b'. unfold listFilesAdvanced.
    destruct (truthy_str (Params.cursor params)).
    - unfold mbind at 1. unfold M_bind at 1.
      destruct (cursor_filter_returns (default "" (Params.cursor params))
                  (sort_key (default ByCreatedAt (Params.sortBy params))
                            (default Desc (Params.sortOrder params)))
                  (base_filter (Params.q params) (Params.mimetype params)) b)
        as [filter' ->].
      cbv beta iota delta [mbind M_bind mret M_ret].
      destruct (find filter' _ _ _ b) as [[e|docs] b1] eqn:Hfind;
        apply find_pure in Hfind; subst b1; intros [= _ <-]; reflexivity.
    - cbv beta iota delta [mbind M_bind mret M_ret countDocuments gets].
      destruct (find _ _ _ _ b) as [[e|docs] b1] eqn:Hfind;
        apply find_pure in Hfind; subst b1; intros [= _ <-]; reflexivity. }
  split.
  { intros r b'. unfold getFileCount.
    cbv beta iota delta [mbind M_bind mret M_ret].
    destruct (find _ _ _ _ b) as [[e|docs] b1] eqn:Hfind;
      apply find_pure in Hfind; subst b1; intros [= _ <-]; reflexivity. }
  intros chatId r b'. unfold getFilesByChatId.
  cbv beta iota delta [mbind M_bind mret M_ret].
  destruct (find _ _ _ _ b) as [[e|docs] b1] eqn:Hfind;
    apply find_pure in Hfind; subst b1; intros [= _ <-]; reflexivity.
Qed.

Lemma head_filter_find {A} (p : A -> bool) (l : list A) :
  head (List.filter p l) = List.find p l.
Proof.
  induction l as [|x l IH]; [reflexivity|]. cbn [List.filter List.find].
  destruct (p x); [reflexivity | exact IH].
Qed.

Lemma find_by_id_all (oid : ObjectId) (b : Bucket) :
  find (by_id oid) [] 0 0 b =
    (inr (List.filter (fun d => (doc_id d =? oid)%N) (fs_files b)), b).
Proof. rewrite find_no_skip, sort_docs_nil, filter_by_id. reflexivity. Qed.

Lemma find_unique (l : list FileDoc) (d : FileDoc) :
  NoDup (map doc_id l) → d ∈ l →
  List.find (fun x => (doc_id x =? doc_id d)%N) l = Some d.
Proof.
  induction l as [|x l IH]; intros Hnd Hin; [inversion Hin|].
  cbn [map] in Hnd. apply NoDup_cons in Hnd as [Hx Hnd]. cbn [List.find].
  apply elem_of_cons in Hin as [->|Hin].
  - rewrite N.eqb_refl. reflexivity.
  - destruct (N.eqb_spec (doc_id x) (doc_id d)) as [Heq|_]; [|apply IH; assumption].
    exfalso. apply Hx. rewrite Heq.
    apply list_elem_of_In, in_map, list_elem_of_In, Hin.
Qed.

Lemma find_none_fresh (l : list FileDoc) (oid : ObjectId) :
  (∀ d, d ∈ l → (doc_id d < oid)%N) →
  List.filter (fun d => (doc_id d =? oid)%N) l = [].
Proof.
  induction l as [|x l IH]; intros Hlt; [reflexivity|]. cbn [List.filter].
  destruct (N.eqb_spec (doc_id x) oid) as [Heq|_].
  - specialize (Hlt x (list_elem_of_here _ _)). lia.
  - apply IH. intros d Hd. apply Hlt. right. exact Hd.
Qed.

(** A point lookup answers with the projection of the first record
    carrying the id when the id parses and such a record exists, and with
    [NotFound] naming the id in every other case; it knows no other
    outcome. *)
Lemma getFileInfo_outcomes (fileId : string) (b : Bucket) :
  getFileInfo fileId b =
    match oid_parse fileId ≫= (fun oid => lookup_doc oid b) with
    | Some d => (inr (file_info d), b)
    | None => (inl (not_found fileId), b)
    end.
Proof.
  unfold getFileInfo, new_ObjectId, lookup_doc.
  destruct (oid_parse fileId) as [oid|];
    cbv beta iota delta [try_catch mbind M_bind mret M_ret throw option_bind];
    [|reflexivity].
  rewrite find_by_id_all. rewrite <- head_filter_find.
  destruct (List.filter _ (fs_files b)); reflexivity.
Qed.

(** Downloading answers with the chunk data stored under the id
    together with the lookup's projection, and with [NotFound] whenever
    the lookup fails, whatever the lookup's own failure was. *)
Lemma getFileStream_outcomes (fileId : string) (b : Bucket) :
  getFileStream fileId b =
    match oid_parse fileId with
    | Some oid =>
        match lookup_doc oid b with
        | Some d =>
            (inr (concat (map chunk_data
                    (List.filter (fun c => (files_id c =? oid)%N) (fs_chunks b))),
                  file_info d), b)
        | None => (inl (not_found fileId), b)
        end
    | None => (inl (not_found fileId), b)
    end.
Proof.
  unfold getFileStream, new_ObjectId.
  destruct (oid_parse fileId) as [oid|] eqn:Hparse;
    cbv beta iota delta [try_catch mbind M_bind mret M_ret throw];
    [|reflexivity].
  rewrite getFileInfo_outcomes, Hparse.
  change (Some oid ≫= (fun oid => lookup_doc oid b)) with (lookup_doc oid b).
  destruct (lookup_doc oid b); reflexivity.
Qed.

(** *** Upload and read back *)

Lemma lookup_doc_app_fresh (l : list FileDoc) (d : FileDoc) (oid : ObjectId) :
  (∀ x, x ∈ l → (doc_id x < oid)%N) →
  doc_id d = oid →
  List.find (fun x => (doc_id x =? oid)%N) (l ++ [d]) = Some d.
Proof.
  intros Hlt Hd. rewrite <- head_filter_find, List.filter_app.
  rewrite (find_none_fresh _ _ Hlt). cbn [app List.filter].
  rewrite Hd, N.eqb_refl. reflexivity.
Qed.

(** X2: in a well-formed bucket, a file that the deduplication
    check does not find is stored so that it reads back: downloading under
    the returned id yields exactly the uploaded bytes, and the projection
    carries the returned id, the file's name, the byte length of the
    buffer as size (whatever size was declared) and the upload time. *)
Theorem fresh_upload_reads_back (file : File.t) (metadata : option Metadata)
    (now : Z) (b : Bucket) :
  well_formed b →
  chunks_issued b →
  accepts file →
  find (dup_filter (sha256 (File.buffer file)) (File.originalname file)) [] 0 1 b
    = (inr [], b) →
  ∃ r b1 info,
    uploadFile (Some file) metadata now b = (inr r, b1) ∧
    getFileStream (FileUploadResult.id r) b1 = (inr (File.buffer file, info), b1) ∧
    FileInfo.id info = FileUploadResult.id r ∧
    FileInfo.filename info = File.originalname file ∧
    FileInfo.size info = Z.of_nat (length (File.buffer file)) ∧
    FileInfo.uploadDate info = now.
Proof.
  intros (Hnd & Hlt & Hbound) Hchunks Hacc Hfind.
  eexists _, _, _. split; [apply (uploadFile_fresh _ _ _ _ Hacc Hfind)|].
  cbn [FileUploadResult.id].
  rewrite getFileStream_outcomes, (oid_parse_toString _ Hbound).
  unfold lookup_doc. cbn [fs_files fs_chunks].
  match goal with |- context [fs_files b ++ [?d]] =>
    rewrite (lookup_doc_app_fresh (fs_files b) d (next_id b) Hlt eq_refl) end.
  rewrite List.filter_app.
  assert (List.filter (fun c => (files_id c =? next_id b)%N) (fs_chunks b) = []) as ->.
  { clear -Hchunks. unfold chunks_issued in Hchunks.
    induction (fs_chunks b) as [|c l IH]; [reflexivity|]. cbn [List.filter].
    destruct (N.eqb_spec (files_id c) (next_id b)) as [Heq|_].
    - specialize (Hchunks c (list_elem_of_here _ _)). lia.
    - apply IH. intros x Hx. apply Hchunks. right. exact Hx. }
  cbn [app List.filter files_id]. rewrite N.eqb_refl.
  cbn [map concat chunk_data]. rewrite app_nil_r.
  split; [reflexivity|]. repeat split.
Qed.

Lemma find_first_nil (f : Filter) (b : Bucket) :
  List.filter (eval_filter f) (fs_files b) = [] → find f [] 0 1 b = (inr [], b).
Proof. intros H. rewrite find_first, H. reflexivity. Qed.

(** X4: an upload under one name never satisfies the deduplication
    check of an upload under another name, the same bytes included.  In a
    well-formed bucket that holds no record with the second file's
    content hash under the second file's name, after a first file was
    uploaded under a different name the second upload writes a new record
    with its name and returns an id different from the first upload's. *)
Theorem same_bytes_two_names (f1 f2 : File.t) (m1 m2 : option Metadata)
    (now1 now2 : Z) (b b1 : Bucket) (r1 : FileUploadResult.t) :
  well_formed b →
  (N.succ (next_id b) < oid_bound)%N →
  accepts f2 →
  File.originalname f1 ≠ File.originalname f2 →
  List.filter (eval_filter (dup_filter (sha256 (File.buffer f2)) (File.originalname f2)))
    (fs_files b) = [] →
  uploadFile (Some f1) m1 now1 b = (inr r1, b1) →
  ∃ r2 b2 d,
    uploadFile (Some f2) m2 now2 b1 = (inr r2, b2) ∧
    FileUploadResult.id r2 ≠ FileUploadResult.id r1 ∧
    fs_files b2 = fs_files b1 ++ [d] ∧
    doc_filename d = File.originalname f2 ∧
    oid_toString (doc_id d) = FileUploadResult.id r2.
Proof.
  intros (Hnd & Hlt & Hbound) Hroom Hacc2 Hnames Hmiss Hup1.
  assert (accepts f1) as Hacc1.
  { destruct (validateFile_cases f1 b) as [[Hacc _]|[e He]]; [exact Hacc|].
    exfalso. revert Hup1. unfold uploadFile.
    unfold mbind at 1. unfold M_bind at 1. rewrite He. discriminate. }
  pose proof (find_first (dup_filter (sha256 (File.buffer f1)) (File.originalname f1)) b)
    as Hfind1.
  destruct (List.filter
              (eval_filter (dup_filter (sha256 (File.buffer f1)) (File.originalname f1)))
              (fs_files b)) as [|dup rest] eqn:Hflt.
  - rewrite (uploadFile_fresh f1 m1 now1 b Hacc1 Hfind1) in Hup1.
    injection Hup1 as <- <-.
    eexists _, _, _. split.
    + apply uploadFile_fresh; [exact Hacc2|]. apply find_first_nil.
      cbn [fs_files]. rewrite List.filter_app, Hmiss. cbn [app List.filter].
      match goal with |- context [eval_filter ?f ?d] =>
        assert (eval_filter f d = false) as -> end; [|reflexivity].
      apply not_true_is_false. rewrite eval_dup_filter. intros [_ Hname].
      cbn [doc_filename] in Hname. contradiction.
    + cbn [FileUploadResult.id fs_files next_id doc_filename doc_id].
      split; [|repeat split].
      intros Heq. apply oid_toString_inj in Heq; [lia | exact Hroom | exact Hbound].
  - cbn [take] in Hfind1.
    rewrite (uploadFile_dedup f1 m1 now1 b dup (take 0 rest) Hacc1 Hfind1) in Hup1.
    injection Hup1 as <- <-.
    assert (dup ∈ fs_files b) as Hdup.
    { assert (dup ∈ List.filter
                (eval_filter (dup_filter (sha256 (File.buffer f1)) (File.originalname f1)))
                (fs_files b)) as Hin by (rewrite Hflt; left).
      apply elem_of_List_filter in Hin as [Hin _]. exact Hin. }
    eexists _, _, _. split; [apply uploadFile_fresh; [exact Hacc2|]; apply find_first_nil, Hmiss|].
    cbn [FileUploadResult.id fs_files next_id doc_filename doc_id].
    split; [|repeat split].
    intros Heq. specialize (Hlt _ Hdup).
    apply oid_toString_inj in Heq; [lia | exact Hbound | lia].
Qed.

(** *** Delete *)

Lemma remove_first_absent (oid : ObjectId) (l : list FileDoc) :
  List.find (fun d => (doc_id d =? oid)%N) l = None → remove_first oid l = l.
Proof.
  induction l as [|x l IH]; [reflexivity|]. cbn [List.find remove_first].
  destruct (doc_id x =? oid)%N; [discriminate|]. intros H. rewrite (IH H). reflexivity.
Qed.

Lemma remove_first_keeps (oid : ObjectId) (l : list FileDoc) (d : FileDoc) :
  d ∈ l → doc_id d ≠ oid → d ∈ remove_first oid l.
Proof.
  induction l as [|x l IH]; intros Hin Hne; [inversion Hin|]. cbn [remove_first].
  apply elem_of_cons in Hin as [<-|Hin].
  - destruct (N.eqb_spec (doc_id d) oid); [contradiction | left].
  - destruct (doc_id x =? oid)%N; [exact Hin | right; auto].
Qed.

Lemma find_remove_first (oid : ObjectId) (l : list FileDoc) :
  NoDup (map doc_id l) →
  List.find (fun d => (doc_id d =? oid)%N) (remove_first oid l) = None.
Proof.
  intros Hnd. destruct (List.find _ (remove_first oid l)) as [d|] eqn:Hfind; [|reflexivity].
  apply find_some in Hfind as [Hin Hid]. apply list_elem_of_In in Hin.
  apply (remove_first_elem _ _ _ Hnd) in Hin as [_ Hne].
  apply N.eqb_eq in Hid. contradiction.
Qed.

Lemma existsb_find {A} (p : A -> bool) (l : list A) :
  existsb p l = match List.find p l with Some _ => true | None => false end.
Proof.
  induction l as [|x l IH]; [reflexivity|]. cbn [existsb List.find].
  destruct (p x); [reflexivity | exact IH].
Qed.

Lemma filter_idem {A} (p : A -> bool) (l : list A) :
  List.filter p (List.filter p l) = List.filter p l.
Proof.
  induction l as [|x l IH]; [reflexivity|]. cbn [List.filter].
  destruct (p x) eqn:Hp; [|exact IH]. cbn [List.filter]. rewrite Hp, IH. reflexivity.
Qed.

(** What [deleteFile] does with an id that parses. *)
Lemma deleteFile_eq (fileId : string) (oid : ObjectId) (b : Bucket) :
  oid_parse fileId = Some oid →
  deleteFile fileId b =
    (match lookup_doc oid b with
     | Some _ => inr tt
     | None => inl (not_found fileId)
     end,
     {| fs_files := remove_first oid (fs_files b);
        fs_chunks := List.filter (fun c => negb (files_id c =? oid)%N) (fs_chunks b);
        next_id := next_id b |}).
Proof.
  intros Hparse. unfold deleteFile, new_ObjectId, lookup_doc. rewrite Hparse.
  cbv beta iota delta [try_catch mbind M_bind mret M_ret throw bucket_delete].
  rewrite existsb_find.
  destruct (List.find _ (fs_files b)); reflexivity.
Qed.

(** X7: in a well-formed bucket, deleting an id that resolves
    succeeds, removes exactly the records and the chunk data carrying that
    id, and leaves the id unresolvable: looking it up and deleting it again
    both fail with [NotFound], and the second delete changes nothing. *)
Theorem deleteFile_then_gone (fileId : string) (oid : ObjectId) (d : FileDoc)
    (b : Bucket) :
  well_formed b →
  oid_parse fileId = Some oid →
  lookup_doc oid b = Some d →
  ∃ b',
    deleteFile fileId b = (inr tt, b') ∧
    (∀ x, x ∈ fs_files b' ↔ x ∈ fs_files b ∧ doc_id x ≠ oid) ∧
    (∀ c, c ∈ fs_chunks b' ↔ c ∈ fs_chunks b ∧ files_id c ≠ oid) ∧
    getFileInfo fileId b' = (inl (not_found fileId), b') ∧
    deleteFile fileId b' = (inl (not_found fileId), b').
Proof.
  intros (Hnd & _ & _) Hparse Hfound.
  eexists. split; [rewrite (deleteFile_eq _ _ _ Hparse), Hfound; reflexivity|].
  cbn [fs_files fs_chunks].
  split; [|split; [|split]].
  - intros x. split.
    + apply remove_first_elem, Hnd.
    + intros [Hin Hne]. apply remove_first_keeps; assumption.
  - intros c. rewrite elem_of_List_filter, negb_true_iff, N.eqb_neq. reflexivity.
  - rewrite getFileInfo_outcomes, Hparse.
    change (Some oid ≫= ?f) with (f oid). unfold lookup_doc. cbn [fs_files].
    rewrite (find_remove_first _ _ Hnd). reflexivity.
  - rewrite (deleteFile_eq _ _ _ Hparse). unfold lookup_doc. cbn [fs_files fs_chunks next_id].
    rewrite (find_remove_first _ _ Hnd).
    rewrite (remove_first_absent _ _ (find_remove_first _ _ Hnd)), filter_idem.
    reflexivity.
Qed.

(** X8: deleting an id that parses but resolves to no
    record fails with [NotFound] and leaves every record in place. *)
Theorem deleteFile_missing (fileId : string) (oid : ObjectId) (b : Bucket) :
  oid_parse fileId = Some oid →
  lookup_doc oid b = None →
  ∃ b', deleteFile fileId b = (inl (not_found fileId), b') ∧
        fs_files b' = fs_files b ∧ next_id b' = next_id b.
Proof.
  intros Hparse Hnone. eexists.
  split; [rewrite (deleteFile_eq _ _ _ Hparse), Hnone; reflexivity|].
  cbn [fs_files next_id]. split; [|reflexivity].
  apply remove_first_absent, Hnone.
Qed.

(** *** Rename, continued *)

(** X9: once the id resolves, the metadata stored by a rename
    is the old metadata overlaid with the patch: for every key other than
    [updatedAt] the record afterwards holds the patch's value when the
    patch has the key, and the value it held before otherwise.  What the
    rename returns is what a lookup of the same id returns afterwards. *)
Theorem renameFile_merges_patch (fileId : string) (oid : ObjectId)
    (payload : Payload.t) (now : Z) (b : Bucket) (existing : FileDoc) :
  oid_parse fileId = Some oid →
  findOne oid b = (inr (Some existing), b) →
  ∃ info b' updated,
    renameFile fileId payload now b = (inr info, b') ∧
    lookup_doc oid b' = Some updated ∧
    getFileInfo fileId b' = (inr info, b') ∧
    ∀ key, key ≠ "updatedAt" →
      stored updated key =
        match Payload.metadata payload ≫= (fun patch => patch !! key) with
        | Some v => Some v
        | None => stored existing key
        end.
Proof.
  intros Hparse Hfind.
  destruct (renameFile_eq fileId oid payload now b existing Hparse Hfind) as [Heq Hafter].
  rewrite findOne_eq in Hafter. injection Hafter as Hafter.
  eexists _, _, _. split; [exact Heq|].
  split; [exact Hafter|]. split.
  - rewrite getFileInfo_outcomes, Hparse.
    change (Some oid ≫= ?f) with (f oid). cbv beta.
    unfold lookup_doc. cbn [fs_files] in *. rewrite Hafter. reflexivity.
  - intros key Hkey. unfold stored, rename_update. cbn [doc_metadata].
    change (Some ?m ≫= (fun m => m !! key)) with (m !! key).
    destruct (Payload.metadata payload) as [patch|].
    + change (Some patch ≫= (fun p => p !! key)) with (patch !! key).
      rewrite lookup_insert_ne by congruence. unfold merge_obj.
      destruct (patch !! key) as [v|] eqn:Hp.
      * apply lookup_union_Some_l, Hp.
      * rewrite lookup_union_r by exact Hp. unfold spread.
        destruct (doc_metadata existing) as [m|]; [reflexivity|].
        apply lookup_empty.
    + change (None ≫= (fun p : Metadata => p !! key)) with (@None Value).
      rewrite lookup_insert_ne by congruence. unfold spread.
      destruct (doc_metadata existing) as [m|]; [reflexivity|].
      apply lookup_empty.
Qed.

(** X10: renaming an id that parses but resolves to no
    record fails with [NotFound] and writes nothing. *)
Theorem renameFile_missing (fileId : string) (oid : ObjectId)
    (payload : Payload.t) (now : Z) (b : Bucket) :
  oid_parse fileId = Some oid →
  lookup_doc oid b = None →
  renameFile fileId payload now b = (inl (not_found fileId), b).
Proof.
  intros Hparse Hnone. unfold renameFile, new_ObjectId. rewrite Hparse.
  unfold mbind at 1. unfold M_bind at 1. unfold mret at 1. unfold M_ret at 1.
  unfold mbind at 1. unfold M_bind at 1. rewrite findOne_eq.
  unfold lookup_doc in Hnone. rewrite Hnone. reflexivity.
Qed.

(** *** Replace, continued *)

Lemma validateFile_rejects (file : File.t) (b : Bucket) :
  ¬ accepts file → ∃ msg, validateFile file b = (inl (BadRequestException msg), b).
Proof.
  intros Hrej. unfold validateFile.
  destruct (Z.gtb_spec (File.size file) (maxFileSize environment)); [eauto|].
  destruct (acceptedTypes environment) as [|t ts] eqn:Hacc.
  - exfalso. apply Hrej. split; [lia|]. left. exact Hacc.
  - destruct (existsb (String.eqb (File.mimetype file)) (t :: ts)) eqn:Hex.
    + exfalso. apply Hrej. split; [lia|]. right. rewrite Hacc.
      apply existsb_eqb_elem_of, Hex.
    + cbn [length Nat.ltb Nat.leb negb andb]. eauto.
Qed.

(** X11: a replace that fails has deleted nothing.  Without
    a file, with a file that validation rejects (whatever the id), and with
    an accepted file but an id that resolves to no record, the bucket is
    handed back unchanged; the first two fail with [BadRequest], the last
    with [NotFound]. *)
Theorem replaceFile_fails_without_deleting (fileId : string)
    (additionalMetadata : option Metadata) (now : Z) (b : Bucket) :
  replaceFile fileId None additionalMetadata now b =
    (inl (BadRequestException "No file provided"), b) ∧
  (∀ file, ¬ accepts file →
     ∃ msg, replaceFile fileId (Some file) additionalMetadata now b =
              (inl (BadRequestException msg), b)) ∧
  (∀ file oid, accepts file → oid_parse fileId = Some oid → lookup_doc oid b = None →
     replaceFile fileId (Some file) additionalMetadata now b =
       (inl (not_found fileId), b)).
Proof.
  split; [reflexivity|]. split.
  - intros file Hrej. destruct (validateFile_rejects file b Hrej) as [msg Hmsg].
    exists msg. unfold replaceFile.
    unfold mbind at 1. unfold M_bind at 1. rewrite Hmsg. reflexivity.
  - intros file oid Hacc Hparse Hnone. unfold replaceFile.
    unfold mbind at 1. unfold M_bind at 1. rewrite (validateFile_accepts _ _ Hacc).
    unfold new_ObjectId. rewrite Hparse.
    unfold mbind at 1. unfold M_bind at 1. unfold mret at 1. unfold M_ret at 1.
    unfold mbind at 1. unfold M_bind at 1. rewrite findOne_eq.
    unfold lookup_doc in Hnone. rewrite Hnone. reflexivity.
Qed.

Lemma find_app_last {A} (p : A -> bool) (l : list A) (x : A) :
  List.find p l = None → p x = false → List.find p (l ++ [x]) = None.
Proof.
  induction l as [|y l IH]; cbn [app List.find]; intros Hl Hx.
  - rewrite Hx. reflexivity.
  - destruct (p y); [discriminate | apply IH; assumption].
Qed.

(** X12: in a well-formed bucket, after a successful
    replace the id that was given resolves to nothing any more. *)
Theorem replaceFile_retires_old_id (fileId : string) (file : File.t)
    (additionalMetadata : option Metadata) (now : Z) (b b' : Bucket)
    (r : FileUploadResult.t) :
  well_formed b →
  replaceFile fileId (Some file) additionalMetadata now b = (inr r, b') →
  getFileInfo fileId b' = (inl (not_found fileId), b').
Proof.
  intros (Hnd & Hlt & Hbound) Hrep.
  destruct (replaceFile_cases _ _ _ _ _ _ _ Hrep) as (oid & existing & Hacc & Hparse & Hfind).
  rewrite (replaceFile_eq _ _ _ _ _ _ _ Hacc Hparse Hfind) in Hrep.
  apply findOne_sound in Hfind as [_ Hex]. destruct (Hex _ eq_refl) as [Hin Hid].
  pose proof (Hlt _ Hin) as Hold. rewrite Hid in Hold.
  rewrite getFileInfo_outcomes, Hparse.
  change (Some oid ≫= ?f) with (f oid). cbv beta. unfold lookup_doc.
  apply uploadFile_id in Hrep as [(dup & _ & _ & ->)|(_ & d & -> & Hd & _)];
    cbn [fs_files next_id] in *.
  - rewrite (find_remove_first _ _ Hnd). reflexivity.
  - rewrite find_app_last; [reflexivity | apply find_remove_first, Hnd |].
    apply N.eqb_neq. lia.
Qed.

(** X14: when the deduplication check misses, the record
    a replace writes keeps every metadata value of the replaced record that
    the caller's overrides do not touch ([originalReplacedId] and
    [updatedAt] apart), the upload's own [originalName], [mimetype], [size]
    and [hash] included: those keys describe the new content only when the
    old record did not have them. *)
Theorem replaceFile_inherits_metadata (fileId : string) (oid : ObjectId)
    (existing : FileDoc) (file : File.t) (additionalMetadata : option Metadata)
    (now : Z) (b : Bucket) (key : string) (v : Value) :
  accepts file →
  oid_parse fileId = Some oid →
  findOne oid b = (inr (Some existing), b) →
  List.filter (eval_filter (dup_filter (sha256 (File.buffer file)) (File.originalname file)))
    (remove_first oid (fs_files b)) = [] →
  key ≠ "originalReplacedId" →
  key ≠ "updatedAt" →
  stored existing key = Some v →
  additionalMetadata ≫= (fun m => m !! key) = None →
  ∃ r b' d,
    replaceFile fileId (Some file) additionalMetadata now b = (inr r, b') ∧
    fs_files b' = remove_first oid (fs_files b) ++ [d] ∧
    oid_toString (doc_id d) = FileUploadResult.id r ∧
    stored d key = Some v.
Proof.
  intros Hacc Hparse Hfind Hmiss Hk1 Hk2 Hold Hadd.
  rewrite (replaceFile_eq _ _ _ _ _ _ _ Hacc Hparse Hfind).
  rewrite uploadFile_fresh; [|exact Hacc|apply find_first_nil; exact Hmiss].
  eexists _, _, _. split; [reflexivity|]. split; [reflexivity|]. split; [reflexivity|].
  unfold stored in *. cbn [doc_metadata].
  change (Some ?m ≫= (fun m => m !! key)) with (m !! key).
  unfold upload_metadata, merge_obj.
  change (spread (Some ?m)) with m.
  apply lookup_union_Some_l. unfold replace_metadata, merge_obj, spread.
  rewrite !lookup_insert_ne by congruence.
  destruct (doc_metadata existing) as [m|]; [|discriminate].
  change (Some m ≫= (fun m => m !! key)) with (m !! key) in Hold.
  change (default ∅ (Some m)) with m.
  destruct additionalMetadata as [a|].
  - change (Some a ≫= (fun m => m !! key)) with (a !! key) in Hadd.
    change (default ∅ (Some a)) with a.
    rewrite lookup_union_r by exact Hadd. exact Hold.
  - change (default ∅ None) with (∅ : Metadata).
    rewrite lookup_union_r by apply lookup_empty. exact Hold.
Qed.

(** *** Batches *)

Lemma uploadFile_accepted (file : File.t) (metadata : option Metadata) (now : Z)
    (b : Bucket) :
  accepts file →
  ∃ r b1, uploadFile (Some file) metadata now b = (inr r, b1) ∧
          FileUploadResult.filename r = File.originalname file.
Proof.
  intros Hacc.
  pose proof (find_first (dup_filter (sha256 (File.buffer file)) (File.originalname file)) b)
    as Hfind.
  destruct (List.filter
              (eval_filter (dup_filter (sha256 (File.buffer file)) (File.originalname file)))
              (fs_files b)) as [|dup rest] eqn:Hflt.
  - eexists _, _. split; [apply (uploadFile_fresh _ _ _ _ Hacc Hfind)|reflexivity].
  - cbn [take] in Hfind. eexists _, _.
    split; [apply (uploadFile_dedup _ _ _ _ _ _ Hacc Hfind)|].
    cbn [FileUploadResult.filename].
    assert (dup ∈ List.filter
              (eval_filter (dup_filter (sha256 (File.buffer file)) (File.originalname file)))
              (fs_files b)) as Hin by (rewrite Hflt; left).
    apply elem_of_List_filter in Hin as [_ Hev].
    apply eval_dup_filter in Hev as [_ Hname]. exact Hname.
Qed.

(** X5: a batch of accepted files succeeds with one result per
    file, in the order of the files, each carrying the name of its file,
    whether the file was written or found by the deduplication check. *)
Theorem uploadFiles_one_result_per_file (files : list File.t)
    (metadata : option Metadata) (now : Z) (b : Bucket) :
  Forall accepts files →
  ∃ results b',
    uploadFiles files metadata now b = (inr results, b') ∧
    map FileUploadResult.filename results = map File.originalname files.
Proof.
  intros Hall. revert b. induction Hall as [|file rest Hacc _ IH]; intros b.
  - eexists _, _. split; reflexivity.
  - destruct (uploadFile_accepted file metadata now b Hacc) as (r & b1 & Hup & Hname).
    destruct (IH b1) as (rs & b2 & Hrest & Hnames).
    exists (r :: rs), b2. split.
    + cbn [uploadFiles]. unfold mbind at 1. unfold M_bind at 1. rewrite Hup.
      unfold mbind at 1. unfold M_bind at 1. rewrite Hrest. reflexivity.
    + cbn [map]. rewrite Hname, Hnames. reflexivity.
Qed.

(** X6: a batch is not undone when one of its files is
    rejected.  When the files before the rejected one are all accepted,
    the batch fails with that file's [BadRequest], the bucket is the one
    the accepted files before it left behind, and the files after it are
    never looked at. *)
Theorem uploadFiles_stops_at_rejected (before after : list File.t) (bad : File.t)
    (metadata : option Metadata) (now : Z) (b : Bucket) :
  Forall accepts before →
  ¬ accepts bad →
  ∃ results b1 msg,
    uploadFiles before metadata now b = (inr results, b1) ∧
    uploadFiles (before ++ bad :: after) metadata now b =
      (inl (BadRequestException msg), b1).
Proof.
  intros Hall Hbad. revert b. induction Hall as [|file rest Hacc _ IH]; intros b.
  - destruct (validateFile_rejects bad b Hbad) as [msg Hmsg].
    exists [], b, msg. split; [reflexivity|].
    cbn [app uploadFiles]. unfold mbind at 1. unfold M_bind at 1.
    unfold uploadFile. unfold mbind at 1. unfold M_bind at 1. rewrite Hmsg.
    reflexivity.
  - destruct (uploadFile_accepted file metadata now b Hacc) as (r & b1 & Hup & _).
    destruct (IH b1) as (rs & b2 & msg & Hrest & Hfail).
    exists (r :: rs), b2, msg. split.
    + cbn [uploadFiles]. unfold mbind at 1. unfold M_bind at 1. rewrite Hup.
      unfold mbind at 1. unfold M_bind at 1. rewrite Hrest. reflexivity.
    + cbn [app uploadFiles]. unfold mbind at 1. unfold M_bind at 1. rewrite Hup.
      unfold mbind at 1. unfold M_bind at 1. rewrite Hfail. reflexivity.
Qed.

(** *** Lookup by chat *)

Lemma apply_limit_zero (l : list FileDoc) : apply_limit 0 l = l.
Proof. reflexivity. Qed.

Lemma eval_chat_filter (chatId : string) (d : FileDoc) :
  eval_filter {| f_or := None; f_fields := [CEq (F_metadata "chatId") (VStr chatId)] |} d
    = true ↔ stored d "chatId" = Some (VStr chatId).
Proof.
  unfold eval_filter, eval_clause, stored.
  cbn [f_fields f_or forallb eval_cond field_value]. rewrite !andb_true_r.
  rewrite <- bson_compare_str_eq.
  destruct (bson_compare _ _); split; congruence.
Qed.

(** X19: without text query and mimetype filter, the total a
    page-mode listing reports is the number [getFileCount] answers with,
    whatever the page, the limit (as long as it is not negative) and the
    sort. *)
Theorem page_total_is_file_count (params : Params.t) (b : Bucket) :
  truthy_str (Params.cursor params) = false →
  Params.q params = None →
  Params.mimetype params = None →
  0 ≤ default 50 (Params.limit params) →
  ∃ items page total,
    listFilesAdvanced params b = (inr (PageList items page total), b) ∧
    getFileCount b = (inr total, b) ∧
    total = Z.of_nat (length (fs_files b)).
Proof.
  intros Hcur Hq Hm Hlimit.
  pose proof (page_mode_items params b Hcur Hlimit) as Hpage. cbv zeta in Hpage.
  rewrite Hq, Hm in Hpage.
  assert (List.filter (wanted None None) (fs_files b) = fs_files b) as Hall.
  { clear. induction (fs_files b) as [|x l IH]; [reflexivity|].
    cbn [List.filter wanted andb]. rewrite IH. reflexivity. }
  rewrite Hall in Hpage.
  eexists _, _, _. split; [exact Hpage|]. split; [|reflexivity].
  unfold getFileCount. unfold mbind, M_bind. rewrite find_no_skip, apply_limit_zero.
  rewrite sort_docs_nil.
  assert (List.filter (eval_filter empty_filter) (fs_files b) = fs_files b) as ->.
  { clear. induction (fs_files b) as [|x l IH]; [reflexivity|].
    cbn [List.filter eval_filter eval_clause empty_filter f_fields f_or forallb andb].
    rewrite IH. reflexivity. }
  reflexivity.
Qed.

(** *** What every write preserves *)

Lemma filter_chunks_ids (oid : ObjectId) (l : list FileDoc) (cs : list Chunk) :
  map files_id cs = map doc_id l →
  map files_id (List.filter (fun c => negb (files_id c =? oid)%N) cs) =
  map doc_id (List.filter (fun d => negb (doc_id d =? oid)%N) l).
Proof.
  revert cs. induction l as [|x l IH]; intros [|c cs] Heq; try discriminate; [reflexivity|].
  cbn [map] in Heq. injection Heq as Hc Hrest. cbn [List.filter]. rewrite Hc.
  destruct (negb (doc_id x =? oid)%N); cbn [map]; rewrite ?Hc, (IH cs Hrest); reflexivity.
Qed.

Lemma filter_all {A} (p : A -> bool) (l : list A) :
  (∀ x, x ∈ l → p x = true) → List.filter p l = l.
Proof.
  induction l as [|x l IH]; intros Hall; [reflexivity|]. cbn [List.filter].
  rewrite (Hall x (list_elem_of_here _ _)), IH; [reflexivity|].
  intros y Hy. apply Hall. right. exact Hy.
Qed.

Lemma remove_first_filter (oid : ObjectId) (l : list FileDoc) :
  NoDup (map doc_id l) →
  remove_first oid l = List.filter (fun d => negb (doc_id d =? oid)%N) l.
Proof.
  induction l as [|x l IH]; intros Hnd; [reflexivity|].
  cbn [map] in Hnd. apply NoDup_cons in Hnd as [Hx Hnd]. cbn [remove_first List.filter].
  destruct (N.eqb_spec (doc_id x) oid) as [Heq|Hne]; cbn [negb].
  - symmetry. apply filter_all. intros y Hy. apply negb_true_iff, N.eqb_neq.
    intros Hyo. apply Hx. rewrite Heq, <- Hyo.
    apply list_elem_of_In, in_map, list_elem_of_In, Hy.
  - rewrite (IH Hnd). reflexivity.
Qed.

Lemma NoDup_filter_ids (p : FileDoc -> bool) (l : list FileDoc) :
  NoDup (map doc_id l) → NoDup (map doc_id (List.filter p l)).
Proof.
  induction l as [|x l IH]; intros Hnd; [exact Hnd|].
  cbn [map] in Hnd. apply NoDup_cons in Hnd as [Hx Hnd]. cbn [List.filter].
  destruct (p x); [|apply IH, Hnd]. cbn [map]. apply NoDup_cons.
  split; [|apply IH, Hnd]. intros Hin. apply Hx.
  apply list_elem_of_In, in_map_iff in Hin as [d [Hd Hin]].
  apply filter_In in Hin as [Hin _]. rewrite <- Hd.
  apply list_elem_of_In, in_map, Hin.
Qed.

Lemma removed_consistent (oid : ObjectId) (b : Bucket) :
  consistent b →
  consistent {| fs_files := remove_first oid (fs_files b);
                fs_chunks := List.filter (fun c => negb (files_id c =? oid)%N) (fs_chunks b);
                next_id := next_id b |}.
Proof.
  intros (Hnd & Hlt & Hagree). unfold consistent, files_chunks_agree in *.
  cbn [fs_files fs_chunks next_id]. rewrite (remove_first_filter _ _ Hnd).
  split; [apply NoDup_filter_ids, Hnd|]. split.
  - intros d Hd. apply elem_of_List_filter in Hd as [Hd _]. apply Hlt, Hd.
  - apply filter_chunks_ids, Hagree.
Qed.

Lemma uploadFile_consistent (file : option File.t) (metadata : option Metadata)
    (now : Z) (b b' : Bucket) (r : Exception + FileUploadResult.t) :
  consistent b → uploadFile file metadata now b = (r, b') → consistent b'.
Proof.
  intros Hc Hup.
  destruct file as [file|]; [|injection Hup as _ <-; exact Hc].
  destruct (validateFile_cases file b) as [[Hacc _]|[e He]].
  - pose proof (find_first (dup_filter (sha256 (File.buffer file)) (File.originalname file)) b)
      as Hfind.
    destruct (List.filter
                (eval_filter (dup_filter (sha256 (File.buffer file)) (File.originalname file)))
                (fs_files b)) as [|dup rest].
    + rewrite (uploadFile_fresh file metadata now b Hacc Hfind) in Hup.
      injection Hup as _ <-. destruct Hc as (Hnd & Hlt & Hagree).
      unfold consistent, files_chunks_agree in *. cbn [fs_files fs_chunks next_id].
      split; [|split].
      * rewrite map_app. cbn [map doc_id]. apply NoDup_app.
        split; [exact Hnd|]. split; [|apply NoDup_singleton].
        intros x Hx Hx'. apply list_elem_of_singleton in Hx'. subst x.
        apply list_elem_of_In, in_map_iff in Hx as [d [Hd Hin]].
        apply list_elem_of_In in Hin. specialize (Hlt d Hin). lia.
      * intros d Hd. apply elem_of_app in Hd as [Hd|Hd].
        -- specialize (Hlt d Hd). lia.
        -- apply list_elem_of_singleton in Hd. subst d. cbn [doc_id]. lia.
      * rewrite !map_app, Hagree. reflexivity.
    + cbn [take] in Hfind.
      rewrite (uploadFile_dedup file metadata now b dup (take 0 rest) Hacc Hfind) in Hup.
      injection Hup as _ <-. exact Hc.
  - revert Hup. unfold uploadFile.
    unfold mbind at 1. unfold M_bind at 1. rewrite He.
    intros [= _ <-]. exact Hc.
Qed.

(** Either a replace hands the bucket back untouched, or it is an upload
    into the bucket without the replaced record. *)
Lemma replaceFile_trace (fileId : string) (newFile : option File.t)
    (additionalMetadata : option Metadata) (now : Z) (b b' : Bucket)
    (r : Exception + FileUploadResult.t) :
  replaceFile fileId newFile additionalMetadata now b = (r, b') →
  b' = b ∨
  ∃ oid metadata,
    uploadFile newFile metadata now
      {| fs_files := remove_first oid (fs_files b);
         fs_chunks := List.filter (fun c => negb (files_id c =? oid)%N) (fs_chunks b);
         next_id := next_id b |} = (r, b').
Proof.
  intros Hrep. destruct newFile as [file|]; [|left; injection Hrep as _ <-; reflexivity].
  destruct (validateFile_cases file b) as [[Hacc Hval]|[e He]].
  - destruct (oid_parse fileId) as [oid|] eqn:Hparse.
    + destruct (lookup_doc oid b) as [existing|] eqn:Hex.
      * right. exists oid. eexists.
        rewrite <- Hrep. symmetry. apply replaceFile_eq; [exact Hacc | exact Hparse |].
        rewrite findOne_eq. unfold lookup_doc in Hex. rewrite Hex. reflexivity.
      * left. revert Hrep. unfold replaceFile.
        unfold mbind at 1. unfold M_bind at 1. rewrite Hval.
        unfold new_ObjectId. rewrite Hparse.
        unfold mbind at 1. unfold M_bind at 1. unfold mret at 1. unfold M_ret at 1.
        unfold mbind at 1. unfold M_bind at 1. rewrite findOne_eq.
        unfold lookup_doc in Hex. rewrite Hex. intros [= _ <-]. reflexivity.
    + left. revert Hrep. unfold replaceFile.
      unfold mbind at 1. unfold M_bind at 1. rewrite Hval.
      unfold new_ObjectId. rewrite Hparse. intros [= _ <-]. reflexivity.
  - left. revert Hrep. unfold replaceFile.
    unfold mbind at 1. unfold M_bind at 1. rewrite He. intros [= _ <-]. reflexivity.
Qed.

Lemma uploadFiles_consistent (files : list File.t) (metadata : option Metadata)
    (now : Z) (b b' : Bucket) (r : Exception + list FileUploadResult.t) :
  consistent b → uploadFiles files metadata now b = (r, b') → consistent b'.
Proof.
  revert b b' r. induction files as [|file rest IH]; intros b b' r Hc Hup.
  - injection Hup as _ <-. exact Hc.
  - cbn [uploadFiles] in Hup. revert Hup. unfold mbind at 1. unfold M_bind at 1.
    destruct (uploadFile (Some file) metadata now b) as [[e|r1] b1] eqn:Hup1;
      apply (uploadFile_consistent _ _ _ _ _ _ Hc) in Hup1.
    + intros [= _ <-]. exact Hup1.
    + unfold mbind at 1. unfold M_bind at 1.
      destruct (uploadFiles rest metadata now b1) as [[e|rs] b2] eqn:Hrest;
        apply (IH _ _ _ Hup1) in Hrest; intros [= _ <-]; exact Hrest.
Qed.

Lemma renameFile_state (fileId : string) (payload : Payload.t) (now : Z)
    (b b' : Bucket) (r : Exception + FileInfo.t) :
  renameFile fileId payload now b = (r, b') →
  b' = b ∨
  ∃ oid existing,
    b' = {| fs_files := update_first oid (rename_update payload existing now) (fs_files b);
            fs_chunks := fs_chunks b; next_id := next_id b |}.
Proof.
  intros Hren. destruct (oid_parse fileId) as [oid|] eqn:Hparse.
  - destruct (lookup_doc oid b) as [existing|] eqn:Hex.
    + right. exists oid, existing.
      assert (findOne oid b = (inr (Some existing), b)) as Hfind.
      { rewrite findOne_eq. unfold lookup_doc in Hex. rewrite Hex. reflexivity. }
      destruct (renameFile_eq fileId oid payload now b existing Hparse Hfind) as [Heq _].
      rewrite Heq in Hren. injection Hren as _ <-. reflexivity.
    + left. revert Hren. unfold renameFile, new_ObjectId. rewrite Hparse.
      unfold mbind at 1. unfold M_bind at 1. unfold mret at 1. unfold M_ret at 1.
      unfold mbind at 1. unfold M_bind at 1. rewrite findOne_eq.
      unfold lookup_doc in Hex. rewrite Hex. intros [= _ <-]. reflexivity.
  - left. revert Hren. unfold renameFile, new_ObjectId. rewrite Hparse.
    intros [= _ <-]. reflexivity.
Qed.

(** X15: every call of a writing method (upload, batch upload,
    rename, replace, delete), succeed or fail, takes a consistent bucket to
    a consistent bucket: identifiers stay unique and below the next one to
    be issued, and files documents and chunk data stay paired. *)
Theorem writes_preserve_consistency (b b' : Bucket) :
  service_step b b' → consistent b → consistent b'.
Proof.
  intros Hstep Hc.
  destruct Hstep as [file md now b r b' H | files md now b r b' H
                    | fileId payload now b r b' H
                    | fileId newFile add now b r b' H | fileId b r b' H].
  - exact (uploadFile_consistent _ _ _ _ _ _ Hc H).
  - exact (uploadFiles_consistent _ _ _ _ _ _ Hc H).
  - apply renameFile_state in H as [->|(oid & existing & ->)]; [exact Hc|].
    destruct Hc as (Hnd & Hlt & Hagree). unfold consistent, files_chunks_agree in *.
    cbn [fs_files fs_chunks next_id].
    assert (map doc_id (update_first oid (rename_update payload existing now) (fs_files b))
            = map doc_id (fs_files b)) as Hids
      by (apply update_first_ids; reflexivity).
    rewrite Hids. split; [exact Hnd|]. split; [|exact Hagree].
    intros d Hd.
    assert (doc_id d ∈ map doc_id (fs_files b)) as Hin.
    { rewrite <- Hids. apply list_elem_of_In, in_map, list_elem_of_In, Hd. }
    apply list_elem_of_In, in_map_iff in Hin as [d0 [Hd0 Hin0]].
    rewrite <- Hd0. apply Hlt, list_elem_of_In, Hin0.
  - apply replaceFile_trace in H as [->|(oid & md & H)]; [exact Hc|].
    exact (uploadFile_consistent _ _ _ _ _ _ (removed_consistent oid b Hc) H).
  - destruct (oid_parse fileId) as [oid|] eqn:Hparse.
    + rewrite (deleteFile_eq _ _ _ Hparse) in H. injection H as _ <-.
      apply removed_consistent, Hc.
    + rewrite (deleteFile_unparsable _ _ Hparse) in H. injection H as _ <-. exact Hc.
Qed.

(** *** Cursors handed out *)

(** X22: in a well-formed bucket, a [nextCursor] handed out
    by cursor mode is the id of the last returned item, parses, and
    resolves to the record that item was read from, so the request that
    follows finds its cursor. *)
Theorem nextCursor_resolves (params : Params.t) (b b' : Bucket)
    (items : list FileInfo.t) (c : string) :
  well_formed b →
  listFilesAdvanced params b = (inr (CursorList items (Some c)), b') →
  ∃ d, last items = Some (file_info d) ∧
       FileInfo.id (file_info d) = c ∧
       oid_parse c = Some (doc_id d) ∧
       findOne (doc_id d) b = (inr (Some d), b).
Proof.
  intros (Hnd & Hlt & Hbound) Hlist.
  assert (∃ docs, items = map file_info docs ∧
                  next_cursor docs (default 50 (Params.limit params)) = Some c ∧
                  ∀ d, d ∈ docs → d ∈ fs_files b) as (docs & -> & Hnext & Hdocs).
  { revert Hlist. unfold listFilesAdvanced.
    destruct (truthy_str (Params.cursor params)).
    - unfold mbind at 1. unfold M_bind at 1.
      destruct (cursor_filter_returns (default "" (Params.cursor params))
                  (sort_key (default ByCreatedAt (Params.sortBy params))
                            (default Desc (Params.sortOrder params)))
                  (base_filter (Params.q params) (Params.mimetype params)) b)
        as [filter' ->].
      cbv beta iota delta [mbind M_bind mret M_ret].
      destruct (find filter' _ _ _ b) as [[e|docs] b1] eqn:Hfind; [discriminate|].
      apply find_sound in Hfind as [_ Hdocs].
      intros [= <- Hn _]. exists docs. split; [reflexivity|]. split; [exact Hn|].
      intros d Hd. apply Hdocs, Hd.
    - cbv beta iota delta [mbind M_bind mret M_ret countDocuments gets].
      destruct (find _ _ _ _ b) as [[e|docs] b1]; discriminate. }
  unfold next_cursor in Hnext.
  destruct (Z.of_nat (length docs) =? default 50 (Params.limit params)); [|discriminate].
  destruct (last docs) as [d|] eqn:Hlast; [|discriminate].
  injection Hnext as Hc. exists d.
  assert (d ∈ fs_files b) as Hd by (apply Hdocs, last_Some_elem_of, Hlast).
  split; [rewrite last_map, Hlast; reflexivity|].
  split; [exact Hc|]. split.
  - rewrite <- Hc. apply oid_parse_toString. specialize (Hlt d Hd). lia.
  - rewrite findOne_eq, (find_unique _ _ Hnd Hd). reflexivity.
Qed.

(** *** Sorting *)

Section Sorting.

Variable spec : SortSpec.
Hypothesis leb_trans : ∀ a b c,
  sort_leb spec a b = true → sort_leb spec b c = true → sort_leb spec a c = true.
Hypothesis leb_total : ∀ a b, sort_leb spec a b = true ∨ sort_leb spec b a = true.

Lemma insert_sorted_ordered (d : FileDoc) (l : list FileDoc) :
  ordered spec l → ordered spec (insert_sorted spec d l).
Proof using leb_trans leb_total.
  induction l as [|x l IH]; intros Hord.
  - cbn. split; [intros y Hy; inversion Hy | exact I].
  - destruct Hord as [Hx Hord]. cbn [insert_sorted].
    destruct (sort_leb spec d x) eqn:Hdx.
    + split; [|split; assumption].
      intros y Hy. apply elem_of_cons in Hy as [->|Hy]; [exact Hdx|].
      apply (leb_trans _ x); [exact Hdx | apply Hx, Hy].
    + split; [|apply IH, Hord].
      intros y Hy. rewrite insert_sorted_perm in Hy.
      apply elem_of_cons in Hy as [->|Hy]; [|apply Hx, Hy].
      destruct (leb_total x d) as [H|H]; [exact H | congruence].
Qed.

Lemma sort_docs_ordered (l : list FileDoc) : ordered spec (sort_docs spec l).
Proof using leb_trans leb_total.
  induction l as [|x l IH]; [exact I|]. cbn [sort_docs foldr].
  apply insert_sorted_ordered, IH.
Qed.

Lemma ordered_filter (p : FileDoc -> bool) (l : list FileDoc) :
  ordered spec l → ordered spec (List.filter p l).
Proof.
  induction l as [|x l IH]; intros Hord; [exact I|]. destruct Hord as [Hx Hord].
  cbn [List.filter]. destruct (p x); [|apply IH, Hord].
  split; [|apply IH, Hord]. intros y Hy. apply elem_of_List_filter in Hy as [Hy _].
  apply Hx, Hy.
Qed.

Lemma insert_sorted_least (d : FileDoc) (l : list FileDoc) :
  (∀ y, y ∈ l → sort_leb spec d y = true) → insert_sorted spec d l = d :: l.
Proof.
  destruct l as [|x l]; intros H; [reflexivity|]. cbn [insert_sorted].
  rewrite (H x (list_elem_of_here _ _)). reflexivity.
Qed.

Lemma filter_insert_sorted (p : FileDoc -> bool) (d : FileDoc) (l : list FileDoc) :
  ordered spec l →
  List.filter p (insert_sorted spec d l) =
    if p d then insert_sorted spec d (List.filter p l) else List.filter p l.
Proof using leb_trans.
  induction l as [|x l IH]; intros Hord.
  - cbn [insert_sorted List.filter]. destruct (p d); reflexivity.
  - destruct Hord as [Hx Hord]. cbn [insert_sorted].
    destruct (sort_leb spec d x) eqn:Hdx.
    + cbn [List.filter]. destruct (p d) eqn:Hpd; [|reflexivity].
      destruct (p x) eqn:Hpx.
      * cbn [insert_sorted]. rewrite Hdx. reflexivity.
      * symmetry. apply insert_sorted_least. intros y Hy.
        apply elem_of_List_filter in Hy as [Hy _].
        apply (leb_trans _ x); [exact Hdx | apply Hx, Hy].
    + cbn [List.filter]. rewrite (IH Hord). destruct (p x) eqn:Hpx.
      * destruct (p d); [|reflexivity]. cbn [insert_sorted]. rewrite Hdx. reflexivity.
      * reflexivity.
Qed.

(** Sorting and filtering commute. *)
Lemma sort_docs_filter (p : FileDoc -> bool) (l : list FileDoc) :
  sort_docs spec (List.filter p l) = List.filter p (sort_docs spec l).
Proof using leb_trans leb_total.
  induction l as [|x l IH]; [reflexivity|]. cbn [List.filter sort_docs foldr].
  rewrite filter_insert_sorted by apply sort_docs_ordered.
  destruct (p x); [|exact IH]. cbn [sort_docs foldr]. f_equal. exact IH.
Qed.

End Sorting.

(** *** The order of size and creation-time listings *)

Lemma listing_leb_iff (sortBy : SortBy) (dir : SortOrder) (a b : FileDoc) :
  sortBy ≠ ByUpdatedAt →
  sort_leb (listing_sort sortBy dir) a b = true ↔
  match dir with
  | Asc => num_key sortBy a < num_key sortBy b ∨
           (num_key sortBy a = num_key sortBy b ∧ (doc_id a <= doc_id b)%N)
  | Desc => num_key sortBy b < num_key sortBy a ∨
            (num_key sortBy a = num_key sortBy b ∧ (doc_id b <= doc_id a)%N)
  end.
Proof.
  intros Hnum. unfold sort_leb, listing_sort, sort_key.
  destruct sortBy; [| |contradiction]; cbn [sort_compare field_value num_key];
    unfold bson_compare; cbn [bson_rank Z.compare Pos.compare Pos.compare_cont];
    destruct dir;
    match goal with |- context [Z.compare ?x ?y] => destruct (Z.compare_spec x y) end;
    try match goal with |- context [N.compare ?x ?y] => destruct (N.compare_spec x y) end;
    cbn [CompOpp]; split; intros Hgoal; try reflexivity; try discriminate; lia.
Qed.

Lemma listing_after_iff (sortBy : SortBy) (dir : SortOrder) (last d : FileDoc) :
  sortBy ≠ ByUpdatedAt →
  comes_after (listing_sort sortBy dir) last d = true ↔
  match dir with
  | Asc => num_key sortBy last < num_key sortBy d ∨
           (num_key sortBy last = num_key sortBy d ∧ (doc_id last < doc_id d)%N)
  | Desc => num_key sortBy d < num_key sortBy last ∨
            (num_key sortBy last = num_key sortBy d ∧ (doc_id d < doc_id last)%N)
  end.
Proof.
  intros Hnum. unfold comes_after, listing_sort, sort_key.
  destruct sortBy; [| |contradiction]; cbn [sort_compare field_value num_key];
    unfold bson_compare; cbn [bson_rank Z.compare Pos.compare Pos.compare_cont];
    destruct dir;
    match goal with |- context [Z.compare ?x ?y] => destruct (Z.compare_spec x y) end;
    try match goal with |- context [N.compare ?x ?y] => destruct (N.compare_spec x y) end;
    cbn [CompOpp]; split; intros Hgoal; try reflexivity; try discriminate; lia.
Qed.

Lemma listing_leb_trans (sortBy : SortBy) (dir : SortOrder) (a b c : FileDoc) :
  sortBy ≠ ByUpdatedAt →
  sort_leb (listing_sort sortBy dir) a b = true →
  sort_leb (listing_sort sortBy dir) b c = true →
  sort_leb (listing_sort sortBy dir) a c = true.
Proof.
  intros Hnum. rewrite !(listing_leb_iff _ _ _ _ Hnum). destruct dir; lia.
Qed.

Lemma listing_leb_total (sortBy : SortBy) (dir : SortOrder) (a b : FileDoc) :
  sortBy ≠ ByUpdatedAt →
  sort_leb (listing_sort sortBy dir) a b = true ∨
  sort_leb (listing_sort sortBy dir) b a = true.
Proof.
  intros Hnum. rewrite !(listing_leb_iff _ _ _ _ Hnum). destruct dir; lia.
Qed.

Lemma ordered_app (spec : SortSpec) (l1 l2 : list FileDoc) :
  ordered spec (l1 ++ l2) →
  ordered spec l2 ∧ ∀ x y, x ∈ l1 → y ∈ l2 → sort_leb spec x y = true.
Proof.
  induction l1 as [|a l1 IH]; cbn [app ordered].
  - intros H. split; [exact H|]. intros x y Hx. inversion Hx.
  - intros [Ha Hord]. destruct (IH Hord) as [H2 Hcross]. split; [exact H2|].
    intros x y Hx Hy. apply elem_of_cons in Hx as [->|Hx].
    + apply Ha, elem_of_app. right. exact Hy.
    + apply Hcross; assumption.
Qed.

(** In a listing without repeated ids, the records that come after one
    of its records are exactly those listed behind it. *)
Lemma filter_after_suffix (sortBy : SortBy) (dir : SortOrder)
    (pre post : list FileDoc) (last : FileDoc) :
  sortBy ≠ ByUpdatedAt →
  ordered (listing_sort sortBy dir) (pre ++ last :: post) →
  NoDup (map doc_id (pre ++ last :: post)) →
  List.filter (comes_after (listing_sort sortBy dir) last) (pre ++ last :: post) = post.
Proof.
  intros Hnum Hord Hnd.
  destruct (ordered_app _ _ _ Hord) as [[Hlast _] Hcross].
  rewrite map_app in Hnd. cbn [map] in Hnd.
  apply NoDup_app in Hnd as (_ & _ & Hnd). apply NoDup_cons in Hnd as [Hfresh _].
  rewrite List.filter_app. cbn [List.filter].
  assert (List.filter (comes_after (listing_sort sortBy dir) last) pre = []) as ->.
  { assert (∀ x, x ∈ pre → sort_leb (listing_sort sortBy dir) x last = true) as Hpre
      by (intros x Hx; apply Hcross; [exact Hx | left]).
    clear -Hpre Hnum. induction pre as [|x pre IH]; [reflexivity|]. cbn [List.filter].
    assert (comes_after (listing_sort sortBy dir) last x = false) as ->.
    { apply not_true_is_false. rewrite (listing_after_iff _ _ _ _ Hnum).
      specialize (Hpre x (list_elem_of_here _ _)).
      rewrite (listing_leb_iff _ _ _ _ Hnum) in Hpre. destruct dir; lia. }
    apply IH. intros y Hy. apply Hpre. right. exact Hy. }
  assert (comes_after (listing_sort sortBy dir) last last = false) as ->.
  { apply not_true_is_false. rewrite (listing_after_iff _ _ _ _ Hnum). destruct dir; lia. }
  cbn [app]. apply filter_all. intros x Hx.
  rewrite (listing_after_iff _ _ _ _ Hnum).
  specialize (Hlast x Hx). rewrite (listing_leb_iff _ _ _ _ Hnum) in Hlast.
  assert (doc_id x ≠ doc_id last) as Hne.
  { intros Heq. apply Hfresh. rewrite <- Heq.
    apply list_elem_of_In, in_map, list_elem_of_In, Hx. }
  destruct dir; lia.
Qed.

(** The continuation of a size or creation-time listing selects the
    records that come after the cursor's record. *)
Lemma eval_continuation (sortBy : SortBy) (dir : SortOrder) (last : FileDoc)
    (alternatives : list Clause) (fields : Clause) (d : FileDoc) :
  sortBy ≠ ByUpdatedAt →
  continuation (sort_key sortBy dir) last = Some alternatives →
  eval_filter {| f_or := Some alternatives; f_fields := fields |} d =
    eval_clause d fields && comes_after (listing_sort sortBy dir) last d.
Proof.
  intros Hnum Hcont. unfold eval_filter. cbn [f_or f_fields]. f_equal.
  unfold comes_after, listing_sort.
  destruct sortBy; [| |contradiction]; unfold continuation, sort_key in *;
    cbn [fst snd] in Hcont; injection Hcont as <-;
    cbn [existsb eval_clause forallb eval_cond field_value sort_compare];
    unfold bson_compare;
    cbn [bson_rank Z.compare Z.eqb Pos.compare Pos.compare_cont Pos.eqb andb];
    match goal with |- context [Z.compare (?k d) (?k last)] =>
      rewrite (Z.compare_antisym (k last) (k d)) end;
    rewrite (N.compare_antisym (doc_id last) (doc_id d));
    destruct dir; cbn [cursor_op];
    match goal with |- context [Z.compare ?x ?y] => destruct (Z.compare x y) end;
    try match goal with |- context [N.compare ?x ?y] => destruct (N.compare x y) end;
    reflexivity.
Qed.

(** *** Walking a size or creation-time listing *)

Lemma cursor_filter_unresolved (cursor : string) (sort : Field * SortOrder)
    (filter : Filter) (b : Bucket) :
  oid_parse cursor ≫= (fun oid => lookup_doc oid b) = None →
  cursor_filter cursor sort filter b = (inr filter, b).
Proof.
  intros Hnone. unfold cursor_filter, new_ObjectId.
  destruct (oid_parse cursor) as [oid|];
    cbv beta iota delta [try_catch mbind M_bind mret M_ret throw]; [|reflexivity].
  rewrite findOne_eq. change (Some oid ≫= ?f) with (f oid) in Hnone. cbv beta in Hnone.
  unfold lookup_doc in Hnone. rewrite Hnone. reflexivity.
Qed.

Lemma oid_toString_nonempty (o : ObjectId) : oid_toString o ≠ "".
Proof.
  intros H. apply (f_equal String.length) in H.
  unfold oid_toString in H. rewrite length_to_hex in H. discriminate H.
Qed.

Lemma filter_filter {A} (p q : A -> bool) (l : list A) :
  List.filter q (List.filter p l) = List.filter (fun x => p x && q x) l.
Proof.
  induction l as [|x l IH]; [reflexivity|]. cbn [List.filter].
  destruct (p x); cbn [List.filter andb]; [destruct (q x)|]; rewrite IH; reflexivity.
Qed.

Lemma base_filter_no_query (mimetype : option string) :
  f_or (base_filter None mimetype) = None.
Proof.
  unfold base_filter. destruct mimetype as [m|]; [|reflexivity].
  destruct (truthy_str (Some m) && (0 <? String.length (trim m))%nat); reflexivity.
Qed.

Section Walks.

Variable params : Params.t.
Variable b : Bucket.

Let sortBy := default ByCreatedAt (Params.sortBy params).
Let sortOrder := default Desc (Params.sortOrder params).
Let limit := default 50 (Params.limit params).
Let spec := listing_sort sortBy sortOrder.
Let listing :=
  sort_docs spec (List.filter (wanted None (Params.mimetype params)) (fs_files b)).

Hypothesis Hwf : well_formed b.
Hypothesis Hq : Params.q params = None.
Hypothesis Hnum : sortBy ≠ ByUpdatedAt.
Hypothesis Hlimit : 0 < limit.

Lemma listing_elem (d : FileDoc) : d ∈ listing → d ∈ fs_files b.
Proof using Type.
  unfold listing. rewrite sort_docs_perm. intros H.
  apply elem_of_List_filter in H as [H _]. exact H.
Qed.

Lemma listing_NoDup : NoDup (map doc_id listing).
Proof using Hwf.
  destruct Hwf as (Hnd & _ & _). unfold listing.
  assert (map doc_id (sort_docs spec
            (List.filter (wanted None (Params.mimetype params)) (fs_files b)))
          ≡ₚ map doc_id (List.filter (wanted None (Params.mimetype params)) (fs_files b)))
    as -> by (apply Permutation_map, sort_docs_perm).
  apply NoDup_filter_ids, Hnd.
Qed.

Lemma listing_ordered : ordered spec listing.
Proof using Hnum.
  apply sort_docs_ordered.
  - intros x y z. apply listing_leb_trans, Hnum.
  - intros x y. apply listing_leb_total, Hnum.
Qed.

(** A request whose cursor resolves to nothing starts the listing. *)
Lemma first_request (cursor : string) :
  cursor ≠ "" →
  oid_parse cursor ≫= (fun oid => lookup_doc oid b) = None →
  listFilesAdvanced (with_cursor params cursor) b =
    (inr (CursorList (map file_info (take (Z.to_nat limit) listing))
            (next_cursor (take (Z.to_nat limit) listing) limit)), b).
Proof using Hq Hlimit.
  intros Hne Hnone. unfold listFilesAdvanced, with_cursor.
  cbn [Params.q Params.mimetype Params.page Params.limit Params.sortBy
       Params.sortOrder Params.cursor].
  change (default "" (Some cursor)) with cursor.
  assert (truthy_str (Some cursor) = true) as ->
    by (apply negb_true_iff, String.eqb_neq, Hne).
  fold sortBy sortOrder limit.
  unfold mbind at 1. unfold M_bind at 1.
  rewrite (cursor_filter_unresolved _ _ _ _ Hnone).
  unfold mbind at 1. unfold M_bind at 1. rewrite find_no_skip.
  rewrite Hq.
  rewrite (filter_ext _ _ (base_filter_text None (Params.mimetype params))).
  unfold apply_limit. destruct (Z.eqb_spec limit 0) as [H0|_]; [lia|].
  rewrite Z.abs_eq by lia. reflexivity.
Qed.

(** A request whose cursor is a record of the listing continues right
    behind that record. *)
Lemma next_request (pre post : list FileDoc) (last : FileDoc) :
  listing = pre ++ last :: post →
  listFilesAdvanced (with_cursor params (oid_toString (doc_id last))) b =
    (inr (CursorList (map file_info (take (Z.to_nat limit) post))
            (next_cursor (take (Z.to_nat limit) post) limit)), b).
Proof using Hwf Hq Hnum Hlimit.
  intros Hsplit.
  assert (last ∈ fs_files b) as Hlast.
  { apply listing_elem. rewrite Hsplit. apply elem_of_app. right. left. }
  destruct Hwf as (Hnd & Hlt & Hbound).
  destruct (continuation_sort_key sortBy sortOrder last) as [alts Halts].
  unfold listFilesAdvanced, with_cursor.
  cbn [Params.q Params.mimetype Params.page Params.limit Params.sortBy
       Params.sortOrder Params.cursor].
  change (default "" (Some ?c)) with c.
  assert (truthy_str (Some (oid_toString (doc_id last))) = true) as ->
    by (apply negb_true_iff, String.eqb_neq, oid_toString_nonempty).
  fold sortBy sortOrder limit.
  unfold mbind at 1. unfold M_bind at 1.
  rewrite (cursor_filter_resolved _ (doc_id last) last sortBy sortOrder _ b alts).
  2:{ apply oid_parse_toString. specialize (Hlt _ Hlast). lia. }
  2:{ rewrite findOne_eq, (find_unique _ _ Hnd Hlast). reflexivity. }
  2:{ exact Halts. }
  unfold mbind at 1. unfold M_bind at 1. rewrite find_no_skip.
  rewrite Hq.
  assert (List.filter
            (eval_filter {| f_or := Some alts;
                            f_fields := f_fields (base_filter None (Params.mimetype params)) |})
            (fs_files b)
          = List.filter (comes_after spec last)
              (List.filter (wanted None (Params.mimetype params)) (fs_files b))) as ->.
  { rewrite filter_filter. apply filter_ext. intros d.
    rewrite (eval_continuation sortBy sortOrder last alts _ d Hnum Halts).
    rewrite <- base_filter_text. unfold eval_filter.
    rewrite base_filter_no_query, andb_true_r. reflexivity. }
  fold spec.
  rewrite sort_docs_filter;
    [|intros x y z; apply listing_leb_trans, Hnum
     |intros x y; apply listing_leb_total, Hnum].
  change (sort_docs _ (List.filter (wanted None (Params.mimetype params)) (fs_files b)))
    with listing.
  assert (List.filter (comes_after spec last) listing = post) as ->.
  { rewrite Hsplit. apply filter_after_suffix; [exact Hnum | |].
    - rewrite <- Hsplit. apply listing_ordered.
    - rewrite <- Hsplit. apply listing_NoDup. }
  unfold apply_limit. destruct (Z.eqb_spec limit 0) as [H0|_]; [lia|].
  rewrite Z.abs_eq by lia. reflexivity.
Qed.

Let doc_key (d : FileDoc) : string := oid_toString (doc_id d).

Lemma ids_of_infos (docs : list FileDoc) :
  map FileInfo.id (map file_info docs) = map doc_key docs.
Proof using Type. rewrite map_map. reflexivity. Qed.

Lemma limit_nat : (1 <= Z.to_nat limit)%nat ∧ Z.of_nat (Z.to_nat limit) = limit.
Proof using Hlimit. split; lia. Qed.

Lemma walk_cursor_from (fuel : nat) :
  ∀ (pre post : list FileDoc) (cursor : string),
    listing = pre ++ post →
    (pre = [] ∧ cursor ≠ "" ∧ oid_parse cursor ≫= (fun oid => lookup_doc oid b) = None) ∨
    (∃ pre' last, pre = pre' ++ [last] ∧ cursor = oid_toString (doc_id last)) →
    (length post < fuel)%nat →
    walk_cursor fuel params cursor b = map doc_key post.
Proof using Hwf Hq Hnum Hlimit.
  destruct limit_nat as [Hn1 Hn2].
  induction fuel as [|fuel IH]; intros pre post cursor Hsplit Hpos Hfuel; [lia|].
  assert (listFilesAdvanced (with_cursor params cursor) b =
          (inr (CursorList (map file_info (take (Z.to_nat limit) post))
                  (next_cursor (take (Z.to_nat limit) post) limit)), b)) as Hreq.
  { destruct Hpos as [(-> & Hne & Hun) | (pre' & last & -> & ->)].
    - cbn [app] in Hsplit. rewrite <- Hsplit. apply first_request; assumption.
    - apply (next_request pre'). rewrite Hsplit, <- app_assoc. reflexivity. }
  cbn [walk_cursor]. rewrite Hreq, ids_of_infos.
  destruct (le_lt_dec (Z.to_nat limit) (length post)) as [Hlong|Hshort].
  - assert (length (take (Z.to_nat limit) post) = Z.to_nat limit) as Hlen
      by (rewrite length_take; lia).
    destruct (last (take (Z.to_nat limit) post)) as [l|] eqn:Hlast.
    2:{ apply last_None in Hlast. rewrite Hlast in Hlen. cbn in Hlen. lia. }
    unfold next_cursor. rewrite Hlen, Hn2, Z.eqb_refl, Hlast. cbn [fmap option_fmap option_map].
    apply last_Some in Hlast as [front Hfront].
    rewrite (IH (pre ++ take (Z.to_nat limit) post) (drop (Z.to_nat limit) post)).
    + rewrite <- map_app, take_drop. reflexivity.
    + rewrite <- app_assoc, take_drop. exact Hsplit.
    + right. exists (pre ++ front), l. rewrite Hfront, app_assoc. split; reflexivity.
    + rewrite length_drop. lia.
  - rewrite take_ge by lia. unfold next_cursor.
    destruct (Z.eqb_spec (Z.of_nat (length post)) limit) as [Heq|_]; [lia|].
    apply app_nil_r.
Qed.

Lemma page_request (k : nat) :
  ∃ total,
    listFilesAdvanced (with_page params (Z.of_nat k + 1)) b =
      (inr (PageList
              (map file_info (take (Z.to_nat limit) (drop (k * Z.to_nat limit) listing)))
              (Z.of_nat k + 1) total), b).
Proof using Hq Hlimit.
  assert (0 ≤ default 50 (Params.limit (with_page params (Z.of_nat k + 1)))) as Hl
    by (cbn [with_page Params.limit]; fold limit; lia).
  pose proof (page_mode_items (with_page params (Z.of_nat k + 1)) b eq_refl Hl) as Hpage.
  cbv zeta in Hpage. unfold with_page in Hpage.
  cbn [Params.q Params.mimetype Params.page Params.limit Params.sortBy
       Params.sortOrder Params.cursor] in Hpage.
  rewrite Hq in Hpage. fold sortBy sortOrder limit in Hpage.
  destruct (Z.gtb_spec (Z.of_nat k + 1) 0) as [_|Hneg]; [|lia].
  replace (Z.to_nat ((Z.of_nat k + 1 - 1) * limit)) with (k * Z.to_nat limit)%nat in Hpage by nia.
  unfold apply_limit in Hpage. destruct (Z.eqb_spec limit 0) as [H0|_]; [lia|].
  rewrite Z.abs_eq in Hpage by lia.
  eexists. unfold with_page. rewrite Hq. exact Hpage.
Qed.

Lemma walk_pages_from (fuel : nat) :
  ∀ k, (length (drop (k * Z.to_nat limit) listing) < fuel)%nat →
       walk_pages fuel params (Z.of_nat k + 1) b =
         map doc_key (drop (k * Z.to_nat limit) listing).
Proof using Hq Hlimit.
  destruct limit_nat as [Hn1 _].
  induction fuel as [|fuel IH]; intros k Hfuel; [lia|].
  destruct (page_request k) as [total Hreq].
  cbn [walk_pages]. rewrite Hreq.
  destruct (drop (k * Z.to_nat limit) listing) as [|x rest] eqn:Hdrop.
  - rewrite take_nil. reflexivity.
  - destruct (Z.to_nat limit) as [|n] eqn:Hn; [lia|].
    cbn [take map]. rewrite ids_of_infos.
    replace (Z.of_nat k + 1 + 1) with (Z.of_nat (S k) + 1) by lia.
    rewrite IH.
    + replace (S k * S n)%nat with (k * S n + S n)%nat by lia.
      rewrite <- drop_drop, Hdrop. cbn [drop].
      cbn [app map]. change (FileInfo.id (file_info x)) with (doc_key x). f_equal.
      rewrite <- map_app, take_drop. reflexivity.
    + replace (S k * S n)%nat with (k * S n + S n)%nat by lia.
      rewrite <- drop_drop, Hdrop. cbn [drop length] in *.
      rewrite length_drop. lia.
Qed.

Lemma doc_keys_NoDup : NoDup (map doc_key listing).
Proof using Hwf.
  pose proof listing_NoDup as Hnd.
  assert (∀ d, d ∈ listing → (doc_id d < oid_bound)%N) as Hb.
  { intros d Hd. apply listing_elem in Hd. destruct Hwf as (_ & Hlt & Hbound).
    specialize (Hlt d Hd). lia. }
  induction listing as [|x l IH]; [apply NoDup_nil; exact I|].
  cbn [map] in *. apply NoDup_cons in Hnd as [Hx Hnd]. apply NoDup_cons. split.
  - intros Hin. apply Hx. apply list_elem_of_In, in_map_iff in Hin as [y [Hy Hin]].
    apply list_elem_of_In in Hin. apply oid_toString_inj in Hy.
    + rewrite <- Hy. apply list_elem_of_In, in_map, list_elem_of_In, Hin.
    + apply Hb. right. exact Hin.
    + apply Hb. left.
  - apply IH; [exact Hnd|]. intros d Hd. apply Hb. right. exact Hd.
Qed.

(** X23: for a listing sorted by size or by creation time, without
    text query, over a well-formed bucket and with a positive limit,
    walking the pages and walking the cursors list the same ids in the same
    order: every record that passes the mimetype filter exactly once, and
    nothing else. *)
Theorem walks_agree_unless_by_update_time (start : string) (fuel : nat) :
  start ≠ "" →
  oid_parse start ≫= (fun oid => lookup_doc oid b) = None →
  (length (fs_files b) < fuel)%nat →
  walk_cursor fuel params start b = walk_pages fuel params 1 b ∧
  NoDup (walk_cursor fuel params start b) ∧
  ∀ id, id ∈ walk_cursor fuel params start b ↔
        ∃ d, d ∈ fs_files b ∧ wanted None (Params.mimetype params) d = true ∧
             id = oid_toString (doc_id d).
Proof using Hwf Hq Hnum Hlimit.
  intros Hne Hun Hfuel.
  assert (length listing ≤ length (fs_files b))%nat as Hlen.
  { unfold listing. rewrite (Permutation_length (sort_docs_perm _ _)).
    apply filter_length_le. }
  assert (walk_cursor fuel params start b = map doc_key listing) as Hc.
  { apply (walk_cursor_from fuel [] listing start); [reflexivity | left; auto | lia]. }
  assert (walk_pages fuel params 1 b = map doc_key listing) as Hp.
  { pose proof (walk_pages_from fuel 0) as H.
    change (0 * Z.to_nat limit)%nat with 0%nat in H.
    change (drop 0 listing) with listing in H.
    change (Z.of_nat 0 + 1) with 1 in H.
    apply H. lia. }
  rewrite Hc, Hp. split; [reflexivity|]. split; [apply doc_keys_NoDup|].
  intros id. rewrite list_elem_of_In, in_map_iff. split.
  - intros [d [<- Hd]]. apply list_elem_of_In in Hd. exists d.
    unfold listing in Hd. rewrite sort_docs_perm in Hd.
    apply elem_of_List_filter in Hd as [Hd Hw]. auto.
  - intros (d & Hd & Hw & ->). exists d. split; [reflexivity|].
    apply list_elem_of_In. unfold listing. rewrite sort_docs_perm.
    apply elem_of_List_filter. auto.
Qed.


End Walks.

(** *** Edges of the two listing modes *)



(** X21: a cursor that does not parse, or parses but
    resolves to no record, is ignored: the request is answered with the
    items of page 1 of the same listing. *)
Theorem unresolved_cursor_is_first_page (params : Params.t) (cursor : string)
    (b : Bucket) :
  cursor ≠ "" →
  oid_parse cursor ≫= (fun oid => lookup_doc oid b) = None →
  ∃ items next total,
    listFilesAdvanced (with_cursor params cursor) b = (inr (CursorList items next), b) ∧
    listFilesAdvanced (with_page params 1) b = (inr (PageList items 1 total), b).
Proof.
  intros Hne Hnone. unfold listFilesAdvanced, with_cursor, with_page.
  cbn [Params.q Params.mimetype Params.page Params.limit Params.sortBy
       Params.sortOrder Params.cursor truthy_str].
  change (default "" (Some cursor)) with cursor.
  assert (negb (cursor =? "")%string = true) as ->
    by (apply negb_true_iff, String.eqb_neq, Hne).
  unfold mbind at 1. unfold M_bind at 1.
  rewrite (cursor_filter_unresolved _ _ _ _ Hnone).
  unfold mbind at 1. unfold M_bind at 1. rewrite find_no_skip.
  change ((if 1 >? 0 then 1 else 1) - 1) with 0. rewrite Z.mul_0_l.
  unfold mbind at 1. unfold M_bind at 1. rewrite find_no_skip.
  eexists _, _, _. split; reflexivity.
Qed.

(** X20: in page mode a missing, zero or negative page number is
    read as page 1. *)
Theorem nonpositive_page_is_first_page (params : Params.t) (b : Bucket) :
  truthy_str (Params.cursor params) = false →
  match Params.page params with Some page => page ≤ 0 | None => True end →
  listFilesAdvanced params b = listFilesAdvanced (with_page params 1) b.
Proof.
  intros Hcur Hpage. unfold listFilesAdvanced, with_page.
  cbn [Params.q Params.mimetype Params.page Params.limit Params.sortBy
       Params.sortOrder Params.cursor truthy_str].
  rewrite Hcur.
  assert (match Params.page params with
          | Some page => if page >? 0 then page else 1
          | None => 1
          end = 1) as ->.
  { destruct (Params.page params) as [p|]; [|reflexivity].
    destruct (Z.gtb_spec p 0); [lia | reflexivity]. }
  reflexivity.
Qed.


(** *** Newest first *)

Lemma ordered_lookup (spec : SortSpec) (l : list FileDoc) (i j : nat) (x y : FileDoc) :
  ordered spec l → (i < j)%nat → l !! i = Some x → l !! j = Some y →
  sort_leb spec x y = true.
Proof.
  revert i j. induction l as [|a l IH]; intros i j Hord Hij Hi Hj; [discriminate|].
  destruct Hord as [Ha Hord]. destruct j as [|j]; [lia|]. cbn in Hj.
  destruct i as [|i].
  - cbn in Hi. injection Hi as ->. apply Ha. eapply list_elem_of_lookup_2, Hj.
  - cbn in Hi. apply (IH i j); [assumption | lia | assumption | assumption].
Qed.

Lemma upload_order_leb (a b : FileDoc) :
  sort_leb [(F_uploadDate, Desc)] a b = true ↔ doc_uploadDate b ≤ doc_uploadDate a.
Proof.
  unfold sort_leb. cbn [sort_compare field_value].
  unfold bson_compare; cbn [bson_rank Z.compare Pos.compare Pos.compare_cont].
  destruct (Z.compare_spec (doc_uploadDate a) (doc_uploadDate b));
    cbn [CompOpp]; split; intros Hgoal; try reflexivity; try discriminate; lia.
Qed.

Lemma upload_order_ordered (l : list FileDoc) :
  ordered [(F_uploadDate, Desc)] (sort_docs [(F_uploadDate, Desc)] l).
Proof.
  apply sort_docs_ordered.
  - intros a b c. rewrite !upload_order_leb. lia.
  - intros a b. rewrite !upload_order_leb. lia.
Qed.

(** Any window of a newest-first listing is newest first. *)
Lemma upload_order_window (l : list FileDoc) (skip : nat) (limit : Z) (i j : nat)
    (x y : FileInfo.t) :
  (i < j)%nat →
  map file_info (apply_limit limit (drop skip (sort_docs [(F_uploadDate, Desc)] l))) !! i
    = Some x →
  map file_info (apply_limit limit (drop skip (sort_docs [(F_uploadDate, Desc)] l))) !! j
    = Some y →
  FileInfo.uploadDate y ≤ FileInfo.uploadDate x.
Proof.
  intros Hij Hi Hj. rewrite list_lookup_fmap in Hi, Hj.
  destruct (apply_limit limit _ !! i) as [dx|] eqn:Hdx; [|discriminate].
  destruct (apply_limit limit _ !! j) as [dy|] eqn:Hdy; [|discriminate].
  cbn in Hi, Hj. injection Hi as <-. injection Hj as <-. cbn [file_info FileInfo.uploadDate].
  apply upload_order_leb.
  assert (∀ k d, apply_limit limit (drop skip (sort_docs [(F_uploadDate, Desc)] l)) !! k
                   = Some d →
                 sort_docs [(F_uploadDate, Desc)] l !! (skip + k)%nat = Some d) as Hidx.
  { intros k d. unfold apply_limit. destruct (limit =? 0).
    - rewrite lookup_drop. auto.
    - intros Hk. apply lookup_take_Some in Hk as [Hk _]. rewrite lookup_drop in Hk.
      exact Hk. }
  apply (ordered_lookup _ _ (skip + i) (skip + j) _ _ (upload_order_ordered l));
    [lia | apply Hidx, Hdx | apply Hidx, Hdy].
Qed.

(** X16: with a skip that is not negative, the plain listing
    succeeds, leaves the bucket alone and answers with projections of stored
    records, newest upload first; a limit other than zero bounds the
    answer by its absolute value (50 when no limit is given), and the
    first [skip] records of the newest-first order are left out. *)
Theorem listFiles_newest_first (limit skip : option Z) (b : Bucket) :
  0 ≤ default 0 skip →
  ∃ infos,
    listFiles limit skip b = (inr infos, b) ∧
    (∀ i j x y, (i < j)%nat → infos !! i = Some x → infos !! j = Some y →
                FileInfo.uploadDate y ≤ FileInfo.uploadDate x) ∧
    (default 50 limit ≠ 0 → Z.of_nat (length infos) ≤ Z.abs (default 50 limit)) ∧
    Z.of_nat (length infos) ≤
      Z.max 0 (Z.of_nat (length (fs_files b)) - default 0 skip) ∧
    (∀ info, info ∈ infos → ∃ d, d ∈ fs_files b ∧ info = file_info d).
Proof.
  intros Hskip. unfold listFiles. unfold mbind, M_bind. unfold find, apply_skip.
  destruct (Z.ltb_spec (default 0 skip) 0) as [Hneg|_]; [lia|].
  rewrite filter_all by reflexivity.
  eexists. split; [reflexivity|]. split; [|split; [|split]].
  - intros i j x y. apply upload_order_window.
  - intros Hne. rewrite length_map. unfold apply_limit.
    destruct (Z.eqb_spec (default 50 limit) 0) as [H0|_]; [contradiction|].
    rewrite length_take. lia.
  - rewrite length_map.
    assert (Z.of_nat (length (apply_limit (default 50 limit)
                      (drop (Z.to_nat (default 0 skip))
                         (sort_docs [(F_uploadDate, Desc)] (fs_files b)))))
            ≤ Z.of_nat (length (drop (Z.to_nat (default 0 skip))
                         (sort_docs [(F_uploadDate, Desc)] (fs_files b))))) as Hle.
    { unfold apply_limit. destruct (_ =? 0); [lia|]. rewrite length_take. lia. }
    rewrite length_drop, (Permutation_length (sort_docs_perm _ _)) in Hle. lia.
  - intros info Hin. apply elem_of_map_file_info in Hin as [d [Hd ->]].
    apply elem_of_apply_limit, subseteq_drop in Hd. rewrite sort_docs_perm in Hd.
    eauto.
Qed.

(** X17: the lookup by chat never fails, leaves the bucket alone
    and lists exactly the records whose stored [metadata.chatId] is the
    given string, nothing else and nothing left out, newest upload first. *)
Theorem getFilesByChatId_exact (chatId : string) (b : Bucket) :
  ∃ infos,
    getFilesByChatId chatId b = (inr infos, b) ∧
    (∀ info, info ∈ infos ↔
       ∃ d, d ∈ fs_files b ∧ stored d "chatId" = Some (VStr chatId) ∧ info = file_info d) ∧
    (∀ i j x y, (i < j)%nat → infos !! i = Some x → infos !! j = Some y →
                FileInfo.uploadDate y ≤ FileInfo.uploadDate x).
Proof.
  unfold getFilesByChatId. unfold mbind, M_bind. rewrite find_no_skip.
  eexists. split; [reflexivity|]. split.
  - rewrite apply_limit_zero. intros info. split.
    + intros Hin. apply elem_of_map_file_info in Hin as [d [Hd ->]].
      rewrite sort_docs_perm in Hd. apply elem_of_List_filter in Hd as [Hd Hev].
      exists d. rewrite <- eval_chat_filter. auto.
    + intros (d & Hd & Hchat & ->).
      apply list_elem_of_In, in_map, list_elem_of_In.
      rewrite sort_docs_perm. apply elem_of_List_filter.
      rewrite eval_chat_filter. auto.
  - intros i j x y. apply (upload_order_window _ 0).
Qed.

(** *** The file list component against the service *)




End FileService.

(** ** Worked examples *)

(** C6, as stated, fails: a metadata patch that carries a [hash] key
    replaces the stored content hash of the renamed record. *)
Lemma renameFile_overwrites_hash :
  stored_hash 1%N shelf = VStr "alpha-data" ∧
  (∃ info,
     fst (renameFile id_1
            {| Payload.filename := None;
               Payload.metadata := Some {[ "hash" := VStr "forged" ]} |} 500 shelf)
       = inr info) ∧
  stored_hash 1%N
    (snd (renameFile id_1
            {| Payload.filename := None;
               Payload.metadata := Some {[ "hash" := VStr "forged" ]} |} 500 shelf))
    = VStr "forged".
Proof.
  split; [reflexivity|]. split; [eexists; vm_compute; reflexivity|].
  vm_compute. reflexivity.
Qed.

Lemma renameFile_frame_witness :
  oid_parse id_1 = Some 1%N ∧
  findOne 1%N shelf =
    (inr (Some alpha_doc), shelf) ∧
  ∃ info b' updated,
    renameFile id_1
      {| Payload.filename := Some "gamma.txt";
         Payload.metadata := Some {[ "description" := VStr "notes" ]} |} 500 shelf
      = (inr info, b') ∧
    findOne 1%N b' = (inr (Some updated), b') ∧
    info = file_info updated ∧
    doc_id updated = 1%N ∧
    doc_length updated = 10 ∧
    map doc_id (fs_files b') = [1%N; 2%N; 3%N] ∧
    map doc_length (fs_files b') = [10; 30; 20] ∧
    fs_chunks b' = [] ∧
    opt_get (doc_metadata updated) "updatedAt" = VDate 500 ∧
    opt_get (doc_metadata updated) "hash" = VStr "alpha-data" ∧
    doc_filename updated = "gamma.txt".
Proof.
  split; [reflexivity|]. split; [reflexivity|].
  destruct (renameFile_frame id_1 1%N
              {| Payload.filename := Some "gamma.txt";
                 Payload.metadata := Some {[ "description" := VStr "notes" ]} |}
              500 shelf
              alpha_doc
              eq_refl eq_refl)
    as (info & b' & updated & Hren & Hfind & Hinfo & Hid & Hlen & Hids & Hlens
        & Hchunks & _ & Hupd & Hhash & Hname).
  exists info, b', updated.
  repeat split; try assumption.
  apply Hhash. reflexivity.
Defined.

(** C3: with a text query, a cursor walk stops filtering after its first
    request.  On the shelf, the search for "alpha" (one item per request)
    starts with [alphabet.txt] and hands out its id as cursor; the request
    that follows the cursor assigns the continuation to [$or], which held
    the text query, and returns [beta.png], a record that matches "alpha"
    in none of its three fields, instead of [alpha.txt]. *)
Theorem cursor_continuation_drops_text_query :
  listFilesAdvanced (with_cursor search_alpha "start") shelf =
    (inr (CursorList
            [file_info alphabet_doc]
            (Some id_3)), shelf) ∧
  listFilesAdvanced (with_cursor search_alpha id_3) shelf =
    (inr (CursorList
            [file_info beta_doc]
            (Some id_2)), shelf) ∧
  text_match "alpha" beta_doc = false ∧
  text_match "alpha" alpha_doc = true.
Proof. repeat split; vm_compute; reflexivity. Qed.

(** C5: sorted by last-update time, the cursor walk over the shelf (three
    records, none of them ever renamed) ends after the first request's two
    records, while the page walk lists all three.  The continuation
    compares [metadata.updatedAt], which no record has, against the
    cursor record's upload date, so the request after the cursor comes
    back empty and without a next cursor. *)
Theorem cursor_walk_omits_records_without_updatedAt (fuel : nat) :
  walk_pages (S (S (S fuel))) by_update_time 1 shelf = [id_3; id_2; id_1] ∧
  walk_cursor (S (S fuel)) by_update_time "start" shelf = [id_3; id_2] ∧
  listFilesAdvanced (with_cursor by_update_time id_2) shelf =
    (inr (CursorList [] None), shelf).
Proof. repeat split; vm_compute; reflexivity. Qed.

Lemma sample_accepts_alpha : accepts sample_environment alpha_file.
Proof. split; [discriminate | right; left]. Defined.

Lemma caller_hash_defeats_dedup_witness :
  accepts sample_environment alpha_file ∧
  sample_digest (File.buffer alpha_file) ≠ "stale" ∧
  ∃ b1 b2,
    uploadFile sample_digest sample_formatBytes sample_environment
      (Some alpha_file) (Some {[ "hash" := VStr "stale" ]}) 100 empty_bucket =
      (inr {| FileUploadResult.id := id_1;
              FileUploadResult.filename := "alpha.txt";
              FileUploadResult.size := 10;
              FileUploadResult.mimetype := VStr "text/plain";
              FileUploadResult.uploadDate := 100 |}, b1) ∧
    uploadFile sample_digest sample_formatBytes sample_environment
      (Some alpha_file) (Some {[ "hash" := VStr "stale" ]}) 200 b1 =
      (inr {| FileUploadResult.id := id_2;
              FileUploadResult.filename := "alpha.txt";
              FileUploadResult.size := 10;
              FileUploadResult.mimetype := VStr "text/plain";
              FileUploadResult.uploadDate := 200 |}, b2) ∧
    map doc_id (fs_files b1) = [1%N] ∧
    map doc_id (fs_files b2) = [1%N; 2%N] ∧
    map chunk_data (fs_chunks b2) = [File.buffer alpha_file; File.buffer alpha_file].
Proof.
  split; [exact sample_accepts_alpha|].
  split; [intros H; vm_compute in H; discriminate H|].
  apply (caller_hash_defeats_dedup sample_digest sample_formatBytes sample_environment
           alpha_file "stale" 100 200 sample_accepts_alpha).
  intros H; vm_compute in H; discriminate H.
Defined.

Lemma replaceFile_dedup_hit_witness :
  accepts sample_environment alpha_file ∧
  oid_parse id_2 = Some 2%N ∧
  findOne 2%N shelf = (inr (Some beta_doc), shelf) ∧
  (replaceFile sample_digest sample_formatBytes sample_environment
     id_2 (Some alpha_file) None 900 shelf =
     (inr {| FileUploadResult.id := id_1;
             FileUploadResult.filename := "alpha.txt";
             FileUploadResult.size := 10;
             FileUploadResult.mimetype := VStr "text/plain";
             FileUploadResult.uploadDate := 100 |},
      {| fs_files := [alpha_doc; alphabet_doc]; fs_chunks := []; next_id := 4%N |}) ∧
   alpha_doc ∈ fs_files shelf) ∧
  opt_get (doc_metadata alpha_doc) "originalReplacedId" = VUndefined.
Proof.
  split; [exact sample_accepts_alpha|].
  split; [reflexivity|]. split; [reflexivity|].
  split; [|reflexivity].
  apply (replaceFile_dedup_hit sample_digest sample_formatBytes sample_environment
           id_2 2%N beta_doc alpha_doc [] alpha_file None 900 shelf
           sample_accepts_alpha eq_refl eq_refl).
  vm_compute. reflexivity.
Defined.

Lemma unparsable_id_outcomes_witness :
  oid_parse "not-an-object-id" = None ∧
  getFileInfo "not-an-object-id" shelf = (inl (not_found "not-an-object-id"), shelf) ∧
  getFileStream "not-an-object-id" shelf = (inl (not_found "not-an-object-id"), shelf) ∧
  deleteFile "not-an-object-id" shelf = (inl (not_found "not-an-object-id"), shelf) ∧
  (∀ payload now,
     renameFile "not-an-object-id" payload now shelf = (inl bson_error, shelf)) ∧
  (∀ file additionalMetadata now,
     accepts sample_environment file →
     replaceFile sample_digest sample_formatBytes sample_environment
       "not-an-object-id" (Some file) additionalMetadata now shelf
     = (inl bson_error, shelf)).
Proof.
  split; [reflexivity|].
  apply (unparsable_id_outcomes sample_digest sample_formatBytes sample_environment
           "not-an-object-id" shelf eq_refl).
Defined.

Lemma uploadFile_validates_before_write_witness :
  ((File.size big_file > maxFileSize sample_environment) ∧
   uploadFile sample_digest sample_formatBytes sample_environment
     (Some big_file) None 0 shelf =
     (inl (BadRequestException
        ("File size (" +:+ sample_formatBytes 2000 +:+
         ") exceeds maximum allowed size (" +:+ sample_formatBytes 1000 +:+ ")")),
      shelf))
  ∧
  (File.size zip_file ≤ maxFileSize sample_environment ∧
   acceptedTypes sample_environment ≠ [] ∧
   (File.mimetype zip_file ∉ acceptedTypes sample_environment) ∧
   uploadFile sample_digest sample_formatBytes sample_environment
     (Some zip_file) None 0 shelf =
     (inl (BadRequestException
        "File type application/zip is not allowed. Accepted types: text/plain, image/png"),
      shelf)).
Proof.
  assert (File.size big_file > maxFileSize sample_environment) as Hbig by reflexivity.
  assert (File.size zip_file ≤ maxFileSize sample_environment) as Hsmall by discriminate.
  assert (acceptedTypes sample_environment ≠ []) as Hne by discriminate.
  assert (File.mimetype zip_file ∉ acceptedTypes sample_environment) as Hnotin.
  { intros H. apply existsb_eqb_elem_of in H. vm_compute in H. discriminate H. }
  split.
  - split; [exact Hbig|].
    exact (proj1 (uploadFile_validates_before_write sample_digest sample_formatBytes
                    sample_environment big_file None 0 shelf) Hbig).
  - split; [exact Hsmall|]. split; [exact Hne|]. split; [exact Hnotin|].
    exact (proj2 (uploadFile_validates_before_write sample_digest sample_formatBytes
                    sample_environment zip_file None 0 shelf) Hsmall Hne Hnotin).
Defined.


Lemma cursor_updatedAt_falls_back_to_uploadDate_witness :
  Params.cursor (with_cursor by_update_time id_2) = Some id_2 ∧
  id_2 ≠ "" ∧
  Params.sortBy (with_cursor by_update_time id_2) = Some ByUpdatedAt ∧
  oid_parse id_2 = Some 2%N ∧
  findOne 2%N shelf = (inr (Some beta_doc), shelf) ∧
  doc_metadata beta_doc ≫= (fun m => m !! "updatedAt") = None ∧
  listFilesAdvanced (with_cursor by_update_time id_2) shelf =
    (docs ← find
        {| f_or := Some [[CCmp (F_metadata "updatedAt") OpLt (VDate 200)];
                         [CEq (F_metadata "updatedAt") (VDate 200);
                          CCmp F_id OpLt (VObjectId 2%N)]];
           f_fields := [] |}
        [(F_metadata "updatedAt", Desc); (F_id, Desc)] 0 2;
     mret (CursorList (map file_info docs) (next_cursor docs 2))) shelf.
Proof.
  assert (id_2 ≠ "") as Hne by discriminate.
  repeat (split; [first [reflexivity | exact Hne]|]).
  exact (cursor_updatedAt_falls_back_to_uploadDate
           (with_cursor by_update_time id_2) id_2 2%N beta_doc shelf
           eq_refl Hne eq_refl eq_refl eq_refl eq_refl).
Defined.


(** Replacing [alpha.txt] on the shelf and uploading afterwards.  The
    record written by the replace (id ...04) is stored with the hash of the
    content it replaced; uploading the new content again under the same
    name therefore writes one more record (id ...05), and uploading the
    old content under that name is answered with the record that now
    holds the new content. *)
Example replace_then_upload :
  ∃ b1 b2,
    replaceFile sample_digest sample_formatBytes sample_environment
      id_1 (Some alpha_v2) None 900 shelf =
      (inr {| FileUploadResult.id := "000000000000000000000004";
              FileUploadResult.filename := "alpha.txt";
              FileUploadResult.size := 13;
              FileUploadResult.mimetype := VStr "text/plain";
              FileUploadResult.uploadDate := 900 |}, b1) ∧
    map doc_id (fs_files b1) = [2%N; 3%N; 4%N] ∧
    stored_hash 4%N b1 = VStr "alpha-data" ∧
    uploadFile sample_digest sample_formatBytes sample_environment
      (Some alpha_v2) None 950 b1 =
      (inr {| FileUploadResult.id := "000000000000000000000005";
              FileUploadResult.filename := "alpha.txt";
              FileUploadResult.size := 13;
              FileUploadResult.mimetype := VStr "text/plain";
              FileUploadResult.uploadDate := 950 |}, b2) ∧
    map doc_id (fs_files b2) = [2%N; 3%N; 4%N; 5%N] ∧
    fst (uploadFile sample_digest sample_formatBytes sample_environment
           (Some alpha_file) None 950 b1) =
      inr {| FileUploadResult.id := "000000000000000000000004";
             FileUploadResult.filename := "alpha.txt";
             FileUploadResult.size := 13;
             FileUploadResult.mimetype := VStr "text/plain";
             FileUploadResult.uploadDate := 900 |}.
Proof.
  eexists _, _. split; [vm_compute; reflexivity|].
  repeat split; vm_compute; reflexivity.
Qed.

(** Sorted by size, largest first, two per request: both walks over the
    shelf (sizes 10, 30, 20) list 30, 20 and then 10. *)
Example size_walks_agree (fuel : nat) :
  walk_pages (S (S (S fuel))) by_size 1 shelf = [id_2; id_3; id_1] ∧
  walk_cursor (S (S fuel)) by_size "start" shelf = [id_2; id_3; id_1] ∧
  listFilesAdvanced (with_cursor by_size "start") shelf =
    (inr (CursorList [file_info beta_doc; file_info alphabet_doc] (Some id_3)), shelf) ∧
  listFilesAdvanced (with_cursor by_size id_3) shelf =
    (inr (CursorList [file_info alpha_doc] None), shelf).
Proof. repeat split; vm_compute; reflexivity. Qed.

Example shelf_well_formed : well_formed shelf.
Proof.
  split; [|split].
  - cbn [shelf fs_files map]. repeat (apply NoDup_cons; split);
      [ | | | apply NoDup_nil; exact I ];
      intros H; repeat (apply elem_of_cons in H as [H|H]; [discriminate H|]);
      inversion H.
  - intros d Hd. cbn [shelf fs_files] in Hd.
    repeat (apply elem_of_cons in Hd as [->|Hd]; [reflexivity|]). inversion Hd.
  - reflexivity.
Qed.

(** *** Instances of the further properties *)

Lemma sample_accepts_alpha_v2 : accepts sample_environment alpha_v2.
Proof. split; [discriminate | right; left]. Defined.

Lemma sample_accepts_copy : accepts sample_environment copy_file.
Proof. split; [discriminate | right; left]. Defined.

Lemma sample_rejects_big : ¬ accepts sample_environment big_file.
Proof. intros [Hsize _]. apply Hsize. reflexivity. Defined.

Lemma empty_bucket_well_formed : well_formed empty_bucket.
Proof.
  split; [apply NoDup_nil; exact I|]. split; [|reflexivity].
  intros d Hd. inversion Hd.
Defined.

Lemma shelf_chunks_issued : chunks_issued shelf.
Proof. intros c Hc. inversion Hc. Defined.

Lemma fresh_upload_reads_back_witness :
  well_formed shelf ∧ chunks_issued shelf ∧ accepts sample_environment alpha_v2 ∧
  find (dup_filter (sample_digest (File.buffer alpha_v2)) (File.originalname alpha_v2))
    [] 0 1 shelf = (inr [], shelf) ∧
  ∃ r b1 info,
    uploadFile sample_digest sample_formatBytes sample_environment
      (Some alpha_v2) None 900 shelf = (inr r, b1) ∧
    getFileStream (FileUploadResult.id r) b1 = (inr (File.buffer alpha_v2, info), b1) ∧
    FileInfo.id info = FileUploadResult.id r ∧
    FileInfo.filename info = "alpha.txt" ∧
    FileInfo.size info = 13 ∧
    FileInfo.uploadDate info = 900.
Proof.
  assert (find (dup_filter (sample_digest (File.buffer alpha_v2))
                  (File.originalname alpha_v2)) [] 0 1 shelf = (inr [], shelf)) as Hdup
    by (vm_compute; reflexivity).
  split; [exact shelf_well_formed|]. split; [exact shelf_chunks_issued|].
  split; [exact sample_accepts_alpha_v2|]. split; [exact Hdup|].
  exact (fresh_upload_reads_back sample_digest sample_formatBytes sample_environment
           alpha_v2 None 900 shelf shelf_well_formed shelf_chunks_issued
           sample_accepts_alpha_v2 Hdup).
Defined.

Lemma same_bytes_two_names_witness :
  File.buffer alpha_file = File.buffer copy_file ∧
  File.originalname alpha_file ≠ File.originalname copy_file ∧
  ∃ r1 b1 r2 b2,
    uploadFile sample_digest sample_formatBytes sample_environment
      (Some alpha_file) None 100 empty_bucket = (inr r1, b1) ∧
    uploadFile sample_digest sample_formatBytes sample_environment
      (Some copy_file) None 200 b1 = (inr r2, b2) ∧
    FileUploadResult.id r2 ≠ FileUploadResult.id r1 ∧
    map doc_filename (fs_files b2) = ["alpha.txt"; "copy.txt"].
Proof.
  assert (File.originalname alpha_file ≠ File.originalname copy_file) as Hnames
    by (intros H; discriminate H).
  split; [reflexivity|]. split; [exact Hnames|].
  destruct (uploadFile sample_digest sample_formatBytes sample_environment
              (Some alpha_file) None 100 empty_bucket) as [[e|r1] b1] eqn:Hfirst;
    [vm_compute in Hfirst; discriminate Hfirst|].
  destruct (same_bytes_two_names sample_digest sample_formatBytes sample_environment
              alpha_file copy_file None None 100 200 empty_bucket b1 r1
              empty_bucket_well_formed eq_refl sample_accepts_copy Hnames eq_refl Hfirst)
    as (r2 & b2 & d & Hsecond & Hids & Hfiles & Hname & _).
  exists r1, b1, r2, b2. split; [reflexivity|]. split; [exact Hsecond|].
  split; [exact Hids|].
  rewrite Hfiles, map_app. cbn [map]. rewrite Hname.
  vm_compute in Hfirst. injection Hfirst as _ <-. reflexivity.
Defined.

Lemma deleteFile_then_gone_witness :
  well_formed shelf ∧ oid_parse id_1 = Some 1%N ∧ lookup_doc 1%N shelf = Some alpha_doc ∧
  ∃ b',
    deleteFile id_1 shelf = (inr tt, b') ∧
    (∀ x, x ∈ fs_files b' ↔ x ∈ fs_files shelf ∧ doc_id x ≠ 1%N) ∧
    (∀ c, c ∈ fs_chunks b' ↔ c ∈ fs_chunks shelf ∧ files_id c ≠ 1%N) ∧
    getFileInfo id_1 b' = (inl (not_found id_1), b') ∧
    deleteFile id_1 b' = (inl (not_found id_1), b').
Proof.
  split; [exact shelf_well_formed|]. split; [reflexivity|]. split; [reflexivity|].
  exact (deleteFile_then_gone id_1 1%N alpha_doc shelf shelf_well_formed eq_refl eq_refl).
Defined.

Lemma deleteFile_missing_witness :
  oid_parse id_9 = Some 9%N ∧ lookup_doc 9%N shelf = None ∧
  ∃ b',
    deleteFile id_9 shelf = (inl (not_found id_9), b') ∧
    fs_files b' = fs_files shelf ∧ next_id b' = next_id shelf.
Proof.
  split; [reflexivity|]. split; [reflexivity|].
  exact (deleteFile_missing id_9 9%N shelf eq_refl eq_refl).
Defined.

Lemma renameFile_merges_patch_witness :
  oid_parse id_1 = Some 1%N ∧
  findOne 1%N shelf = (inr (Some alpha_doc), shelf) ∧
  ∃ info b' updated,
    renameFile id_1
      {| Payload.filename := None;
         Payload.metadata := Some {[ "description" := VStr "notes" ]} |} 500 shelf
      = (inr info, b') ∧
    lookup_doc 1%N b' = Some updated ∧
    getFileInfo id_1 b' = (inr info, b') ∧
    stored updated "description" = Some (VStr "notes") ∧
    stored updated "mimetype" = Some (VStr "text/plain").
Proof.
  split; [reflexivity|]. split; [reflexivity|].
  destruct (renameFile_merges_patch id_1 1%N
              {| Payload.filename := None;
                 Payload.metadata := Some {[ "description" := VStr "notes" ]} |}
              500 shelf alpha_doc eq_refl eq_refl)
    as (info & b' & updated & Hren & Hlook & Hget & Hkeys).
  exists info, b', updated. split; [exact Hren|]. split; [exact Hlook|].
  split; [exact Hget|]. split.
  - rewrite (Hkeys "description") by (intros H; discriminate H). reflexivity.
  - rewrite (Hkeys "mimetype") by (intros H; discriminate H). reflexivity.
Defined.

Lemma renameFile_missing_witness :
  oid_parse id_9 = Some 9%N ∧ lookup_doc 9%N shelf = None ∧
  renameFile id_9 {| Payload.filename := Some "gamma.txt"; Payload.metadata := None |}
    500 shelf = (inl (not_found id_9), shelf).
Proof.
  split; [reflexivity|]. split; [reflexivity|].
  exact (renameFile_missing id_9 9%N _ 500 shelf eq_refl eq_refl).
Defined.

Lemma replaceFile_retires_old_id_witness :
  well_formed shelf ∧
  ∃ r b',
    replaceFile sample_digest sample_formatBytes sample_environment
      id_2 (Some alpha_v2) None 900 shelf = (inr r, b') ∧
    getFileInfo id_2 b' = (inl (not_found id_2), b').
Proof.
  split; [exact shelf_well_formed|].
  destruct (replaceFile sample_digest sample_formatBytes sample_environment
              id_2 (Some alpha_v2) None 900 shelf) as [[e|r] b'] eqn:Hrep;
    [vm_compute in Hrep; discriminate Hrep|].
  exists r, b'. split; [reflexivity|].
  exact (replaceFile_retires_old_id sample_digest sample_formatBytes sample_environment
           id_2 alpha_v2 None 900 shelf b' r shelf_well_formed Hrep).
Defined.

Lemma replaceFile_other_id_witness :
  well_formed shelf ∧
  ∃ r b',
    replaceFile sample_digest sample_formatBytes sample_environment
      id_3 (Some alpha_v2) None 900 shelf = (inr r, b') ∧
    FileUploadResult.id r ≠ id_3.
Proof.
  split; [exact shelf_well_formed|].
  destruct (replaceFile sample_digest sample_formatBytes sample_environment
              id_3 (Some alpha_v2) None 900 shelf) as [[e|r] b'] eqn:Hrep;
    [vm_compute in Hrep; discriminate Hrep|].
  exists r, b'. split; [reflexivity|].
  exact (replaceFile_other_id sample_digest sample_formatBytes sample_environment
           id_3 alpha_v2 None 900 shelf b' r shelf_well_formed Hrep).
Defined.

Lemma replaceFile_inherits_metadata_witness :
  accepts sample_environment alpha_v2 ∧
  oid_parse id_2 = Some 2%N ∧
  findOne 2%N shelf = (inr (Some beta_doc), shelf) ∧
  stored beta_doc "mimetype" = Some (VStr "image/png") ∧
  ∃ r b' d,
    replaceFile sample_digest sample_formatBytes sample_environment
      id_2 (Some alpha_v2) None 900 shelf = (inr r, b') ∧
    fs_files b' = remove_first 2%N (fs_files shelf) ++ [d] ∧
    oid_toString (doc_id d) = FileUploadResult.id r ∧
    stored d "mimetype" = Some (VStr "image/png").
Proof.
  split; [exact sample_accepts_alpha_v2|]. split; [reflexivity|]. split; [reflexivity|].
  assert (stored beta_doc "mimetype" = Some (VStr "image/png")) as Hold
    by (vm_compute; reflexivity).
  split; [exact Hold|].
  apply (replaceFile_inherits_metadata sample_digest sample_formatBytes sample_environment
           id_2 2%N beta_doc alpha_v2 None 900 shelf "mimetype" (VStr "image/png")
           sample_accepts_alpha_v2 eq_refl eq_refl).
  - vm_compute. reflexivity.
  - intros H; discriminate H.
  - intros H; discriminate H.
  - exact Hold.
  - reflexivity.
Defined.

Lemma uploadFile_twice_witness :
  ∃ r b1,
    uploadFile sample_digest sample_formatBytes sample_environment
      (Some alpha_file) None 100 empty_bucket = (inr r, b1) ∧
    ∃ r',
      uploadFile sample_digest sample_formatBytes sample_environment
        (Some alpha_file) (Some {[ "chatId" := VStr "c1" ]}) 200 b1 = (inr r', b1) ∧
      FileUploadResult.id r' = FileUploadResult.id r.
Proof.
  destruct (uploadFile sample_digest sample_formatBytes sample_environment
              (Some alpha_file) None 100 empty_bucket) as [[e|r] b1] eqn:Hfirst;
    [vm_compute in Hfirst; discriminate Hfirst|].
  exists r, b1. split; [reflexivity|].
  exact (uploadFile_twice sample_digest sample_formatBytes sample_environment
           alpha_file None (Some {[ "chatId" := VStr "c1" ]}) 100 200 empty_bucket b1 r
           eq_refl Hfirst).
Defined.

Lemma uploadFiles_one_result_per_file_witness :
  Forall (accepts sample_environment) [alpha_file; copy_file] ∧
  ∃ results b',
    uploadFiles sample_digest sample_formatBytes sample_environment
      [alpha_file; copy_file] None 100 empty_bucket = (inr results, b') ∧
    map FileUploadResult.filename results = ["alpha.txt"; "copy.txt"].
Proof.
  assert (Forall (accepts sample_environment) [alpha_file; copy_file]) as Hall.
  { apply Forall_cons. split; [exact sample_accepts_alpha|].
    apply Forall_cons. split; [exact sample_accepts_copy|]. apply Forall_nil; exact I. }
  split; [exact Hall|].
  exact (uploadFiles_one_result_per_file sample_digest sample_formatBytes
           sample_environment [alpha_file; copy_file] None 100 empty_bucket Hall).
Defined.

Lemma uploadFiles_stops_at_rejected_witness :
  Forall (accepts sample_environment) [alpha_file] ∧
  ¬ accepts sample_environment big_file ∧
  ∃ results b1 msg,
    uploadFiles sample_digest sample_formatBytes sample_environment
      [alpha_file] None 100 empty_bucket = (inr results, b1) ∧
    uploadFiles sample_digest sample_formatBytes sample_environment
      ([alpha_file] ++ big_file :: [copy_file]) None 100 empty_bucket
      = (inl (BadRequestException msg), b1).
Proof.
  assert (Forall (accepts sample_environment) [alpha_file]) as Hall.
  { apply Forall_cons. split; [exact sample_accepts_alpha|]. apply Forall_nil; exact I. }
  split; [exact Hall|]. split; [exact sample_rejects_big|].
  exact (uploadFiles_stops_at_rejected sample_digest sample_formatBytes sample_environment
           [alpha_file] [copy_file] big_file None 100 empty_bucket Hall sample_rejects_big).
Defined.

Lemma page_total_is_file_count_witness :
  truthy_str (Params.cursor by_size) = false ∧
  Params.q by_size = None ∧ Params.mimetype by_size = None ∧
  0 ≤ default 50 (Params.limit by_size) ∧
  ∃ items page,
    listFilesAdvanced by_size shelf = (inr (PageList items page 3), shelf) ∧
    getFileCount shelf = (inr 3, shelf).
Proof.
  assert (0 ≤ default 50 (Params.limit by_size)) as Hlimit by (intros H; discriminate H).
  split; [reflexivity|]. split; [reflexivity|]. split; [reflexivity|].
  split; [exact Hlimit|].
  destruct (page_total_is_file_count by_size shelf eq_refl eq_refl eq_refl Hlimit)
    as (items & page & total & Hlist & Hcount & Htotal).
  exists items, page. cbn in Htotal. subst total. split; assumption.
Defined.

Lemma writes_preserve_consistency_witness :
  consistent empty_bucket ∧
  service_step sample_digest sample_formatBytes sample_environment empty_bucket
    (snd (uploadFile sample_digest sample_formatBytes sample_environment
            (Some alpha_file) None 100 empty_bucket)) ∧
  consistent
    (snd (uploadFile sample_digest sample_formatBytes sample_environment
            (Some alpha_file) None 100 empty_bucket)).
Proof.
  assert (consistent empty_bucket) as Hc.
  { split; [apply NoDup_nil; exact I|]. split; [|reflexivity].
    intros d Hd. inversion Hd. }
  assert (service_step sample_digest sample_formatBytes sample_environment empty_bucket
            (snd (uploadFile sample_digest sample_formatBytes sample_environment
                    (Some alpha_file) None 100 empty_bucket))) as Hstep.
  { eapply (step_uploadFile _ _ _ (Some alpha_file) None 100 empty_bucket).
    apply surjective_pairing. }
  split; [exact Hc|]. split; [exact Hstep|].
  exact (writes_preserve_consistency sample_digest sample_formatBytes sample_environment
           _ _ Hstep Hc).
Defined.

Lemma nextCursor_resolves_witness :
  well_formed shelf ∧
  listFilesAdvanced (with_cursor by_size "start") shelf =
    (inr (CursorList [file_info beta_doc; file_info alphabet_doc] (Some id_3)), shelf) ∧
  ∃ d,
    last [file_info beta_doc; file_info alphabet_doc] = Some (file_info d) ∧
    FileInfo.id (file_info d) = id_3 ∧
    oid_parse id_3 = Some (doc_id d) ∧
    findOne (doc_id d) shelf = (inr (Some d), shelf).
Proof.
  assert (listFilesAdvanced (with_cursor by_size "start") shelf =
            (inr (CursorList [file_info beta_doc; file_info alphabet_doc] (Some id_3)),
             shelf)) as Hlist by (vm_compute; reflexivity).
  split; [exact shelf_well_formed|]. split; [exact Hlist|].
  exact (nextCursor_resolves (with_cursor by_size "start") shelf shelf
           [file_info beta_doc; file_info alphabet_doc] id_3 shelf_well_formed Hlist).
Defined.

Lemma walks_agree_unless_by_update_time_witness :
  well_formed shelf ∧ Params.q by_size = None ∧
  default ByCreatedAt (Params.sortBy by_size) ≠ ByUpdatedAt ∧
  0 < default 50 (Params.limit by_size) ∧
  "start" ≠ "" ∧
  oid_parse "start" ≫= (fun oid => lookup_doc oid shelf) = None ∧
  (length (fs_files shelf) < 4)%nat ∧
  walk_cursor 4 by_size "start" shelf = walk_pages 4 by_size 1 shelf ∧
  NoDup (walk_cursor 4 by_size "start" shelf) ∧
  ∀ id, id ∈ walk_cursor 4 by_size "start" shelf ↔
    ∃ d, d ∈ fs_files shelf ∧ wanted None (Params.mimetype by_size) d = true ∧
         id = oid_toString (doc_id d).
Proof.
  assert (default ByCreatedAt (Params.sortBy by_size) ≠ ByUpdatedAt) as Hsort
    by (intros H; discriminate H).
  assert ("start" ≠ "") as Hstart by (intros H; discriminate H).
  assert (length (fs_files shelf) < 4)%nat as Hfuel by (cbn; lia).
  split; [exact shelf_well_formed|]. split; [reflexivity|]. split; [exact Hsort|].
  split; [reflexivity|]. split; [exact Hstart|]. split; [reflexivity|].
  split; [exact Hfuel|].
  exact (walks_agree_unless_by_update_time by_size shelf shelf_well_formed eq_refl Hsort
           eq_refl "start" 4%nat Hstart eq_refl Hfuel).
Defined.

Lemma unresolved_cursor_is_first_page_witness :
  id_9 ≠ "" ∧
  oid_parse id_9 ≫= (fun oid => lookup_doc oid shelf) = None ∧
  ∃ items next total,
    listFilesAdvanced (with_cursor by_size id_9) shelf = (inr (CursorList items next), shelf) ∧
    listFilesAdvanced (with_page by_size 1) shelf = (inr (PageList items 1 total), shelf).
Proof.
  assert (id_9 ≠ "") as Hne by (intros H; discriminate H).
  split; [exact Hne|]. split; [reflexivity|].
  exact (unresolved_cursor_is_first_page by_size id_9 shelf Hne eq_refl).
Defined.

Lemma nonpositive_page_is_first_page_witness :
  truthy_str (Params.cursor (with_page by_size (-3))) = false ∧
  -3 ≤ 0 ∧
  listFilesAdvanced (with_page by_size (-3)) shelf =
    listFilesAdvanced (with_page (with_page by_size (-3)) 1) shelf.
Proof.
  assert (-3 ≤ 0) as Hpage by (intros H; discriminate H).
  split; [reflexivity|]. split; [exact Hpage|].
  exact (nonpositive_page_is_first_page (with_page by_size (-3)) shelf eq_refl Hpage).
Defined.


Lemma listFiles_newest_first_witness :
  0 ≤ default 0 (Some 1) ∧
  ∃ infos,
    listFiles (Some 2) (Some 1) shelf = (inr infos, shelf) ∧
    (∀ i j x y, (i < j)%nat → infos !! i = Some x → infos !! j = Some y →
                FileInfo.uploadDate y ≤ FileInfo.uploadDate x) ∧
    Z.of_nat (length infos) ≤ 2.
Proof.
  assert (0 ≤ default 0 (Some 1)) as Hskip by (intros H; discriminate H).
  split; [exact Hskip|].
  destruct (listFiles_newest_first (Some 2) (Some 1) shelf Hskip)
    as (infos & Hlist & Hsorted & Hlen & _).
  exists infos. split; [exact Hlist|]. split; [exact Hsorted|].
  apply Hlen. intros H; discriminate H.
Defined.

